(** * Face Cards: the practice session engine and the rocket altitude loop

    A shallow embedding of the guess/session state machine of the owner
    practice view ([PracticeView]), of the duplicated guess check of the
    shared-deck view ([SharedDeckPage]) and of the animation tick of
    [RocketGame], followed by the properties proved about them.

    Conventions of the embedding.
    - A JavaScript string is a [string] of 8-bit characters.  [toLowerCase]
      and [trim] are the ASCII fragments of the JavaScript methods: letters
      [A]-[Z] are lowered, the white space is TAB, LF, VT, FF, CR and SPACE;
      characters above 127 are left alone and are never white space.
    - A JavaScript number is a rational ([Q]): arithmetic is exact, rounding
      of IEEE doubles is not modelled.
    - [useState] cells are the fields of a record; a handler is a function
      from the record to the record, one setter per [setX] call, in the
      order of the source.  [setTimeout] callbacks are kept in a list of
      pending timers and fire as events of their own. *)

From Stdlib Require Import String Ascii Bool Arith ZArith QArith Qround Lia Lqa.
From stdpp Require Import base list sorting pretty gmap.

Local Open Scope string_scope.
Local Open Scope list_scope.
Local Open Scope nat_scope.

(** ** JavaScript strings *)

Module JS.

Definition isUpper (c : ascii) : bool :=
  let n := nat_of_ascii c in (65 <=? n)%nat && (n <=? 90)%nat.

Definition lowerChar (c : ascii) : ascii :=
  if isUpper c then ascii_of_nat (nat_of_ascii c + 32) else c.

(** [s.toLowerCase()] *)
Fixpoint toLowerCase (s : string) : string :=
  match s with
  | EmptyString => EmptyString
  | String c r => String (lowerChar c) (toLowerCase r)
  end.

Definition isSpace (c : ascii) : bool :=
  let n := nat_of_ascii c in
  ((9 <=? n)%nat && (n <=? 13)%nat) || (n =? 32)%nat.

Fixpoint trimStart (s : string) : string :=
  match s with
  | EmptyString => EmptyString
  | String c r => if isSpace c then trimStart r else s
  end.

Fixpoint trimEnd (s : string) : string :=
  match s with
  | EmptyString => EmptyString
  | String c r =>
      match trimEnd r with
      | EmptyString => if isSpace c then EmptyString else String c EmptyString
      | r' => String c r'
      end
  end.

(** [s.trim()] *)
Definition trim (s : string) : string := trimEnd (trimStart s).

(** [s.split(' ')[0]]: the part of [s] before its first space, all of [s]
    when it has none. *)
Fixpoint splitSpaceHead (s : string) : string :=
  match s with
  | EmptyString => EmptyString
  | String c r =>
      if Ascii.eqb c " "%char then EmptyString else String c (splitSpaceHead r)
  end.

(** [xs.includes(x)] on an array of strings (strict equality). *)
Definition includes (xs : list string) (x : string) : bool :=
  existsb (String.eqb x) xs.

(** Truthiness of a string: only the empty string is falsy. *)
Definition truthy (s : string) : bool :=
  match s with EmptyString => false | _ => true end.

End JS.

(** ** Cards and the classification of a guess *)

Inductive Difficulty := First | Full.
Inductive GameMode := Classic | Timed | Rocket.
Inductive Feedback := Correct | Nickname | Incorrect.

(** A flashcard as the practice views read it.  [nicknames] may be [null]
    in the database row. *)
Record Card := {
  name : string;
  nicknames : option (list string);
  photo_url : option string;
}.

Definition Difficulty_eqb (a b : Difficulty) : bool :=
  match a, b with First, First | Full, Full => true | _, _ => false end.

Definition GameMode_eqb (a b : GameMode) : bool :=
  match a, b with
  | Classic, Classic | Timed, Timed | Rocket, Rocket => true
  | _, _ => false
  end.

Definition Feedback_eqb (a b : Feedback) : bool :=
  match a, b with
  | Correct, Correct | Nickname, Nickname | Incorrect, Incorrect => true
  | _, _ => false
  end.

(** ** JavaScript numbers *)

Module Num.

Local Open Scope Q_scope.

Definition ltb (x y : Q) : bool := negb (Qle_bool y x).
Definition leb (x y : Q) : bool := Qle_bool x y.

(** [Math.min], [Math.max], [Math.abs], [Math.floor] *)
Definition min (x y : Q) : Q := if leb x y then x else y.
Definition max (x y : Q) : Q := if leb x y then y else x.
Definition abs (x : Q) : Q := if ltb x 0 then - x else x.
Definition floor (x : Q) : Z := Qfloor x.

(** [Math.round]: to the nearest integer, halves upwards. *)
Definition round (x : Q) : Z := Qfloor (x + (1 # 2)).

(** The integer part, towards zero. *)
Definition trunc (x : Q) : Z := if ltb x 0 then Qceiling x else Qfloor x.

(** [x % y] on numbers: the remainder has the sign of [x]. *)
Definition rem (x y : Q) : Q := x - y * inject_Z (trunc (x / y)).

End Num.

(** ** The rocket canvas: one animation frame *)

Module RocketGame.

Local Open Scope Q_scope.

(** The [GAME] balance constants the frame reads. *)
Definition GRAVITY_RATE : Q := 8.
Definition BASE_BOOST : Q := 20.
Definition BOOST_MULTIPLIER_MAX : Q := 2.5.
Definition BOOST_MULTIPLIER_MIN : Q := 1.0.
Definition STARTING_ALTITUDE : Q := 50.
Definition LERP_SPEED_UP : Q := 8.
Definition LERP_SPEED_DOWN : Q := 12.

(** The props of the component that the frame reads.  [onCrash] is not a
    field: a call of it is the effect [OnCrash] of the frame. *)
Record Props := {
  rocketHeight : Q;
  boosting : bool;
  crashed : bool;
  gravityActive : bool;
}.

(** The [useRef] cells that outlive a frame. *)
Record Refs := {
  frameCount : nat;
  currentHeight : Q;
  visualHeight : Q;
  lastBoosting : bool;
}.

(** What a frame does besides updating the refs: it calls [onCrash] (next
    to logging [CRASH!]) and logs [BOOST!] with the amount it added.  The
    periodic debug log and the drawing are left out. *)
Inductive Effect :=
| OnCrash
| Boost (boostAmount : Q).

(** [useRef(rocketHeight)] at mount. *)
Definition mount (p : Props) : Refs :=
  {| frameCount := 0;
     currentHeight := rocketHeight p;
     visualHeight := rocketHeight p;
     lastBoosting := false |}.

(** The effect on [[rocketHeight]]: "reset height when restarting game". *)
Definition resetOnRestart (p : Props) (r : Refs) : Refs :=
  if Qeq_bool (rocketHeight p) STARTING_ALTITUDE && Num.ltb (currentHeight r) 10
  then {| frameCount := frameCount r;
          currentHeight := STARTING_ALTITUDE;
          visualHeight := STARTING_ALTITUDE;
          lastBoosting := lastBoosting r |}
  else r.

(** [deltaTime], from the seconds elapsed since the previous frame. *)
Definition clampDelta (elapsed : Q) : Q :=
  if Num.ltb 0.1 elapsed then 0.016 else elapsed.

Definition boostMultiplier (h : Q) : Q :=
  BOOST_MULTIPLIER_MAX - (h / 100) * (BOOST_MULTIPLIER_MAX - BOOST_MULTIPLIER_MIN).

Definition lerpSpeed (heightDiff : Q) : Q :=
  if Num.ltb 0 heightDiff then LERP_SPEED_UP else LERP_SPEED_DOWN.

(** "Apply continuous gravity": the height after it and the crash call. *)
Definition applyGravity (p : Props) (deltaTime : Q) (h : Q) : Q * list Effect :=
  if gravityActive p && negb (crashed p) then
    let h1 := h - GRAVITY_RATE * deltaTime in
    if Num.leb h1 0 then (0, [OnCrash]) else (h1, [])
  else (h, []).

(** "Detect new boost (when boosting prop transitions from false to true)". *)
Definition applyBoost (p : Props) (last : bool) (h : Q) : Q * list Effect :=
  if boosting p && negb last then
    let boostAmount := BASE_BOOST * boostMultiplier h in
    (Num.min 100 (h + boostAmount), [Boost boostAmount])
  else (h, []).

(** "Smoothly animate visual height toward actual height". *)
Definition smoothVisual (deltaTime : Q) (h v : Q) : Q :=
  let heightDiff := h - v in
  if Num.ltb 0.1 (Num.abs heightDiff)
  then v + heightDiff * lerpSpeed heightDiff * deltaTime
  else h.

(** The body of [render], up to the drawing. *)
Definition render (p : Props) (elapsed : Q) (r : Refs) : Refs * list Effect :=
  let deltaTime := clampDelta elapsed in
  let '(h1, crash) := applyGravity p deltaTime (currentHeight r) in
  let '(h2, boost) := applyBoost p (lastBoosting r) h1 in
  ({| frameCount := S (frameCount r);
      currentHeight := h2;
      visualHeight := smoothVisual deltaTime h2 (visualHeight r);
      lastBoosting := boosting p |},
   crash ++ boost).

(** Consecutive frames, each with the props and the elapsed time it sees. *)
Fixpoint frames (fs : list (Props * Q)) (r : Refs) : Refs * list Effect :=
  match fs with
  | [] => (r, [])
  | (p, elapsed) :: fs' =>
      let '(r1, e1) := render p elapsed r in
      let '(r2, e2) := frames fs' r1 in
      (r2, e1 ++ e2)
  end.

Definition isBoost (e : Effect) : bool :=
  match e with Boost _ => true | OnCrash => false end.

Definition isCrash (e : Effect) : bool :=
  match e with OnCrash => true | Boost _ => false end.

(** *** What a frame draws from the visual altitude *)

Definition CANVAS_WIDTH : Q := 320.
Definition CANVAS_HEIGHT : Q := 360.
Definition DANGER_THRESHOLD : Q := 30.

Definition displayHeight (visual : Q) : Q := Num.max 0 (Num.min 100 visual).

Definition worldOffset (displayHeight : Q) : Q := displayHeight * 2.


Definition starAlphaMultiplier (displayHeight : Q) : Q :=
  Num.min 1 (displayHeight / 40).

(** "Wrap stars to always fill the viewport". *)
Definition wrapStar (starY : Q) : Q := Num.rem (Num.rem starY 100 + 100) 100.

Definition cloudAlpha (displayHeight : Q) : Q :=
  Num.max 0 (Num.min 0.6 ((50 - displayHeight) / 50 * 0.7)).

Definition cloudsDrawn (displayHeight : Q) : bool :=
  Num.ltb 0.05 (cloudAlpha displayHeight).

Definition groundScreenY (displayHeight : Q) : Q :=
  CANVAS_HEIGHT + worldOffset displayHeight * 1.5 - 30.

Definition groundDrawn (displayHeight : Q) : bool :=
  Num.ltb (groundScreenY displayHeight) (CANVAS_HEIGHT + 50).

Definition rocketX : Q := CANVAS_WIDTH / 2.

Definition rocketY (displayHeight : Q) : Q :=
  CANVAS_HEIGHT * (0.80 - (displayHeight / 100) * 0.65).

(** The altitude meter: a bar 260 high whose fill grows from the bottom. *)
Definition meterHeight : Q := 260.

Definition fillHeight (displayHeight : Q) : Q :=
  (displayHeight / 100) * (meterHeight - 2).

Definition dangerWarning (p : Props) (displayHeight : Q) : bool :=
  Num.ltb displayHeight DANGER_THRESHOLD && negb (crashed p).

(** [drawPixelArt]: the index of the colour of the pixel in column [px]
    of row [py]. *)
Definition colorIndex (px py colors : nat) : nat := (px + py) mod colors.

End RocketGame.

(** ** The state of a practice view *)

Record Stats := { correct : nat; total : nat }.

(** The two [setTimeout] callbacks a correct rocket answer schedules: the
    one after 500 ms clears [rocketBoosting], the one after 800 ms moves on
    to the next card. *)
Inductive Timer := BoostingOff | AutoAdvance.

(** The [useState] cells of [PracticeView] that the session logic reads or
    writes ([editingMnemonic] and [mnemonicText] are
    [editingPracticeMnemonic] and [practiceMnemonicText] there), and the
    callbacks waiting in the timer queue.  The cells of the score
    submission ([saving], [scoreSubmitted], ...) are left out. *)
Record Session := {
  currentIndex : nat;
  guess : string;
  feedback : option Feedback;
  showAnswer : bool;
  stats : Stats;
  shuffledIndices : list nat;
  difficulty : Difficulty;
  lastGuess : string;
  correctionInput : string;
  correctionComplete : bool;
  editingMnemonic : bool;
  mnemonicText : string;
  gameMode : GameMode;
  startTime : option Z;
  elapsedTime : Z;
  rocketHeight : Q;
  rocketCrashed : bool;
  rocketBoosting : bool;
  timers : list Timer;
}.

(** One setter per cell. *)
Definition setCurrentIndex (v : nat) (s : Session) : Session :=
  {| currentIndex := v; guess := guess s; feedback := feedback s;
     showAnswer := showAnswer s; stats := stats s;
     shuffledIndices := shuffledIndices s; difficulty := difficulty s;
     lastGuess := lastGuess s; correctionInput := correctionInput s;
     correctionComplete := correctionComplete s;
     editingMnemonic := editingMnemonic s; mnemonicText := mnemonicText s;
     gameMode := gameMode s; startTime := startTime s;
     elapsedTime := elapsedTime s; rocketHeight := rocketHeight s;
     rocketCrashed := rocketCrashed s; rocketBoosting := rocketBoosting s;
     timers := timers s |}.

Definition setGuess (v : string) (s : Session) : Session :=
  {| currentIndex := currentIndex s; guess := v; feedback := feedback s;
     showAnswer := showAnswer s; stats := stats s;
     shuffledIndices := shuffledIndices s; difficulty := difficulty s;
     lastGuess := lastGuess s; correctionInput := correctionInput s;
     correctionComplete := correctionComplete s;
     editingMnemonic := editingMnemonic s; mnemonicText := mnemonicText s;
     gameMode := gameMode s; startTime := startTime s;
     elapsedTime := elapsedTime s; rocketHeight := rocketHeight s;
     rocketCrashed := rocketCrashed s; rocketBoosting := rocketBoosting s;
     timers := timers s |}.

Definition setFeedback (v : option Feedback) (s : Session) : Session :=
  {| currentIndex := currentIndex s; guess := guess s; feedback := v;
     showAnswer := showAnswer s; stats := stats s;
     shuffledIndices := shuffledIndices s; difficulty := difficulty s;
     lastGuess := lastGuess s; correctionInput := correctionInput s;
     correctionComplete := correctionComplete s;
     editingMnemonic := editingMnemonic s; mnemonicText := mnemonicText s;
     gameMode := gameMode s; startTime := startTime s;
     elapsedTime := elapsedTime s; rocketHeight := rocketHeight s;
     rocketCrashed := rocketCrashed s; rocketBoosting := rocketBoosting s;
     timers := timers s |}.

Definition setShowAnswer (v : bool) (s : Session) : Session :=
  {| currentIndex := currentIndex s; guess := guess s;
     feedback := feedback s; showAnswer := v; stats := stats s;
     shuffledIndices := shuffledIndices s; difficulty := difficulty s;
     lastGuess := lastGuess s; correctionInput := correctionInput s;
     correctionComplete := correctionComplete s;
     editingMnemonic := editingMnemonic s; mnemonicText := mnemonicText s;
     gameMode := gameMode s; startTime := startTime s;
     elapsedTime := elapsedTime s; rocketHeight := rocketHeight s;
     rocketCrashed := rocketCrashed s; rocketBoosting := rocketBoosting s;
     timers := timers s |}.

Definition setStats (v : Stats) (s : Session) : Session :=
  {| currentIndex := currentIndex s; guess := guess s;
     feedback := feedback s; showAnswer := showAnswer s; stats := v;
     shuffledIndices := shuffledIndices s; difficulty := difficulty s;
     lastGuess := lastGuess s; correctionInput := correctionInput s;
     correctionComplete := correctionComplete s;
     editingMnemonic := editingMnemonic s; mnemonicText := mnemonicText s;
     gameMode := gameMode s; startTime := startTime s;
     elapsedTime := elapsedTime s; rocketHeight := rocketHeight s;
     rocketCrashed := rocketCrashed s; rocketBoosting := rocketBoosting s;
     timers := timers s |}.

Definition setShuffledIndices (v : list nat) (s : Session) : Session :=
  {| currentIndex := currentIndex s; guess := guess s;
     feedback := feedback s; showAnswer := showAnswer s; stats := stats s;
     shuffledIndices := v; difficulty := difficulty s;
     lastGuess := lastGuess s; correctionInput := correctionInput s;
     correctionComplete := correctionComplete s;
     editingMnemonic := editingMnemonic s; mnemonicText := mnemonicText s;
     gameMode := gameMode s; startTime := startTime s;
     elapsedTime := elapsedTime s; rocketHeight := rocketHeight s;
     rocketCrashed := rocketCrashed s; rocketBoosting := rocketBoosting s;
     timers := timers s |}.

Definition setDifficulty (v : Difficulty) (s : Session) : Session :=
  {| currentIndex := currentIndex s; guess := guess s;
     feedback := feedback s; showAnswer := showAnswer s; stats := stats s;
     shuffledIndices := shuffledIndices s; difficulty := v;
     lastGuess := lastGuess s; correctionInput := correctionInput s;
     correctionComplete := correctionComplete s;
     editingMnemonic := editingMnemonic s; mnemonicText := mnemonicText s;
     gameMode := gameMode s; startTime := startTime s;
     elapsedTime := elapsedTime s; rocketHeight := rocketHeight s;
     rocketCrashed := rocketCrashed s; rocketBoosting := rocketBoosting s;
     timers := timers s |}.

Definition setLastGuess (v : string) (s : Session) : Session :=
  {| currentIndex := currentIndex s; guess := guess s;
     feedback := feedback s; showAnswer := showAnswer s; stats := stats s;
     shuffledIndices := shuffledIndices s; difficulty := difficulty s;
     lastGuess := v; correctionInput := correctionInput s;
     correctionComplete := correctionComplete s;
     editingMnemonic := editingMnemonic s; mnemonicText := mnemonicText s;
     gameMode := gameMode s; startTime := startTime s;
     elapsedTime := elapsedTime s; rocketHeight := rocketHeight s;
     rocketCrashed := rocketCrashed s; rocketBoosting := rocketBoosting s;
     timers := timers s |}.

Definition setCorrectionInput (v : string) (s : Session) : Session :=
  {| currentIndex := currentIndex s; guess := guess s;
     feedback := feedback s; showAnswer := showAnswer s; stats := stats s;
     shuffledIndices := shuffledIndices s; difficulty := difficulty s;
     lastGuess := lastGuess s; correctionInput := v;
     correctionComplete := correctionComplete s;
     editingMnemonic := editingMnemonic s; mnemonicText := mnemonicText s;
     gameMode := gameMode s; startTime := startTime s;
     elapsedTime := elapsedTime s; rocketHeight := rocketHeight s;
     rocketCrashed := rocketCrashed s; rocketBoosting := rocketBoosting s;
     timers := timers s |}.

Definition setCorrectionComplete (v : bool) (s : Session) : Session :=
  {| currentIndex := currentIndex s; guess := guess s;
     feedback := feedback s; showAnswer := showAnswer s; stats := stats s;
     shuffledIndices := shuffledIndices s; difficulty := difficulty s;
     lastGuess := lastGuess s; correctionInput := correctionInput s;
     correctionComplete := v; editingMnemonic := editingMnemonic s;
     mnemonicText := mnemonicText s; gameMode := gameMode s;
     startTime := startTime s; elapsedTime := elapsedTime s;
     rocketHeight := rocketHeight s; rocketCrashed := rocketCrashed s;
     rocketBoosting := rocketBoosting s; timers := timers s |}.

Definition setEditingMnemonic (v : bool) (s : Session) : Session :=
  {| currentIndex := currentIndex s; guess := guess s;
     feedback := feedback s; showAnswer := showAnswer s; stats := stats s;
     shuffledIndices := shuffledIndices s; difficulty := difficulty s;
     lastGuess := lastGuess s; correctionInput := correctionInput s;
     correctionComplete := correctionComplete s; editingMnemonic := v;
     mnemonicText := mnemonicText s; gameMode := gameMode s;
     startTime := startTime s; elapsedTime := elapsedTime s;
     rocketHeight := rocketHeight s; rocketCrashed := rocketCrashed s;
     rocketBoosting := rocketBoosting s; timers := timers s |}.

Definition setMnemonicText (v : string) (s : Session) : Session :=
  {| currentIndex := currentIndex s; guess := guess s;
     feedback := feedback s; showAnswer := showAnswer s; stats := stats s;
     shuffledIndices := shuffledIndices s; difficulty := difficulty s;
     lastGuess := lastGuess s; correctionInput := correctionInput s;
     correctionComplete := correctionComplete s;
     editingMnemonic := editingMnemonic s; mnemonicText := v;
     gameMode := gameMode s; startTime := startTime s;
     elapsedTime := elapsedTime s; rocketHeight := rocketHeight s;
     rocketCrashed := rocketCrashed s; rocketBoosting := rocketBoosting s;
     timers := timers s |}.

Definition setGameMode (v : GameMode) (s : Session) : Session :=
  {| currentIndex := currentIndex s; guess := guess s;
     feedback := feedback s; showAnswer := showAnswer s; stats := stats s;
     shuffledIndices := shuffledIndices s; difficulty := difficulty s;
     lastGuess := lastGuess s; correctionInput := correctionInput s;
     correctionComplete := correctionComplete s;
     editingMnemonic := editingMnemonic s; mnemonicText := mnemonicText s;
     gameMode := v; startTime := startTime s; elapsedTime := elapsedTime s;
     rocketHeight := rocketHeight s; rocketCrashed := rocketCrashed s;
     rocketBoosting := rocketBoosting s; timers := timers s |}.

Definition setStartTime (v : option Z) (s : Session) : Session :=
  {| currentIndex := currentIndex s; guess := guess s;
     feedback := feedback s; showAnswer := showAnswer s; stats := stats s;
     shuffledIndices := shuffledIndices s; difficulty := difficulty s;
     lastGuess := lastGuess s; correctionInput := correctionInput s;
     correctionComplete := correctionComplete s;
     editingMnemonic := editingMnemonic s; mnemonicText := mnemonicText s;
     gameMode := gameMode s; startTime := v; elapsedTime := elapsedTime s;
     rocketHeight := rocketHeight s; rocketCrashed := rocketCrashed s;
     rocketBoosting := rocketBoosting s; timers := timers s |}.

Definition setElapsedTime (v : Z) (s : Session) : Session :=
  {| currentIndex := currentIndex s; guess := guess s;
     feedback := feedback s; showAnswer := showAnswer s; stats := stats s;
     shuffledIndices := shuffledIndices s; difficulty := difficulty s;
     lastGuess := lastGuess s; correctionInput := correctionInput s;
     correctionComplete := correctionComplete s;
     editingMnemonic := editingMnemonic s; mnemonicText := mnemonicText s;
     gameMode := gameMode s; startTime := startTime s; elapsedTime := v;
     rocketHeight := rocketHeight s; rocketCrashed := rocketCrashed s;
     rocketBoosting := rocketBoosting s; timers := timers s |}.

Definition setRocketHeight (v : Q) (s : Session) : Session :=
  {| currentIndex := currentIndex s; guess := guess s;
     feedback := feedback s; showAnswer := showAnswer s; stats := stats s;
     shuffledIndices := shuffledIndices s; difficulty := difficulty s;
     lastGuess := lastGuess s; correctionInput := correctionInput s;
     correctionComplete := correctionComplete s;
     editingMnemonic := editingMnemonic s; mnemonicText := mnemonicText s;
     gameMode := gameMode s; startTime := startTime s;
     elapsedTime := elapsedTime s; rocketHeight := v;
     rocketCrashed := rocketCrashed s; rocketBoosting := rocketBoosting s;
     timers := timers s |}.

Definition setRocketCrashed (v : bool) (s : Session) : Session :=
  {| currentIndex := currentIndex s; guess := guess s;
     feedback := feedback s; showAnswer := showAnswer s; stats := stats s;
     shuffledIndices := shuffledIndices s; difficulty := difficulty s;
     lastGuess := lastGuess s; correctionInput := correctionInput s;
     correctionComplete := correctionComplete s;
     editingMnemonic := editingMnemonic s; mnemonicText := mnemonicText s;
     gameMode := gameMode s; startTime := startTime s;
     elapsedTime := elapsedTime s; rocketHeight := rocketHeight s;
     rocketCrashed := v; rocketBoosting := rocketBoosting s;
     timers := timers s |}.

Definition setRocketBoosting (v : bool) (s : Session) : Session :=
  {| currentIndex := currentIndex s; guess := guess s;
     feedback := feedback s; showAnswer := showAnswer s; stats := stats s;
     shuffledIndices := shuffledIndices s; difficulty := difficulty s;
     lastGuess := lastGuess s; correctionInput := correctionInput s;
     correctionComplete := correctionComplete s;
     editingMnemonic := editingMnemonic s; mnemonicText := mnemonicText s;
     gameMode := gameMode s; startTime := startTime s;
     elapsedTime := elapsedTime s; rocketHeight := rocketHeight s;
     rocketCrashed := rocketCrashed s; rocketBoosting := v;
     timers := timers s |}.

Definition setTimers (v : list Timer) (s : Session) : Session :=
  {| currentIndex := currentIndex s; guess := guess s;
     feedback := feedback s; showAnswer := showAnswer s; stats := stats s;
     shuffledIndices := shuffledIndices s; difficulty := difficulty s;
     lastGuess := lastGuess s; correctionInput := correctionInput s;
     correctionComplete := correctionComplete s;
     editingMnemonic := editingMnemonic s; mnemonicText := mnemonicText s;
     gameMode := gameMode s; startTime := startTime s;
     elapsedTime := elapsedTime s; rocketHeight := rocketHeight s;
     rocketCrashed := rocketCrashed s; rocketBoosting := rocketBoosting s;
     timers := v |}.

(** A functional update [setX(prev => f(prev))]. *)
Definition updCurrentIndex (f : nat -> nat) (s : Session) : Session :=
  setCurrentIndex (f (currentIndex s)) s.
Definition updStats (f : Stats -> Stats) (s : Session) : Session :=
  setStats (f (stats s)) s.
Definition updRocketHeight (f : Q -> Q) (s : Session) : Session :=
  setRocketHeight (f (rocketHeight s)) s.

(** [setTimeout(callback, ms)] *)
Definition setTimeout (t : Timer) (s : Session) : Session :=
  setTimers (timers s ++ [t]) s.

(** Handlers are written as pipelines of setters. *)
Notation "s |> f" := (f s) (at level 45, left associativity, only parsing).

(** [!startTime]: [null] and [0] are falsy. *)
Definition unset (t : option Z) : bool :=
  match t with None => true | Some z => (z =? 0)%Z end.

Definition truthyPhoto (c : Card) : bool :=
  match photo_url c with Some u => JS.truthy u | None => false end.

(** [flashcards.filter(c => c.photo_url)] *)
Definition practiceCardsOf (flashcards : list Card) : list Card :=
  List.filter truthyPhoto flashcards.

(** ** The Fisher-Yates loop of [shuffleCards] *)

(** [[indices[i], indices[j]] = [indices[j], indices[i]]].  Both reads are
    in range whenever the loop runs with draws in [0, 1) (see
    [shuffleLoop_in_range]); out of range JavaScript would read
    [undefined], which a [list nat] cannot hold, and the list is left as
    it is. *)
Definition swap (indices : list nat) (i j : nat) : list nat :=
  match indices !! i, indices !! j with
  | Some x, Some y => <[j := x]> (<[i := y]> indices)
  | _, _ => indices
  end.

(** [Math.floor(Math.random() * (i + 1))], for the draw [r] of
    [Math.random()]. *)
Definition pick (r : Q) (i : nat) : nat :=
  Z.to_nat (Num.floor (r * inject_Z (Z.of_nat (i + 1)))).

(** [for (let i = indices.length - 1; i > 0; i--)]: the iterations from [i]
    down to 1; [random k] is the result of the [k]-th call of
    [Math.random()]. *)
Fixpoint shuffleLoop (random : nat -> Q) (k : nat) (i : nat)
    (indices : list nat) : list nat :=
  match i with
  | O => indices
  | S i' =>
      let j := pick (random k) i in
      shuffleLoop random (S k) i' (swap indices i j)
  end.

(** The array [shuffleCards] stores, for [length] cards. *)
Definition shuffled (random : nat -> Q) (length : nat) : list nat :=
  let indices := seq 0 length in
  shuffleLoop random 0 (List.length indices - 1) indices.

(** ** The leaderboard hook *)

Module Leaderboard.

(** A row of [leaderboard_entries], as far as the client reads it. *)
Record Entry := {
  game_mode : GameMode;
  accuracy : Q;
  time_ms : option Z;
}.

(** Truthiness of a nullable number: [null] and [0] are falsy. *)
Definition truthyTime (t : option Z) : bool :=
  match t with Some z => negb (z =? 0)%Z | None => false end.

(** [a && b && a < b] on two nullable numbers. *)
Definition fasterThan (a b : option Z) : bool :=
  match a, b with
  | Some x, Some y => truthyTime a && truthyTime b && (x <? y)%Z
  | _, _ => false
  end.

Definition slice10 (l : list Entry) : list Entry := firstn 10 l.

(** [entries.filter(e => e.game_mode === mode).slice(0, 10)] *)
Definition getEntriesByMode (entries : list Entry) (mode : GameMode)
    : list Entry :=
  slice10 (List.filter (fun e => GameMode_eqb (game_mode e) mode) entries).

(** The table [bestByMode] / [personalBest]: a mode without an entry reads
    [undefined]. *)
Definition Best := GameMode -> option Entry.

Definition noBest : Best := fun _ => None.

Definition setBest (mode : GameMode) (e : Entry) (best : Best) : Best :=
  fun m => if GameMode_eqb m mode then Some e else best m.

(** The body of the [forEach] that groups the user's rows by mode. *)
Definition keepBest (best : Best) (entry : Entry) : Best :=
  match best (game_mode entry) with
  | None => setBest (game_mode entry) entry best
  | Some current =>
      if Num.ltb (accuracy current) (accuracy entry)
         || (Qeq_bool (accuracy entry) (accuracy current)
             && fasterThan (time_ms entry) (time_ms current))
      then setBest (game_mode entry) entry best
      else best
  end.

(** The state [personalBest] after a fetch that returned [userBest]:
    [null] is kept when there are no rows. *)
Definition fetchPersonalBest (userBest : list Entry) : option Best :=
  match userBest with
  | [] => None
  | _ => Some (fold_left keepBest userBest noBest)
  end.

(** [isPersonalBest(gameMode, accuracy, timeMs)] *)
Definition isPersonalBest (personalBest : option Best) (gameMode : GameMode)
    (accuracy' : Q) (timeMs : option Z) : bool :=
  match personalBest with
  | None => true
  | Some best =>
      match best gameMode with
      | None => true
      | Some current =>
          if Num.ltb (accuracy current) accuracy' then true
          else if Qeq_bool accuracy' (accuracy current)
                  && fasterThan timeMs (time_ms current) then true
          else false
      end
  end.

End Leaderboard.

(** ** The owner practice view *)

Module PracticeView.

Section Handlers.

(** The eligible cards, [practiceCards], are fixed while a session runs. *)
Variable practiceCards : list Card.

Definition isSessionComplete (s : Session) : bool :=
  ((0 <? total (stats s)) && (length practiceCards <=? total (stats s)))
  || rocketCrashed s.

(** [practiceCards[actualIndex]]; [None] is [undefined]. *)
Definition currentCoworker (s : Session) : option Card :=
  match (if 0 <? length (shuffledIndices s)
         then shuffledIndices s !! currentIndex s
         else Some (currentIndex s)) with
  | Some actualIndex => practiceCards !! actualIndex
  | None => None
  end.

Definition resetCardState (s : Session) : Session :=
  s |> setGuess ""
    |> setFeedback None
    |> setShowAnswer false
    |> setLastGuess ""
    |> setCorrectionInput ""
    |> setCorrectionComplete false
    |> setEditingMnemonic false
    |> setMnemonicText "".

Definition nextCard (s : Session) : Session :=
  s |> resetCardState
    |> updCurrentIndex (fun prev => (prev + 1) mod length practiceCards).

Definition shuffleCards (random : nat -> Q) (s : Session) : Session :=
  s |> setShuffledIndices (shuffled random (length practiceCards))
    |> setCurrentIndex 0
    |> resetCardState.

(** The [onClick] of the Reveal button. *)
Definition onClickReveal (s : Session) : Session :=
  s |> setShowAnswer true
    |> setFeedback (Some Incorrect)
    |> setLastGuess ""
    |> setCorrectionInput ""
    |> setCorrectionComplete false
    |> updStats (fun prev => {| correct := correct prev; total := total prev + 1 |}).

Definition feedbackIs (f : Feedback) (s : Session) : bool :=
  match feedback s with Some g => Feedback_eqb g f | None => false end.

(** The window [keydown] listener, for a key pressed outside an input. *)
Definition handleKeyDown (key : string) (s : Session) : Session :=
  if showAnswer s then
    if String.eqb key "Enter" then
      if feedbackIs Correct s || feedbackIs Nickname s || correctionComplete s
      then nextCard s
      else s
    else s
  else
    if String.eqb key "r" || String.eqb key "R" then
      s |> setShowAnswer true
        |> setFeedback (Some Incorrect)
        |> setLastGuess ""
        |> setCorrectionInput ""
        |> setCorrectionComplete false
        |> updStats (fun prev => {| correct := correct prev; total := total prev + 1 |})
    else s.

Definition handleRocketCrash (s : Session) : Session :=
  s |> setRocketCrashed true
    |> setRocketHeight 0.

Definition gravityActive (s : Session) : bool :=
  GameMode_eqb (gameMode s) Rocket && negb (showAnswer s)
  && negb (rocketCrashed s) && negb (isSessionComplete s).

(** The two tests at the head of [checkGuess]: [isCorrect] and
    [isNicknameMatch]. *)
Definition matchGuess (c : Card) (d : Difficulty) (guess : string) : bool * bool :=
  let guessLower := JS.trim (JS.toLowerCase guess) in
  let fullName := JS.trim (JS.toLowerCase (name c)) in
  let firstName := JS.splitSpaceHead fullName in
  let nicknames := map JS.toLowerCase (default [] (nicknames c)) in
  let target := if Difficulty_eqb d First then firstName else fullName in
  let isCorrect := String.eqb guessLower target in
  let isNicknameMatch :=
    negb isCorrect && Difficulty_eqb d First && JS.includes nicknames guessLower in
  (isCorrect, isNicknameMatch).

(** The feedback [checkGuess] stores for these two tests. *)
Definition classify (c : Card) (d : Difficulty) (guess : string) : Feedback :=
  let '(isCorrect, isNicknameMatch) := matchGuess c d guess in
  if isCorrect || isNicknameMatch
  then (if isNicknameMatch then Nickname else Correct)
  else Incorrect.

(** The rocket penalty of a miss: the updater passed to [setRocketHeight],
    which also sets [rocketCrashed]. *)
Definition penalise (s : Session) : Session :=
  let newHeight := Num.max 0 (rocketHeight s - 15)%Q in
  (if Num.leb newHeight 0 then setRocketCrashed true s else s)
    |> setRocketHeight newHeight.

(** [checkGuess], at the instant [now] of [Date.now()].  Without a current
    card the first read of [currentCoworker.name] throws and no cell is
    written. *)
Definition checkGuess (now : Z) (s : Session) : Session :=
  match currentCoworker s with
  | None => s
  | Some c =>
      let '(isCorrect, isNicknameMatch) := matchGuess c (difficulty s) (guess s) in
      let s1 :=
        (if GameMode_eqb (gameMode s) Timed && unset (startTime s)
         then setStartTime (Some now) s else s)
          |> setLastGuess (JS.trim (guess s))
          |> setCorrectionInput ""
          |> setCorrectionComplete false
          |> setEditingMnemonic false
          |> setMnemonicText "" in
      let s2 :=
        if isCorrect || isNicknameMatch then
          let s' :=
            s1 |> setFeedback (Some (if isNicknameMatch then Nickname else Correct))
               |> updStats (fun prev =>
                    {| correct := correct prev + 1; total := total prev + 1 |}) in
          if GameMode_eqb (gameMode s) Rocket then
            s' |> updRocketHeight (fun prev => Num.min 100 (prev + 20)%Q)
               |> setRocketBoosting true
               |> setTimeout BoostingOff
               |> setTimeout AutoAdvance
          else s'
        else
          let s' :=
            s1 |> setFeedback (Some Incorrect)
               |> updStats (fun prev =>
                    {| correct := correct prev; total := total prev + 1 |}) in
          if GameMode_eqb (gameMode s) Rocket then penalise s' else s' in
      s2 |> setShowAnswer true
  end.

Definition restartPractice (random : nat -> Q) (s : Session) : Session :=
  s |> setStats {| correct := 0; total := 0 |}
    |> setStartTime None
    |> setElapsedTime 0%Z
    |> setRocketHeight 50
    |> setRocketCrashed false
    |> setRocketBoosting false
    |> shuffleCards random.

Definition getTargetName (s : Session) : string :=
  match currentCoworker s with
  | None => ""
  | Some c =>
      let fullName := JS.trim (name c) in
      let firstName := JS.splitSpaceHead fullName in
      if Difficulty_eqb (difficulty s) First then firstName else fullName
  end.

Definition handleGameModeChange (random : nat -> Q) (newMode : GameMode)
    (s : Session) : Session :=
  if negb (GameMode_eqb newMode (gameMode s)) then
    s |> setGameMode newMode
      |> restartPractice random
  else s.

Definition checkCorrection (s : Session) (input : string) : bool :=
  let target := JS.toLowerCase (getTargetName s) in
  String.eqb (JS.trim (JS.toLowerCase input)) target.

Definition handleCorrectionChange (value : string) (s : Session) : Session :=
  s |> setCorrectionInput value
    |> setCorrectionComplete (checkCorrection s value).

(** The callbacks of the two timers of [checkGuess]. *)
Definition fire (t : Timer) (s : Session) : Session :=
  match t with
  | BoostingOff => setRocketBoosting false s
  | AutoAdvance =>
      s |> setGuess ""
        |> setFeedback None
        |> setShowAnswer false
        |> setLastGuess ""
        |> setCorrectionInput ""
        |> setCorrectionComplete false
        |> updCurrentIndex (fun prev => (prev + 1) mod length practiceCards)
  end.

(** *** The clock and the completion screen *)

(** The three numbers [formatTime] prints: minutes, seconds and tenths. *)
Definition timeParts (ms : Z) : Z * Z * Z :=
  let totalSeconds := (ms / 1000)%Z in
  let minutes := (totalSeconds / 60)%Z in
  let seconds := Z.rem totalSeconds 60 in
  let tenths := (Z.rem ms 1000 / 100)%Z in
  (minutes, seconds, tenths).

(** [s.padStart(2, '0')] *)
Definition padStart2 (s : string) : string :=
  match String.length s with
  | 0 => "00"
  | 1 => "0" ++ s
  | _ => s
  end%string.

Definition formatTime (ms : Z) : string :=
  let '(minutes, seconds, tenths) := timeParts ms in
  (pretty minutes ++ ":" ++ padStart2 (pretty seconds) ++ "." ++ pretty tenths)%string.

(** [percentage] of the completion screen (and [accuracy] of the score
    submission). *)
Definition percentage (st : Stats) : Z :=
  if 0 <? total st
  then Num.round (inject_Z (Z.of_nat (correct st)) / inject_Z (Z.of_nat (total st))
                  * 100)%Q
  else 0%Z.

Definition isPerfect (st : Stats) : bool := (percentage st =? 100)%Z.
Definition isGreat (st : Stats) : bool := (80 <=? percentage st)%Z.
Definition isGood (st : Stats) : bool := (60 <=? percentage st)%Z.

Definition getResultTitle (s : Session) : string :=
  if GameMode_eqb (gameMode s) Rocket && rocketCrashed s then "Mission Failed!"
  else if GameMode_eqb (gameMode s) Rocket then "Mission Complete!"
  else if GameMode_eqb (gameMode s) Timed then formatTime (elapsedTime s)
  else if isPerfect (stats s) then "Perfect Score!"
  else if isGreat (stats s) then "Great Job!"
  else if isGood (stats s) then "Nice Work!"
  else "Session Complete".

Definition getResultSubtitle (s : Session) : string :=
  if GameMode_eqb (gameMode s) Rocket && rocketCrashed s
  then "The rocket ran out of fuel!"
  else if GameMode_eqb (gameMode s) Rocket then "You reached the finish line!"
  else if GameMode_eqb (gameMode s) Timed then "Time to complete"
  else if isPerfect (stats s) then "You know everyone!"
  else if isGreat (stats s) then "You're getting really good at this."
  else if isGood (stats s) then "Keep practicing to improve."
  else "Practice makes perfect.".

(** The rank [autoSubmitScore] shows, from the entries of the mode: the
    place of the first entry with this score, or one more than the number
    of better entries. *)
Definition sameScore (s : Session) (accuracy : Z) (e : Leaderboard.Entry) : bool :=
  Qeq_bool (Leaderboard.accuracy e) (inject_Z accuracy)
  && (negb (GameMode_eqb (gameMode s) Timed)
      || match Leaderboard.time_ms e with
         | Some t => (t =? elapsedTime s)%Z
         | None => false
         end).

Definition betterScore (s : Session) (accuracy : Z) (e : Leaderboard.Entry) : bool :=
  Num.ltb (inject_Z accuracy) (Leaderboard.accuracy e)
  || (Qeq_bool (Leaderboard.accuracy e) (inject_Z accuracy)
      && GameMode_eqb (gameMode s) Timed
      && match Leaderboard.time_ms e with
         | Some t => Leaderboard.truthyTime (Some t) && (t <? elapsedTime s)%Z
         | None => false
         end).

(** [entries.findIndex(p)]: [None] is [-1]. *)
Fixpoint findIndex {A} (p : A -> bool) (l : list A) : option nat :=
  match l with
  | [] => None
  | x :: r => if p x then Some 0 else option_map S (findIndex p r)
  end.

Definition leaderboardRank (entries : list Leaderboard.Entry) (s : Session) : nat :=
  let accuracy := percentage (stats s) in
  match findIndex (sameScore s accuracy) entries with
  | Some rank => rank + 1
  | None =>
      let betterScores := length (List.filter (betterScore s accuracy) entries) in
      betterScores + 1
  end.

End Handlers.

End PracticeView.

(** ** The shared-deck (guest) view: its copy of the guess check *)

Module SharedDeckPage.

Section Handlers.

Variable practiceCards : list Card.

Definition isSessionComplete (s : Session) : bool :=
  ((0 <? total (stats s)) && (length practiceCards <=? total (stats s)))
  || rocketCrashed s.

Definition currentCoworker (s : Session) : option Card :=
  match (if 0 <? length (shuffledIndices s)
         then shuffledIndices s !! currentIndex s
         else Some (currentIndex s)) with
  | Some actualIndex => practiceCards !! actualIndex
  | None => None
  end.

Definition matchGuess (c : Card) (d : Difficulty) (guess : string) : bool * bool :=
  let guessLower := JS.trim (JS.toLowerCase guess) in
  let fullName := JS.trim (JS.toLowerCase (name c)) in
  let firstName := JS.splitSpaceHead fullName in
  let nicknames := map JS.toLowerCase (default [] (nicknames c)) in
  let target := if Difficulty_eqb d First then firstName else fullName in
  let isCorrect := String.eqb guessLower target in
  let isNicknameMatch :=
    negb isCorrect && Difficulty_eqb d First && JS.includes nicknames guessLower in
  (isCorrect, isNicknameMatch).

Definition penalise (s : Session) : Session :=
  let newHeight := Num.max 0 (rocketHeight s - 15)%Q in
  (if Num.leb newHeight 0 then setRocketCrashed true s else s)
    |> setRocketHeight newHeight.

(** [checkGuess] of the guest view: it leaves the mnemonic editor alone. *)
Definition checkGuess (now : Z) (s : Session) : Session :=
  match currentCoworker s with
  | None => s
  | Some c =>
      let '(isCorrect, isNicknameMatch) := matchGuess c (difficulty s) (guess s) in
      let s1 :=
        (if GameMode_eqb (gameMode s) Timed && unset (startTime s)
         then setStartTime (Some now) s else s)
          |> setLastGuess (JS.trim (guess s))
          |> setCorrectionInput ""
          |> setCorrectionComplete false in
      let s2 :=
        if isCorrect || isNicknameMatch then
          let s' :=
            s1 |> setFeedback (Some (if isNicknameMatch then Nickname else Correct))
               |> updStats (fun prev =>
                    {| correct := correct prev + 1; total := total prev + 1 |}) in
          if GameMode_eqb (gameMode s) Rocket then
            s' |> updRocketHeight (fun prev => Num.min 100 (prev + 20)%Q)
               |> setRocketBoosting true
               |> setTimeout BoostingOff
               |> setTimeout AutoAdvance
          else s'
        else
          let s' :=
            s1 |> setFeedback (Some Incorrect)
               |> updStats (fun prev =>
                    {| correct := correct prev; total := total prev + 1 |}) in
          if GameMode_eqb (gameMode s) Rocket then penalise s' else s' in
      s2 |> setShowAnswer true
  end.

(** The callbacks of the two timers of the guest's [checkGuess]: the one
    after 500 ms clears [rocketBoosting], the one after 800 ms clears the
    card state and moves the cursor on. *)
Definition fire (t : Timer) (s : Session) : Session :=
  match t with
  | BoostingOff => s |> setRocketBoosting false
  | AutoAdvance =>
      s |> setGuess ""
        |> setFeedback None
        |> setShowAnswer false
        |> setLastGuess ""
        |> setCorrectionInput ""
        |> setCorrectionComplete false
        |> updCurrentIndex (fun prev => (prev + 1) mod length practiceCards)
  end.

End Handlers.

End SharedDeckPage.

(** ** The practice view as a machine: events, guards and the canvas *)

Module Practice.

Import PracticeView.

(** What the user, the timer queue and the frame clock can do to the view.
    A click or a key on an element that is not rendered, or is disabled,
    reaches no handler.  [now] is [Date.now()], [random] the draws of
    [Math.random()], [elapsed] the seconds since the previous frame. *)
Inductive Event :=
| ChangeGuess (value : string)
| KeyDownGuess (key : string) (now : Z)
| ClickCheck (now : Z)
| ClickReveal
| WindowKeyDown (key : string)
| ChangeCorrection (value : string)
| KeyDownCorrection (key : string)
| ClickSkip
| ClickNextCard
| ClickShuffle (random : nat -> Q)
| SelectGameMode (newMode : GameMode) (random : nat -> Q)
| ChangeDifficulty (d : Difficulty)
| ClickTryAgain (random : nat -> Q)
| Timeout (k : nat)
| Interval (now : Z)
| AnimationFrame (elapsed : Q).

(** The three returns of the component (after loading). *)
Inductive Screen := NoCards | SessionComplete | ActivePractice.

Definition Screen_eqb (a b : Screen) : bool :=
  match a, b with
  | NoCards, NoCards | SessionComplete, SessionComplete
  | ActivePractice, ActivePractice => true
  | _, _ => false
  end.

Record View := {
  session : Session;
  canvas : option RocketGame.Refs;
}.

Section Machine.

Variable practiceCards : list Card.

Definition screen (s : Session) : Screen :=
  if length practiceCards =? 0 then NoCards
  else if isSessionComplete practiceCards s then SessionComplete
  else ActivePractice.

Definition guessing (s : Session) : bool :=
  Screen_eqb (screen s) ActivePractice && negb (showAnswer s).

Definition answering (s : Session) : bool :=
  Screen_eqb (screen s) ActivePractice && showAnswer s.

(** The correction box is rendered for a miss in classic mode. *)
Definition correcting (s : Session) : bool :=
  answering s && feedbackIs Incorrect s && GameMode_eqb (gameMode s) Classic.

(** The [disabled] attribute of the Next Card button. *)
Definition nextDisabled (s : Session) : bool :=
  feedbackIs Incorrect s && negb (correctionComplete s)
  && GameMode_eqb (gameMode s) Classic.

(** The [disabled] attribute of the Check button. *)
Definition checkDisabled (s : Session) : bool := negb (JS.truthy (guess s)).

Definition handle (e : Event) (s : Session) : Session :=
  match e with
  | ChangeGuess value =>
      if guessing s then setGuess value s else s
  | KeyDownGuess key now =>
      if guessing s && String.eqb key "Enter" && JS.truthy (guess s)
      then checkGuess practiceCards now s else s
  | ClickCheck now =>
      if guessing s && negb (checkDisabled s)
      then checkGuess practiceCards now s else s
  | ClickReveal =>
      if guessing s then onClickReveal s else s
  | WindowKeyDown key =>
      match currentCoworker practiceCards s with
      | Some _ =>
          if isSessionComplete practiceCards s then s
          else handleKeyDown practiceCards key s
      | None => s
      end
  | ChangeCorrection value =>
      if correcting s then handleCorrectionChange practiceCards value s else s
  | KeyDownCorrection key =>
      if correcting s && String.eqb key "Enter" && correctionComplete s
      then nextCard practiceCards s else s
  | ClickSkip =>
      if correcting s then nextCard practiceCards s else s
  | ClickNextCard =>
      if answering s && negb (nextDisabled s) then nextCard practiceCards s else s
  | ClickShuffle random =>
      if Screen_eqb (screen s) ActivePractice
      then shuffleCards practiceCards random s else s
  | SelectGameMode newMode random =>
      if Screen_eqb (screen s) ActivePractice
      then handleGameModeChange practiceCards random newMode s else s
  | ChangeDifficulty d =>
      if Screen_eqb (screen s) ActivePractice then setDifficulty d s else s
  | ClickTryAgain random =>
      if Screen_eqb (screen s) SessionComplete
      then restartPractice practiceCards random s else s
  | Timeout k =>
      match timers s !! k with
      | Some t => fire practiceCards t (setTimers (delete k (timers s)) s)
      | None => s
      end
  | Interval now =>
      match startTime s with
      | Some t =>
          if GameMode_eqb (gameMode s) Timed && negb (unset (startTime s))
             && negb (isSessionComplete practiceCards s)
          then setElapsedTime (now - t)%Z s else s
      | None => s
      end
  | AnimationFrame _ => s
  end.

(** The props [PracticeView] passes to [<RocketGame>]. *)
Definition canvasProps (s : Session) : RocketGame.Props :=
  {| RocketGame.rocketHeight := rocketHeight s;
     RocketGame.boosting := rocketBoosting s;
     RocketGame.crashed := rocketCrashed s;
     RocketGame.gravityActive := gravityActive practiceCards s |}.

(** [<RocketGame>] is rendered by the active screen in rocket mode. *)
Definition canvasMounted (s : Session) : bool :=
  Screen_eqb (screen s) ActivePractice && GameMode_eqb (gameMode s) Rocket.

(** The canvas after a render that took the session from [before] to
    [after]: unmounted, mounted afresh, or kept, with the effect on
    [[rocketHeight]] run when that prop changed. *)
Definition reconcile (before after : Session) (c : option RocketGame.Refs)
    : option RocketGame.Refs :=
  if canvasMounted after then
    match c with
    | None =>
        Some (RocketGame.resetOnRestart (canvasProps after)
                (RocketGame.mount (canvasProps after)))
    | Some r =>
        if Qeq_bool (rocketHeight before) (rocketHeight after) then Some r
        else Some (RocketGame.resetOnRestart (canvasProps after) r)
    end
  else None.

(** The [onCrash] prop is [handleRocketCrash]. *)
Definition notify (s : Session) (e : RocketGame.Effect) : Session :=
  match e with
  | RocketGame.OnCrash => handleRocketCrash s
  | RocketGame.Boost _ => s
  end.

(** One event; the effects are those of the frame, if it was one. *)
Definition step (e : Event) (v : View) : View * list RocketGame.Effect :=
  match e with
  | AnimationFrame elapsed =>
      match canvas v with
      | None => (v, [])
      | Some r =>
          let '(r', effects) :=
            RocketGame.render (canvasProps (session v)) elapsed r in
          let s' := fold_left notify effects (session v) in
          ({| session := s'; canvas := reconcile (session v) s' (Some r') |},
           effects)
      end
  | _ =>
      let s' := handle e (session v) in
      ({| session := s'; canvas := reconcile (session v) s' (canvas v) |}, [])
  end.

Fixpoint run (es : list Event) (v : View) : View * list RocketGame.Effect :=
  match es with
  | [] => (v, [])
  | e :: es' =>
      let '(v1, f1) := step e v in
      let '(v2, f2) := run es' v1 in
      (v2, f1 ++ f2)
  end.

End Machine.

(** The cells as [useState] initialises them; nothing is mounted yet in
    classic mode. *)
Definition initialSession : Session :=
  {| currentIndex := 0; guess := ""; feedback := None; showAnswer := false;
     stats := {| correct := 0; total := 0 |}; shuffledIndices := [];
     difficulty := First; lastGuess := ""; correctionInput := "";
     correctionComplete := false; editingMnemonic := false;
     mnemonicText := ""; gameMode := Classic; startTime := None;
     elapsedTime := 0%Z; rocketHeight := 50; rocketCrashed := false;
     rocketBoosting := false; timers := [] |}.

Definition initial : View := {| session := initialSession; canvas := None |}.

(** The views a session can be in. *)
Inductive reachable (practiceCards : list Card) : View -> Prop :=
| reachable_initial : reachable practiceCards initial
| reachable_step e v :
    reachable practiceCards v ->
    reachable practiceCards (fst (step practiceCards e v)).

End Practice.

(** ** The single-page view: its own guess check *)

Module App.

Section Handlers.

Variable practiceCards : list Card.

Definition currentCoworker (s : Session) : option Card :=
  match (if 0 <? length (shuffledIndices s)
         then shuffledIndices s !! currentIndex s
         else Some (currentIndex s)) with
  | Some actualCardIndex => practiceCards !! actualCardIndex
  | None => None
  end.

(** The test of [checkGuess]: no nicknames here. *)
Definition isCorrect (c : Card) (d : Difficulty) (guess : string) : bool :=
  let guessLower := JS.trim (JS.toLowerCase guess) in
  let fullName := JS.trim (JS.toLowerCase (name c)) in
  let firstName := JS.splitSpaceHead fullName in
  let target := if Difficulty_eqb d First then firstName else fullName in
  String.eqb guessLower target.

Definition checkGuess (s : Session) : Session :=
  match currentCoworker s with
  | None => s
  | Some c =>
      let isCorrect := isCorrect c (difficulty s) (guess s) in
      s |> setFeedback (Some (if isCorrect then Correct else Incorrect))
        |> setShowAnswer true
        |> updStats (fun prev =>
             {| correct := correct prev + (if isCorrect then 1 else 0);
                total := total prev + 1 |})
  end.

(** [nextCard] reads [currentIndex] of the render it was created in. *)
Definition nextCard (s : Session) : Session :=
  s |> setGuess ""
    |> setFeedback None
    |> setShowAnswer false
    |> setCurrentIndex ((currentIndex s + 1) mod length practiceCards).

End Handlers.

End App.

(** ** Parsing a pasted list of names *)

Module ParseNames.

(** A value [JSON.parse] returns.  The fields of an object are listed in
    the order of [Object.values]; their keys are distinct. *)
Local Unset Elimination Schemes.

Inductive JSON :=
| JNull
| JBool (b : bool)
| JNumber (n : Q)
| JString (s : string)
| JArray (items : list JSON)
| JObject (fields : list (string * JSON)).

Local Set Elimination Schemes.

Definition NAME_FIELDS : list string :=
  ["name"; "full_name"; "fullName"; "display_name"; "displayName";
   "real_name"; "realName"].

Definition PHOTO_FIELDS : list string :=
  ["image_url"; "imageUrl"; "photo_url"; "photoUrl"; "photo"; "image";
   "avatar"; "picture"; "profile_image"; "profileImage"; "smallPhoto";
   "small_photo"; "thumbnail"; "headshot"; "profile_photo"; "profilePhoto"].

Fixpoint assoc (field : string) (fields : list (string * JSON)) : option JSON :=
  match fields with
  | [] => None
  | (k, v) :: rest => if String.eqb k field then Some v else assoc field rest
  end.

(** [obj[field]]; [None] is [undefined], which is all an array or a
    primitive has under these field names. *)
Definition get (obj : JSON) (field : string) : option JSON :=
  match obj with
  | JObject fields => assoc field fields
  | _ => None
  end.

(** [Object.values(obj)] of an object or an array. *)
Definition values (obj : JSON) : list JSON :=
  match obj with
  | JObject fields => map snd fields
  | JArray items => items
  | _ => []
  end.

(** [typeof obj === 'object'] and [obj] is not [null]. *)
Definition isObjectLike (obj : JSON) : bool :=
  match obj with JObject _ | JArray _ => true | _ => false end.

(** [s.startsWith('http')] *)
Definition startsWithHttp (s : string) : bool := String.prefix "http" s.

Fixpoint extractNameFrom (fields : list string) (obj : JSON) : option string :=
  match fields with
  | [] => None
  | field :: rest =>
      match get obj field with
      | Some (JString s) =>
          if JS.truthy s then Some (JS.trim s) else extractNameFrom rest obj
      | _ => extractNameFrom rest obj
      end
  end.

Definition extractName (obj : JSON) : option string :=
  extractNameFrom NAME_FIELDS obj.

Fixpoint extractPhotoUrlFrom (fields : list string) (obj : JSON) : option string :=
  match fields with
  | [] => None
  | field :: rest =>
      match get obj field with
      | Some (JString s) =>
          if JS.truthy s && startsWithHttp s then Some s
          else extractPhotoUrlFrom rest obj
      | _ => extractPhotoUrlFrom rest obj
      end
  end.

Definition extractPhotoUrl (obj : JSON) : option string :=
  extractPhotoUrlFrom PHOTO_FIELDS obj.

(** The loop [for (const value of Object.values(obj))] of both searches:
    the first result of [search] on a value that is an object and not an
    array. *)
Fixpoint firstNested {A} (search : JSON -> option A) (vs : list JSON) : option A :=
  match vs with
  | [] => None
  | JObject fields :: rest =>
      match search (JObject fields) with
      | Some result => Some result
      | None => firstNested search rest
      end
  | _ :: rest => firstNested search rest
  end.

(** [extractPhotoFromNested(obj, depth)] with [levels] levels left before
    [depth > 3] cuts the search: [levels] is [4 - depth]. *)
Fixpoint photoFromNested (levels : nat) (obj : JSON) : option string :=
  match levels with
  | O => None
  | S levels' =>
      if negb (isObjectLike obj) then None
      else
        match extractPhotoUrl obj with
        | Some photo => Some photo
        | None => firstNested (photoFromNested levels') (values obj)
        end
  end.

Definition extractPhotoFromNested (obj : JSON) (depth : nat) : option string :=
  photoFromNested (4 - depth) obj.

(** A non-empty string is truthy. *)
Definition truthyName (name : option string) : option string :=
  match name with
  | Some n => if JS.truthy n then Some n else None
  | None => None
  end.

(** [extractFromNested(obj, depth)] with [levels] levels left before
    [depth > 5] cuts the search: [levels] is [6 - depth].  The result is
    the name and the photo URL, [None] for [null]. *)
Fixpoint fromNested (levels : nat) (obj : JSON) : option (string * option string) :=
  match levels with
  | O => None
  | S levels' =>
      if negb (isObjectLike obj) then None
      else
        match truthyName (extractName obj) with
        | Some name =>
            let photoUrl :=
              match extractPhotoUrl obj with
              | Some photo => Some photo
              | None => extractPhotoFromNested obj 0
              end in
            Some (name, photoUrl)
        | None => firstNested (fromNested levels') (values obj)
        end
  end.

Definition extractFromNested (obj : JSON) (depth : nat)
    : option (string * option string) :=
  fromNested (6 - depth) obj.

(** What the parsers return: the names and the photo URL of some. *)
Record Names := {
  names : list string;
  imageUrls : gmap string string;
}.

(** [[...new Set(names)]]: the first occurrence of each name, in order. *)
Fixpoint uniqueFrom (seen : list string) (l : list string) : list string :=
  match l with
  | [] => []
  | x :: rest =>
      if JS.includes seen x then uniqueFrom seen rest
      else x :: uniqueFrom (x :: seen) rest
  end.

Definition unique (l : list string) : list string := uniqueFrom [] l.

(** [names.push(result.name)] and [imageUrls[result.name] = ...] for a
    result with a name. *)
Definition addResult (result : option (string * option string)) (acc : Names)
    : Names :=
  match result with
  | Some (name, photoUrl) =>
      {| names := names acc ++ [name];
         imageUrls := match photoUrl with
                      | Some url => if JS.truthy url
                                    then <[name := url]> (imageUrls acc)
                                    else imageUrls acc
                      | None => imageUrls acc
                      end |}
  | None => acc
  end.

(** The body of [for (const item of items)]. *)
Definition addItem (acc : Names) (item : JSON) : Names :=
  match item with
  | JString s =>
      let trimmed := JS.trim s in
      if JS.truthy trimmed
      then {| names := names acc ++ [trimmed]; imageUrls := imageUrls acc |}
      else acc
  | JObject _ | JArray _ => addResult (extractFromNested item 0) acc
  | _ => acc
  end.

Definition noNames : Names := {| names := []; imageUrls := ∅ |}.

(** [parseWithCommonKeys(parsed)], for the array or object that the text
    of a JSON-looking input parses to. *)
Definition parseWithCommonKeys (parsed : JSON) : Names :=
  let items :=
    match parsed with
    | JArray _ => parsed
    | _ => match get parsed "data" with
           | Some (JArray data) => JArray data
           | _ => parsed
           end
    end in
  match items with
  | JArray items =>
      let acc := fold_left addItem items noNames in
      {| names := unique (names acc); imageUrls := imageUrls acc |}
  | _ => addResult (extractFromNested items 0) noNames
  end.

Definition isSeparator (c : ascii) : bool :=
  Ascii.eqb c "010"%char || Ascii.eqb c ","%char.

Definition startsWithSeparator (s : string) : bool :=
  match s with String c _ => isSeparator c | EmptyString => false end.

(** [text.split(/[\n,]+/)]: the pieces between the runs of newlines and
    commas; a run at either end leaves an empty piece there. *)
Fixpoint splitLines (text : string) : list string :=
  match text with
  | EmptyString => [EmptyString]
  | String c rest =>
      if isSeparator c then
        if startsWithSeparator rest then splitLines rest
        else EmptyString :: splitLines rest
      else
        match splitLines rest with
        | piece :: pieces => String c piece :: pieces
        | [] => [String c EmptyString]
        end
  end.

Definition keepLine (line : string) : bool :=
  (0 <? String.length line) && (String.length line <? 100).

Definition parsePlainText (text : string) : Names :=
  let lines := splitLines text in
  let names := List.filter keepLine (map JS.trim lines) in
  {| names := unique names; imageUrls := ∅ |}.

Definition looksLikeJson (text : string) : bool :=
  String.prefix "[" text || String.prefix "{" text.

Section Parsers.

(** [JSON.parse]: [None] when it throws. *)
Variable JSON_parse : string -> option JSON.

(** The outcome of the [extract-names] edge function: the [names] array of
    its answer as pairs of [name] and [photoUrl], [None] on an error. *)
Variable invokeExtractNames : string -> option (list (option string * option string)).

(** The body of the loop of [extractWithLLM]. *)
Definition addLLMItem (acc : Names) (item : option string * option string) : Names :=
  match truthyName (fst item) with
  | Some name => addResult (Some (name, snd item)) acc
  | None => acc
  end.

Definition extractWithLLM (text : string) : Names :=
  match invokeExtractNames text with
  | None => noNames
  | Some items =>
      let acc := fold_left addLLMItem items noNames in
      {| names := unique (names acc); imageUrls := imageUrls acc |}
  end.

(** [parseNamesSync(input)]: the names and whether the import will need the
    LLM.  For an empty input [imageUrls] is an empty array there, which
    holds no photo either. *)
Definition parseNamesSync (input : string) : Names * bool :=
  let text := JS.trim input in
  if negb (JS.truthy text) then (noNames, false)
  else if negb (looksLikeJson text) then (parsePlainText text, false)
  else
    match JSON_parse text with
    | None => (parsePlainText text, false)
    | Some parsed =>
        let result := parseWithCommonKeys parsed in
        let needsLLM := (length (names result) =? 0) in
        (result, needsLLM)
    end.

(** [parseNames(input)]: the names and [usedLLM]. *)
Definition parseNames (input : string) : Names * bool :=
  let text := JS.trim input in
  if negb (JS.truthy text) then (noNames, false)
  else if negb (looksLikeJson text) then (parsePlainText text, false)
  else
    match JSON_parse text with
    | None => (parsePlainText text, false)
    | Some parsed =>
        let commonResult := parseWithCommonKeys parsed in
        if 0 <? length (names commonResult) then (commonResult, false)
        else (extractWithLLM text, true)
    end.

End Parsers.

End ParseNames.

(** * Vocabulary of the statements *)

(** The target of a card: the first word of the normalised name, or all of
    it. *)
Definition targetOf (c : Card) (d : Difficulty) : string :=
  let fullName := JS.trim (JS.toLowerCase (name c)) in
  match d with First => JS.splitSpaceHead fullName | Full => fullName end.

Definition nicknameOf (c : Card) (input : string) : Prop :=
  exists n, In n (default [] (nicknames c)) /\ JS.toLowerCase n = input.

(** Every iteration reads and writes inside the array. *)
Fixpoint inRange (random : nat -> Q) (k i : nat) (indices : list nat) : Prop :=
  match i with
  | O => True
  | S i' =>
      let j := pick (random k) i in
      (i < length indices /\ j <= i)
      /\ inRange random (S k) i' (swap indices i j)
  end.

(** The altitude a frame has after its gravity step, before any boost. *)
Definition afterGravity (p : RocketGame.Props) (elapsed : Q)
    (r : RocketGame.Refs) : Q :=
  fst (RocketGame.applyGravity p (RocketGame.clampDelta elapsed)
         (RocketGame.currentHeight r)).

(** Consecutive animation frames of the view. *)
Definition ticks (elapsed : list Q) : list Practice.Event :=
  map Practice.AnimationFrame elapsed.

(** The canvas is mounted exactly when the view renders it. *)
Definition consistent (practiceCards : list Card) (v : Practice.View) : Prop :=
  match Practice.canvas v with
  | Some _ => Practice.canvasMounted practiceCards (Practice.session v) = true
  | None => Practice.canvasMounted practiceCards (Practice.session v) = false
  end.

(** The counters of a session: hits within attempts within the number of
    cards, and a crash only in rocket mode. *)
Definition tally (practiceCards : list Card) (s : Session) : Prop :=
  (correct (stats s) <= total (stats s) <= length practiceCards)
  /\ (rocketCrashed s = true -> gameMode s = Rocket).

(** The order in which the cards come up: the shuffled indices, or the
    cards as they are while nothing has been shuffled (the reading of
    [currentCoworker]). *)
Definition order (practiceCards : list Card) (s : Session) : list nat :=
  if 0 <? length (shuffledIndices s) then shuffledIndices s
  else seq 0 (length practiceCards).

(** The seconds field of the clock. *)
Definition twoDigits (n : nat) : string :=
  PracticeView.padStart2 (pretty (Z.of_nat n)).

(** The altitude the session keeps: within 0 and 100, and 0 exactly when
    the rocket has crashed. *)
Definition altitudeOk (s : Session) : Prop :=
  (0 <= rocketHeight s)%Q /\ (rocketHeight s <= 100)%Q
  /\ (rocketCrashed s = true <-> (rocketHeight s == 0)%Q).

(** Outside timed mode the clock has not started and reads 0. *)
Definition clockIdle (s : Session) : Prop :=
  gameMode s <> Timed -> startTime s = None /\ elapsedTime s = 0%Z.

(** A leaderboard row beats another one: it is more accurate, or as
    accurate and faster, both times being known and not 0. *)
Definition beats (e c : Leaderboard.Entry) : Prop :=
  (Leaderboard.accuracy c < Leaderboard.accuracy e)%Q \/
  ((Leaderboard.accuracy e == Leaderboard.accuracy c)%Q /\
   Leaderboard.fasterThan (Leaderboard.time_ms e) (Leaderboard.time_ms c) = true).

(** What a table of personal bests holds for the rows [l] it was built
    from: nothing for a mode without rows, and else a row of the mode that
    no row of the mode beats. *)
Definition bestOf (l : list Leaderboard.Entry) (best : Leaderboard.Best) : Prop :=
  forall m,
    match best m with
    | None => Forall (fun e => Leaderboard.game_mode e <> m) l
    | Some b =>
        In b l /\ Leaderboard.game_mode b = m /\
        Forall (fun e => Leaderboard.game_mode e = m -> ~ beats e b) l
    end.

(** Every character of a string passes a test. *)
Fixpoint allChars (p : ascii -> bool) (s : string) : bool :=
  match s with
  | EmptyString => true
  | String c r => p c && allChars p r
  end.

Definition noSeparator (s : string) : bool :=
  allChars (fun c => negb (ParseNames.isSeparator c)) s.

(** A name as the plain-text parser returns it: not empty, shorter than
    100 characters, trimmed, without a newline or a comma. *)
Definition cleanName (n : string) : Prop :=
  0 < String.length n < 100 /\ JS.trim n = n /\ noSeparator n = true.

(** [l.join(sep)] for a separator of one character. *)
Fixpoint joinWith (sep : ascii) (l : list string) : string :=
  match l with
  | [] => EmptyString
  | [x] => x
  | x :: rest => (x ++ String sep (joinWith sep rest))%string
  end.

(** What holds of the names and photos a parser returns: every name is
    not empty and trimmed, and a photo belongs to one of the names and is
    an [http] URL. *)
Definition wellFormed (r : ParseNames.Names) : Prop :=
  Forall (fun n => n <> EmptyString /\ JS.trim n = n) (ParseNames.names r) /\
  forall n url,
    ParseNames.imageUrls r !! n = Some url ->
    In n (ParseNames.names r) /\ ParseNames.startsWithHttp url = true.

(** A JSON value under [depth] objects that have the single field [key]. *)
Fixpoint nest (key : string) (depth : nat) (obj : ParseNames.JSON)
    : ParseNames.JSON :=
  match depth with
  | O => obj
  | S depth' => ParseNames.JObject [(key, nest key depth' obj)]
  end.

(** What an event does to the card on show: it stays, the view moves on
    to the next card, or the round starts again at the first card of the
    order. *)
Definition sameCard (s s' : Session) : Prop :=
  currentIndex s' = currentIndex s /\ feedback s' = feedback s /\
  showAnswer s' = showAnswer s.

Definition movedOn (n : nat) (s s' : Session) : Prop :=
  currentIndex s' = (currentIndex s + 1) mod n /\ feedback s' = None /\
  showAnswer s' = false.

Definition restarted (s' : Session) : Prop :=
  currentIndex s' = 0 /\ feedback s' = None /\ showAnswer s' = false.

(** * Properties *)

(** ** Strings *)

Section Strings.

Import JS.

Lemma isSpace_lowerChar c : isSpace (lowerChar c) = isSpace c.
Proof. destruct c as [[] [] [] [] [] [] [] []]; reflexivity. Qed.

Lemma eqb_space_lowerChar c :
  Ascii.eqb (lowerChar c) " "%char = Ascii.eqb c " "%char.
Proof. destruct c as [[] [] [] [] [] [] [] []]; reflexivity. Qed.

Lemma toLowerCase_trimStart s :
  toLowerCase (trimStart s) = trimStart (toLowerCase s).
Proof.
  induction s as [|c r IH]; simpl; [reflexivity|].
  rewrite isSpace_lowerChar. destruct (isSpace c); [exact IH|reflexivity].
Qed.

Lemma toLowerCase_trimEnd s :
  toLowerCase (trimEnd s) = trimEnd (toLowerCase s).
Proof.
  induction s as [|c r IH]; simpl; [reflexivity|].
  rewrite <- IH, isSpace_lowerChar.
  destruct (trimEnd r) as [|c' r']; simpl; [|reflexivity].
  destruct (isSpace c); reflexivity.
Qed.

Lemma toLowerCase_trim s : toLowerCase (trim s) = trim (toLowerCase s).
Proof.
  unfold trim. now rewrite toLowerCase_trimEnd, toLowerCase_trimStart.
Qed.

Lemma toLowerCase_splitSpaceHead s :
  toLowerCase (splitSpaceHead s) = splitSpaceHead (toLowerCase s).
Proof.
  induction s as [|c r IH]; simpl; [reflexivity|].
  rewrite eqb_space_lowerChar.
  destruct (Ascii.eqb c " "); simpl; [reflexivity|now rewrite IH].
Qed.

Lemma includes_iff xs x : includes xs x = true <-> In x xs.
Proof.
  unfold includes. rewrite existsb_exists. split.
  - intros (y & Hy & E). apply String.eqb_eq in E. now subst.
  - intros H. exists x. split; [exact H|apply String.eqb_refl].
Qed.

End Strings.

(** ** Classification of a guess *)

Section Classification.

Import PracticeView.

Lemma checkGuess_feedback practiceCards now s c :
  currentCoworker practiceCards s = Some c ->
  feedback (checkGuess practiceCards now s)
  = Some (classify c (difficulty s) (guess s)).
Proof.
  intros Hc. unfold checkGuess, classify. rewrite Hc.
  destruct (matchGuess c (difficulty s) (guess s)) as [isCorrect isNick].
  destruct isCorrect, isNick, (GameMode_eqb (gameMode s) Rocket);
    cbn [orb]; try (unfold penalise; destruct (Num.leb _ _)); reflexivity.
Qed.

Lemma matchGuess_spec c d g :
  let input := JS.trim (JS.toLowerCase g) in
  (fst (matchGuess c d g) = true <-> input = targetOf c d) /\
  (snd (matchGuess c d g) = true <->
     input <> targetOf c d /\ d = First /\ nicknameOf c input).
Proof.
  unfold matchGuess, targetOf, nicknameOf. cbn [fst snd].
  set (input := JS.trim (JS.toLowerCase g)).
  set (fullName := JS.trim (JS.toLowerCase (name c))).
  assert (Hn : JS.includes (map JS.toLowerCase (default [] (nicknames c))) input
               = true <->
               exists n, In n (default [] (nicknames c))
                         /\ JS.toLowerCase n = input).
  { rewrite includes_iff, in_map_iff. split; intros (n & A & B); exists n; tauto. }
  destruct d; cbn [Difficulty_eqb].
  - split; [apply String.eqb_eq|].
    rewrite !andb_true_iff, negb_true_iff, Hn.
    rewrite <- not_true_iff_false, String.eqb_eq. tauto.
  - split; [apply String.eqb_eq|].
    rewrite andb_false_r. cbn [andb]. split; [discriminate|].
    intros (_ & E & _). discriminate E.
Qed.

Lemma classify_spec c d g :
  let input := JS.trim (JS.toLowerCase g) in
  (classify c d g = Correct <-> input = targetOf c d) /\
  (classify c d g = Nickname <->
     input <> targetOf c d /\ d = First /\ nicknameOf c input) /\
  (classify c d g = Incorrect <->
     input <> targetOf c d /\ ~ (d = First /\ nicknameOf c input)).
Proof.
  intros input. destruct (matchGuess_spec c d g) as [Hc Hn].
  fold input in Hc, Hn. unfold classify.
  destruct (matchGuess c d g) as [isCorrect isNick]. cbn [fst snd] in Hc, Hn.
  destruct isCorrect, isNick; cbn [orb];
    repeat split; try discriminate; try tauto; intros;
    try (exfalso; intuition congruence); intuition congruence.
Qed.

End Classification.

(** C1.  Whenever a current card exists, the feedback [checkGuess] stores
    is decided by the trimmed, lowercased guess and the target alone.  The
    target is the first word of the trimmed, lowercased name at difficulty
    [First] (equally: the lowercased first word of the trimmed name) and
    the whole trimmed, lowercased name at [Full].  The feedback is
    [Correct] exactly when the input equals the target; otherwise
    [Nickname] exactly when the difficulty is [First] and the input equals
    the lowercase of some nickname; otherwise [Incorrect]; and never
    [Nickname] at [Full].  For "Jane Doe" with nickname "janie": at [First]
    "jane" is correct, "janie" a nickname match, "doe" incorrect; at [Full]
    "janie" is incorrect. *)
Theorem checkGuess_classification practiceCards now s c :
  PracticeView.currentCoworker practiceCards s = Some c ->
  let input := JS.trim (JS.toLowerCase (guess s)) in
  let fullName := JS.trim (JS.toLowerCase (name c)) in
  let target :=
    match difficulty s with
    | First => JS.splitSpaceHead fullName
    | Full => fullName
    end in
  let byNickname :=
    difficulty s = First /\
    exists n, In n (default [] (nicknames c)) /\ JS.toLowerCase n = input in
  let verdict := feedback (PracticeView.checkGuess practiceCards now s) in
  target = JS.toLowerCase
             (match difficulty s with
              | First => JS.splitSpaceHead (JS.trim (name c))
              | Full => JS.trim (name c)
              end) /\
  (verdict = Some Correct <-> input = target) /\
  (verdict = Some Nickname <-> input <> target /\ byNickname) /\
  (verdict = Some Incorrect <-> input <> target /\ ~ byNickname) /\
  (difficulty s = Full -> verdict <> Some Nickname) /\
  (forall photo,
     let jane := {| name := "Jane Doe"; nicknames := Some ["janie"];
                    photo_url := photo |} in
     PracticeView.classify jane First "jane" = Correct /\
     PracticeView.classify jane First "janie" = Nickname /\
     PracticeView.classify jane First "doe" = Incorrect /\
     PracticeView.classify jane Full "janie" = Incorrect).
Proof.
  intros Hc input fullName target byNickname verdict.
  assert (Hv : verdict = Some (PracticeView.classify c (difficulty s) (guess s)))
    by (apply checkGuess_feedback; exact Hc).
  clearbody verdict. subst verdict.
  destruct (classify_spec c (difficulty s) (guess s)) as (H1 & H2 & H3).
  change (targetOf c (difficulty s)) with target in H1, H2, H3.
  change (JS.trim (JS.toLowerCase (guess s))) with input in H1, H2, H3.
  unfold nicknameOf in H2, H3. fold byNickname in H2, H3.
  assert (inj : forall a b : Feedback, Some a = Some b <-> a = b)
    by (intros a b; split; congruence).
  rewrite !inj, H1, H2, H3.
  split; [|split; [|split; [|split; [|split]]]]; try tauto.
  - unfold target, fullName. destruct (difficulty s).
    + now rewrite toLowerCase_splitSpaceHead, toLowerCase_trim.
    + now rewrite toLowerCase_trim.
  - unfold byNickname. intros E (_ & (F & _)). congruence.
  - intros photo. cbv zeta. repeat split; reflexivity.
Qed.

(** "  JANE " against "Jane Doe" at first-name difficulty. *)
Lemma checkGuess_classification_witness :
  let jane := {| name := "Jane Doe"; nicknames := Some ["janie"];
                 photo_url := Some "jane.png" |} in
  let s := setGuess "  JANE " Practice.initialSession in
  PracticeView.currentCoworker [jane] s = Some jane /\
  feedback (PracticeView.checkGuess [jane] 0 s) = Some Correct.
Proof.
  intros jane s.
  assert (Hc : PracticeView.currentCoworker [jane] s = Some jane)
    by reflexivity.
  split; [exact Hc|].
  apply (proj1 (proj2 (checkGuess_classification [jane] 0%Z s jane Hc))).
  vm_compute. reflexivity.
Defined.

(** ** The shuffle *)

Section Shuffle.

Local Open Scope Q_scope.

Lemma pick_le r i : 0 <= r -> r < 1 -> (pick r i <= i)%nat.
Proof.
  intros H0 H1. unfold pick, Num.floor.
  set (m := Z.of_nat (i + 1)).
  assert (Hm : (0 < m)%Z) by (unfold m; lia).
  assert (Hq : 0 < inject_Z m) by (rewrite (Zlt_Qlt 0 m) in Hm; exact Hm).
  assert (Hlo : (0 <= Qfloor (r * inject_Z m))%Z).
  { change 0%Z with (Qfloor 0). apply Qfloor_resp_le.
    apply Qmult_le_0_compat; [exact H0|apply Qlt_le_weak, Hq]. }
  assert (Hhi : (Qfloor (r * inject_Z m) < m)%Z).
  { rewrite Zlt_Qlt. eapply Qle_lt_trans; [apply Qfloor_le|].
    rewrite <- (Qmult_1_l (inject_Z m)) at 2.
    apply Qmult_lt_compat_r; assumption. }
  assert (Em : m = Z.of_nat (i + 1)) by reflexivity.
  clearbody m. lia.
Qed.

End Shuffle.

Section ShufflePermutation.

Lemma swap_Permutation (l : list nat) i j : swap l i j ≡ₚ l.
Proof.
  unfold swap.
  destruct (l !! i) as [x|] eqn:Hi; [|done].
  destruct (l !! j) as [y|] eqn:Hj; [|done].
  apply Permutation_inj. split; [by rewrite !length_insert|].
  exists (fun k => if decide (k = j) then i else if decide (k = i) then j else k).
  split.
  - intros a b. repeat case_decide; lia.
  - intros k. rewrite !list_lookup_insert, length_insert.
    apply lookup_lt_Some in Hi as Hi'. apply lookup_lt_Some in Hj as Hj'.
    repeat case_decide; subst; try lia; congruence.
Qed.

Lemma length_swap (l : list nat) i j : length (swap l i j) = length l.
Proof. apply Permutation_length, swap_Permutation. Qed.

Lemma shuffleLoop_Permutation random i : forall k (l : list nat),
  shuffleLoop random k i l ≡ₚ l.
Proof.
  induction i as [|i IH]; intros k l; simpl; [done|].
  rewrite IH. apply swap_Permutation.
Qed.

Lemma shuffleLoop_in_range random :
  (forall k, (0 <= random k)%Q /\ (random k < 1)%Q) ->
  forall i k (l : list nat), i < length l -> inRange random k i l.
Proof.
  intros Hr. induction i as [|i IH]; intros k l Hl; simpl; [exact I|].
  destruct (Hr k) as [H0 H1]. repeat split.
  - exact Hl.
  - now apply pick_le.
  - apply IH. rewrite length_swap. lia.
Qed.

Lemma Sorted_seq a n : Sorted le (seq a n).
Proof.
  revert a. induction n as [|n IH]; intros a; simpl; constructor.
  - apply IH.
  - destruct n; simpl; constructor. lia.
Qed.

Lemma shuffled_Permutation random n : shuffled random n ≡ₚ seq 0 n.
Proof. unfold shuffled. apply shuffleLoop_Permutation. Qed.

Lemma shuffled_sorted random n : merge_sort le (shuffled random n) = seq 0 n.
Proof.
  apply (Sorted_unique le).
  - apply Sorted_merge_sort. apply _.
  - apply Sorted_seq.
  - rewrite merge_sort_Permutation. apply shuffled_Permutation.
Qed.

End ShufflePermutation.

(** C8.  For every number of eligible cards and every sequence of draws of
    [Math.random()] in [0, 1): the order [shuffleCards] stores is a
    permutation of [0, n), so sorting it gives [0; ...; n-1]; the loop runs
    from the last index down and every index it picks for position [i]
    lies in [0, i], inside the array; and the cursor is back at 0 with the
    feedback and the guess cleared. *)
Theorem shuffleCards_permutation practiceCards random s :
  (forall k, (0 <= random k)%Q /\ (random k < 1)%Q) ->
  let n := length practiceCards in
  let s' := PracticeView.shuffleCards practiceCards random s in
  shuffledIndices s' ≡ₚ seq 0 n /\
  merge_sort le (shuffledIndices s') = seq 0 n /\
  shuffledIndices s' = shuffleLoop random 0 (n - 1) (seq 0 n) /\
  inRange random 0 (n - 1) (seq 0 n) /\
  (forall k i, pick (random k) i <= i) /\
  currentIndex s' = 0 /\ feedback s' = None /\ guess s' = "".
Proof.
  intros Hr n s'.
  assert (E : shuffledIndices s' = shuffled random n) by reflexivity.
  rewrite E. repeat split.
  - apply shuffled_Permutation.
  - apply shuffled_sorted.
  - unfold shuffled. now rewrite length_seq.
  - destruct n as [|m]; [exact I|].
    apply shuffleLoop_in_range; [exact Hr|]. rewrite length_seq. lia.
  - intros k i. destruct (Hr k). now apply pick_le.
Qed.

(** Five cards, every draw of [Math.random()] equal to 1/2. *)
Lemma shuffleCards_permutation_witness :
  let card := {| name := "Ada"; nicknames := None; photo_url := Some "a.png" |} in
  let s' := PracticeView.shuffleCards (replicate 5 card) (fun _ => 1 # 2)%Q
              Practice.initialSession in
  shuffledIndices s' = [0; 3; 1; 4; 2] /\
  merge_sort le (shuffledIndices s') = [0; 1; 2; 3; 4].
Proof.
  intros card s'. split; [vm_compute; reflexivity|].
  apply (shuffleCards_permutation (replicate 5 card) (fun _ => 1 # 2)%Q
           Practice.initialSession).
  intros k. split; [discriminate|reflexivity].
Defined.

(** ** The view and its canvas *)

Section Canvas.

Import Practice.

Variable practiceCards : list Card.

Lemma Qeq_bool_refl x : Qeq_bool x x = true.
Proof. apply Qeq_bool_iff. reflexivity. Qed.

Lemma reconcile_consistent before after c :
  consistent practiceCards
    {| session := after; canvas := reconcile practiceCards before after c |}.
Proof.
  unfold consistent, reconcile. cbn [canvas session].
  destruct (canvasMounted practiceCards after); [|reflexivity].
  destruct c as [r|]; [|reflexivity].
  destruct (Qeq_bool _ _); reflexivity.
Qed.

Lemma reconcile_same s c :
  consistent practiceCards {| session := s; canvas := c |} ->
  reconcile practiceCards s s c = c.
Proof.
  unfold consistent, reconcile. cbn [canvas session].
  destruct c as [r|]; intros M; rewrite M; [|reflexivity].
  now rewrite Qeq_bool_refl.
Qed.

Lemma step_consistent e v :
  consistent practiceCards v -> consistent practiceCards (fst (step practiceCards e v)).
Proof.
  intros C. destruct e; try apply reconcile_consistent.
  unfold step. destruct (canvas v) as [r|] eqn:E; [|exact C].
  destruct (RocketGame.render _ _ _) as [r' effects].
  apply reconcile_consistent.
Qed.

Lemma reachable_consistent v :
  reachable practiceCards v -> consistent practiceCards v.
Proof.
  induction 1 as [|e v _ IH]; [|now apply step_consistent].
  unfold consistent, canvasMounted. cbn [canvas initial]. apply andb_false_r.
Qed.

Lemma reachable_run es v :
  reachable practiceCards v -> reachable practiceCards (fst (run practiceCards es v)).
Proof.
  revert v. induction es as [|e es IH]; intros v R; simpl; [exact R|].
  destruct (step practiceCards e v) as [v1 f1] eqn:E1.
  specialize (IH v1).
  destruct (run practiceCards es v1) as [v2 f2]. apply IH.
  change v1 with (fst (v1, f1)). rewrite <- E1. now constructor.
Qed.

(** An event whose handler leaves the session alone leaves the view alone. *)
Lemma step_noop e v :
  (forall elapsed, e <> AnimationFrame elapsed) ->
  consistent practiceCards v ->
  handle practiceCards e (session v) = session v ->
  step practiceCards e v = (v, []).
Proof.
  intros N C H. destruct v as [s c]. cbn [session] in H.
  destruct e; try (exfalso; eapply N; reflexivity);
    unfold step; cbn [session canvas]; rewrite H, (reconcile_same _ _ C);
    reflexivity.
Qed.

End Canvas.

(** ** Submitting an empty guess *)

(** C9.  With an empty guess input neither the Check button (it is
    disabled) nor a key pressed in the input (Enter included) reaches
    [checkGuess]: the handler returns the session as it was, and in a
    session that can arise the whole view, canvas included, is unchanged
    and nothing is emitted. *)
Theorem empty_guess_is_rejected practiceCards v now key :
  guess (Practice.session v) = "" ->
  Practice.handle practiceCards (Practice.ClickCheck now) (Practice.session v)
  = Practice.session v /\
  Practice.handle practiceCards (Practice.KeyDownGuess key now) (Practice.session v)
  = Practice.session v /\
  (Practice.reachable practiceCards v ->
   Practice.step practiceCards (Practice.ClickCheck now) v = (v, []) /\
   Practice.step practiceCards (Practice.KeyDownGuess key now) v = (v, [])).
Proof.
  intros G.
  assert (H1 : Practice.handle practiceCards (Practice.ClickCheck now)
                 (Practice.session v) = Practice.session v).
  { unfold Practice.handle, Practice.checkDisabled. rewrite G. cbn [JS.truthy negb].
    now rewrite andb_false_r. }
  assert (H2 : Practice.handle practiceCards (Practice.KeyDownGuess key now)
                 (Practice.session v) = Practice.session v).
  { unfold Practice.handle. rewrite G. cbn [JS.truthy].
    now rewrite andb_false_r. }
  repeat split; try assumption.
  - apply step_noop; [discriminate|now apply reachable_consistent|exact H1].
  - apply step_noop; [discriminate|now apply reachable_consistent|exact H2].
Qed.

(** A session over two cards as first rendered: the guessing screen is
    shown, the guess is empty and the Check button is disabled; a click on
    it and Enter in the input leave the view as it is. *)
Lemma empty_guess_is_rejected_witness :
  let jane := {| name := "Jane Doe"; nicknames := Some ["janie"];
                 photo_url := Some "jane.png" |} in
  let omar := {| name := "Omar Sy"; nicknames := None;
                 photo_url := Some "omar.png" |} in
  Practice.guessing [jane; omar] (Practice.session Practice.initial) = true /\
  Practice.checkDisabled (Practice.session Practice.initial) = true /\
  Practice.step [jane; omar] (Practice.ClickCheck 0) Practice.initial
  = (Practice.initial, []) /\
  Practice.step [jane; omar] (Practice.KeyDownGuess "Enter" 0) Practice.initial
  = (Practice.initial, []).
Proof.
  intros jane omar.
  split; [reflexivity|]. split; [reflexivity|].
  apply (empty_guess_is_rejected [jane; omar] Practice.initial 0 "Enter" eq_refl).
  constructor.
Defined.

(** ** The correction gate *)

Section Gate.

Import Practice PracticeView.

Variable practiceCards : list Card.

Lemma feedbackIs_iff f s : feedbackIs f s = true <-> feedback s = Some f.
Proof.
  unfold feedbackIs. destruct (feedback s) as [g|]; [|split; discriminate].
  destruct g, f; split; (reflexivity || discriminate).
Qed.

Lemma GameMode_eqb_iff a b : GameMode_eqb a b = true <-> a = b.
Proof. destruct a, b; split; (reflexivity || discriminate). Qed.

Lemma Screen_eqb_iff a b : Screen_eqb a b = true <-> a = b.
Proof. destruct a, b; split; (reflexivity || discriminate). Qed.

Lemma correcting_iff s :
  correcting practiceCards s = true <->
  screen practiceCards s = ActivePractice /\ showAnswer s = true
  /\ feedback s = Some Incorrect /\ gameMode s = Classic.
Proof.
  unfold correcting, answering.
  rewrite !andb_true_iff, Screen_eqb_iff, feedbackIs_iff, GameMode_eqb_iff.
  tauto.
Qed.

Lemma active_not_complete s :
  screen practiceCards s = ActivePractice ->
  isSessionComplete practiceCards s = false /\ 0 < length practiceCards.
Proof.
  unfold screen. destruct (length practiceCards) as [|n]; cbn [Nat.eqb].
  - discriminate.
  - destruct (isSessionComplete practiceCards s); [discriminate|].
    split; [reflexivity|lia].
Qed.

Lemma checkCorrection_iff s input :
  checkCorrection practiceCards s input = true <->
  JS.trim (JS.toLowerCase input) = JS.toLowerCase (getTargetName practiceCards s).
Proof. unfold checkCorrection. apply String.eqb_eq. Qed.

End Gate.

(** C7.  On the active screen in classic mode with [Incorrect] feedback
    shown: each keystroke in the correction box stores the text and
    recomputes the gate, which is true exactly when the text, lowercased
    and trimmed, equals the lowercased target name; while the gate is false
    the Next Card button is disabled and neither it nor Enter (in the box
    or on the window) advances; once it is true Next Card and Enter
    advance; "skip" advances whatever the gate says; advancing clears the
    feedback, the guess and the gate and moves the cursor on by one modulo
    the number of cards.  With [Correct] or [Nickname] feedback Next Card
    is never disabled.  For the target "Jane": "jan" fails the gate, "Jane"
    and "jane " pass it.  While the gate is false, of all the events of the
    view only these take the card off the screen: "skip", a shuffle and a
    change of game mode, which start the round again, and the auto-advance
    timer of an earlier rocket answer, which no restart cancels: when it
    fires it moves on to the next card, gate or no gate.  Every other event
    leaves the card, its feedback and its answer where they are. *)
Theorem correction_gate practiceCards s key :
  Practice.correcting practiceCards s = true ->
  let next := PracticeView.nextCard practiceCards s in
  (forall value,
     let s' := Practice.handle practiceCards (Practice.ChangeCorrection value) s in
     correctionInput s' = value /\
     correctionComplete s' = PracticeView.checkCorrection practiceCards s value /\
     (correctionComplete s' = true <->
      JS.trim (JS.toLowerCase value)
      = JS.toLowerCase (PracticeView.getTargetName practiceCards s))) /\
  (correctionComplete s = false ->
     Practice.nextDisabled s = true /\
     Practice.handle practiceCards Practice.ClickNextCard s = s /\
     Practice.handle practiceCards (Practice.KeyDownCorrection key) s = s /\
     Practice.handle practiceCards (Practice.WindowKeyDown "Enter") s = s) /\
  (correctionComplete s = true ->
     Practice.nextDisabled s = false /\
     Practice.handle practiceCards Practice.ClickNextCard s = next /\
     Practice.handle practiceCards (Practice.KeyDownCorrection "Enter") s = next) /\
  Practice.handle practiceCards Practice.ClickSkip s = next /\
  (feedback next = None /\ guess next = "" /\ showAnswer next = false /\
   correctionInput next = "" /\ correctionComplete next = false /\
   currentIndex next = (currentIndex s + 1) mod length practiceCards) /\
  (forall t,
     Practice.answering practiceCards t = true ->
     feedback t = Some Correct \/ feedback t = Some Nickname ->
     Practice.nextDisabled t = false /\
     Practice.handle practiceCards Practice.ClickNextCard t
     = PracticeView.nextCard practiceCards t) /\
  (forall c rest,
     name c = "Jane Doe" ->
     let t := setDifficulty First (setCurrentIndex 0 (setShuffledIndices [] s)) in
     PracticeView.getTargetName (c :: rest) t = "Jane" /\
     PracticeView.checkCorrection (c :: rest) t "jan" = false /\
     PracticeView.checkCorrection (c :: rest) t "Jane" = true /\
     PracticeView.checkCorrection (c :: rest) t "jane " = true) /\
  (correctionComplete s = false ->
   forall e,
     let s' := Practice.handle practiceCards e s in
     match e with
     | Practice.ClickSkip => s' = next
     | Practice.ClickShuffle _ => restarted s'
     | Practice.SelectGameMode newMode _ =>
         if GameMode_eqb newMode Classic then s' = s
         else restarted s' /\ gameMode s' = newMode
     | Practice.Timeout k =>
         match timers s !! k with
         | Some AutoAdvance => movedOn (length practiceCards) s s'
         | _ => sameCard s s'
         end
     | _ => sameCard s s'
     end).
Proof.
  intros C next.
  pose proof (proj1 (correcting_iff practiceCards s) C) as (A & B & F & M).
  assert (Ans : Practice.answering practiceCards s = true).
  { unfold Practice.answering. rewrite A, B. reflexivity. }
  assert (FI : PracticeView.feedbackIs Incorrect s = true)
    by now apply feedbackIs_iff.
  assert (FC : PracticeView.feedbackIs Correct s = false).
  { unfold PracticeView.feedbackIs. now rewrite F. }
  assert (FN : PracticeView.feedbackIs Nickname s = false).
  { unfold PracticeView.feedbackIs. now rewrite F. }
  destruct (active_not_complete practiceCards s A) as [NC _].
  split; [|split; [|split; [|split; [|split; [|split; [|split]]]]]].
  - intros value s'. unfold s', Practice.handle. rewrite C.
    split; [reflexivity|]. split; [reflexivity|].
    change (correctionComplete
              (PracticeView.handleCorrectionChange practiceCards value s))
      with (PracticeView.checkCorrection practiceCards s value).
    apply checkCorrection_iff.
  - intros G.
    assert (D : Practice.nextDisabled s = true).
    { unfold Practice.nextDisabled. rewrite FI, G, M. reflexivity. }
    unfold Practice.handle. rewrite D, G, C, Ans, NC.
    cbn [negb andb]. rewrite andb_false_r.
    repeat split; try reflexivity.
    destruct (PracticeView.currentCoworker practiceCards s); [|reflexivity].
    unfold PracticeView.handleKeyDown. rewrite B, FC, FN, G. reflexivity.
  - intros G.
    assert (D : Practice.nextDisabled s = false).
    { unfold Practice.nextDisabled. rewrite FI, G. reflexivity. }
    unfold Practice.handle. rewrite D, G, C, Ans. repeat split; reflexivity.
  - unfold Practice.handle. rewrite C. reflexivity.
  - repeat split; reflexivity.
  - intros t At Ft.
    assert (D : Practice.nextDisabled t = false).
    { unfold Practice.nextDisabled, PracticeView.feedbackIs.
      destruct Ft as [-> | ->]; reflexivity. }
    unfold Practice.handle. rewrite D, At. split; reflexivity.
  - intros c rest Hname t.
    assert (T : PracticeView.getTargetName (c :: rest) t = "Jane").
    { unfold PracticeView.getTargetName, PracticeView.currentCoworker, t.
      cbn. now rewrite Hname. }
    unfold PracticeView.checkCorrection. rewrite T. repeat split; reflexivity.
  - intros G e s'. unfold s'.
    assert (Gu : Practice.guessing practiceCards s = false).
    { unfold Practice.guessing. rewrite B. apply andb_false_r. }
    assert (D : Practice.nextDisabled s = true).
    { unfold Practice.nextDisabled. rewrite FI, G, M. reflexivity. }
    assert (S1 : Practice.Screen_eqb (Practice.screen practiceCards s)
                   Practice.ActivePractice = true) by (rewrite A; reflexivity).
    assert (S2 : Practice.Screen_eqb (Practice.screen practiceCards s)
                   Practice.SessionComplete = false) by (rewrite A; reflexivity).
    unfold sameCard, movedOn, restarted.
    destruct e; unfold Practice.handle.
    + rewrite Gu. repeat split; reflexivity.
    + rewrite Gu. repeat split; reflexivity.
    + rewrite Gu. repeat split; reflexivity.
    + rewrite Gu. repeat split; reflexivity.
    + destruct (PracticeView.currentCoworker practiceCards s);
        [|repeat split; reflexivity].
      rewrite NC. unfold PracticeView.handleKeyDown. rewrite B, FC, FN, G.
      cbn [orb].
      destruct (String.eqb _ "Enter"); repeat split;
        first [reflexivity | assumption].
    + rewrite C. repeat split; reflexivity.
    + rewrite C, G, andb_false_r. repeat split; reflexivity.
    + rewrite C. reflexivity.
    + rewrite Ans, D. repeat split; reflexivity.
    + rewrite S1. repeat split; reflexivity.
    + rewrite S1. unfold PracticeView.handleGameModeChange. rewrite M.
      destruct newMode; cbn [GameMode_eqb negb]; repeat split; reflexivity.
    + rewrite S1. repeat split; reflexivity.
    + rewrite S2. repeat split; reflexivity.
    + destruct (timers s !! k) as [[|]|]; repeat split; reflexivity.
    + destruct (startTime s); [rewrite M|]; repeat split; reflexivity.
    + repeat split; reflexivity.
Qed.

(** A hit on "Omar Sy" in rocket mode schedules the auto-advance; the
    user switches to classic mode, the flame goes off, and a miss on the
    first card of the new round waits at the gate: Next Card does
    nothing, "skip" moves on, and so does the timer left over from the
    rocket round. *)
Lemma correction_gate_witness :
  let jane := {| name := "Jane Doe"; nicknames := Some ["janie"];
                 photo_url := Some "jane.png" |} in
  let omar := {| name := "Omar Sy"; nicknames := None;
                 photo_url := Some "omar.png" |} in
  let s := Practice.session
             (fst (Practice.run [jane; omar]
                     [Practice.SelectGameMode Rocket (fun _ => 0%Q);
                      Practice.ChangeGuess "omar";
                      Practice.ClickCheck 0;
                      Practice.SelectGameMode Classic (fun _ => 0%Q);
                      Practice.Timeout 0;
                      Practice.ChangeGuess "john";
                      Practice.ClickCheck 600]
                     Practice.initial)) in
  Practice.correcting [jane; omar] s = true /\
  correctionComplete s = false /\
  Practice.handle [jane; omar] Practice.ClickNextCard s = s /\
  Practice.handle [jane; omar] Practice.ClickSkip s
  = PracticeView.nextCard [jane; omar] s /\
  timers s !! 0 = Some AutoAdvance /\
  movedOn 2 s (Practice.handle [jane; omar] (Practice.Timeout 0) s).
Proof.
  intros jane omar s.
  assert (C : Practice.correcting [jane; omar] s = true)
    by (vm_compute; reflexivity).
  assert (G : correctionComplete s = false) by (vm_compute; reflexivity).
  assert (T : timers s !! 0 = Some AutoAdvance) by (vm_compute; reflexivity).
  clearbody s.
  pose proof (correction_gate [jane; omar] s "Enter" C)
    as (_ & H & _ & K & _ & _ & _ & E).
  specialize (E G (Practice.Timeout 0)). cbv beta iota zeta in E. rewrite T in E.
  split; [exact C|]. split; [exact G|].
  split; [exact (proj1 (proj2 (H G)))|].
  split; [exact K|]. split; [exact T|exact E].
Defined.

(** ** Reveal *)

(** C5, as the code has it.  The Reveal button and the [r] / [R] shortcut
    do the same thing: they add one to [stats.total] and leave
    [stats.correct], set the feedback to [Incorrect], show the answer and
    clear the last guess and the correction box.  They touch nothing else:
    in every mode the altitude, the crashed flag, the boosting flag, the
    timers and the start time are as before.  A missed guess stores the
    same statistics, feedback and answer flag, and outside rocket mode the
    same altitude and crashed flag. *)
Theorem reveal_counts_a_miss practiceCards s key now c :
  showAnswer s = false ->
  key = "r" \/ key = "R" ->
  PracticeView.currentCoworker practiceCards s = Some c ->
  PracticeView.classify c (difficulty s) (guess s) = Incorrect ->
  let viaButton := PracticeView.onClickReveal s in
  let viaKey := PracticeView.handleKeyDown practiceCards key s in
  let missed := PracticeView.checkGuess practiceCards now s in
  viaKey = viaButton /\
  stats viaButton
  = {| correct := correct (stats s); total := total (stats s) + 1 |} /\
  feedback viaButton = Some Incorrect /\
  showAnswer viaButton = true /\
  lastGuess viaButton = "" /\
  correctionInput viaButton = "" /\
  correctionComplete viaButton = false /\
  rocketHeight viaButton = rocketHeight s /\
  rocketCrashed viaButton = rocketCrashed s /\
  rocketBoosting viaButton = rocketBoosting s /\
  timers viaButton = timers s /\
  startTime viaButton = startTime s /\
  gameMode viaButton = gameMode s /\
  currentIndex viaButton = currentIndex s /\
  stats missed = stats viaButton /\
  feedback missed = feedback viaButton /\
  showAnswer missed = showAnswer viaButton /\
  (gameMode s <> Rocket ->
   rocketHeight missed = rocketHeight viaButton /\
   rocketCrashed missed = rocketCrashed viaButton).
Proof.
  intros SA K Hc Cl viaButton viaKey missed.
  assert (E : viaKey = viaButton).
  { unfold viaKey, PracticeView.handleKeyDown. rewrite SA.
    destruct K as [-> | ->]; reflexivity. }
  assert (M : stats missed = stats viaButton /\
              feedback missed = feedback viaButton /\
              showAnswer missed = showAnswer viaButton /\
              (gameMode s <> Rocket ->
               rocketHeight missed = rocketHeight viaButton /\
               rocketCrashed missed = rocketCrashed viaButton)).
  { unfold missed, PracticeView.checkGuess. rewrite Hc.
    unfold PracticeView.classify in Cl.
    destruct (PracticeView.matchGuess c (difficulty s) (guess s))
      as [isCorrect isNick].
    destruct isCorrect, isNick; try discriminate Cl. cbn [orb].
    destruct (gameMode s) eqn:G; cbn [GameMode_eqb andb].
    - repeat split; reflexivity.
    - destruct (unset (startTime s)); repeat split; reflexivity.
    - unfold PracticeView.penalise. destruct (Num.leb _ _);
        repeat split; try reflexivity; congruence. }
  destruct M as (M1 & M2 & M3 & M4).
  repeat split; try assumption; try reflexivity; now apply M4.
Qed.

(** A rocket session on its first card, the guess "john" typed in. *)
Lemma reveal_counts_a_miss_witness :
  let jane := {| name := "Jane Doe"; nicknames := Some ["janie"];
                 photo_url := Some "jane.png" |} in
  let omar := {| name := "Omar Sy"; nicknames := None;
                 photo_url := Some "omar.png" |} in
  let s := Practice.session
             (fst (Practice.run [jane; omar]
                     [Practice.SelectGameMode Rocket (fun _ => 0%Q);
                      Practice.ChangeGuess "john"]
                     Practice.initial)) in
  PracticeView.handleKeyDown [jane; omar] "r" s = PracticeView.onClickReveal s /\
  rocketHeight (PracticeView.onClickReveal s) = rocketHeight s.
Proof.
  intros jane omar s.
  assert (SA : showAnswer s = false) by (vm_compute; reflexivity).
  assert (Hc : PracticeView.currentCoworker [jane; omar] s = Some omar)
    by (vm_compute; reflexivity).
  assert (Cl : PracticeView.classify omar (difficulty s) (guess s) = Incorrect)
    by (vm_compute; reflexivity).
  pose proof (reveal_counts_a_miss [jane; omar] s "r" 0%Z omar
                SA (or_introl eq_refl) Hc Cl) as (A & _ & _ & _ & _ & _ & _ & B & _).
  split; [exact A|exact B].
Defined.

(** C5 fails as stated: in rocket mode at altitude 50 a missed guess takes
    the altitude to 35, Reveal and [r] leave it at 50; at altitude 10 a
    missed guess takes it to 0 and crashes, Reveal and [r] neither lower it
    nor crash. *)
Lemma reveal_applies_no_penalty :
  let jane := {| name := "Jane Doe"; nicknames := Some ["janie"];
                 photo_url := Some "jane.png" |} in
  let omar := {| name := "Omar Sy"; nicknames := None;
                 photo_url := Some "omar.png" |} in
  let cards := [jane; omar] in
  let s := Practice.session
             (fst (Practice.run cards
                     [Practice.SelectGameMode Rocket (fun _ => 0%Q);
                      Practice.ChangeGuess "john"]
                     Practice.initial)) in
  let low := setRocketHeight 10 s in
  gameMode s = Rocket /\
  feedback (PracticeView.checkGuess cards 0 s) = Some Incorrect /\
  (rocketHeight (PracticeView.checkGuess cards 0 s) == 35)%Q /\
  ~ (rocketHeight (PracticeView.onClickReveal s)
     == Num.max 0 (rocketHeight s - 15))%Q /\
  ~ (rocketHeight (PracticeView.handleKeyDown cards "r" s)
     == Num.max 0 (rocketHeight s - 15))%Q /\
  (rocketHeight (PracticeView.checkGuess cards 0 low) == 0)%Q /\
  rocketCrashed (PracticeView.checkGuess cards 0 low) = true /\
  (rocketHeight (PracticeView.onClickReveal low) == 10)%Q /\
  rocketCrashed (PracticeView.onClickReveal low) = false /\
  rocketCrashed (PracticeView.handleKeyDown cards "r" low) = false /\
  PracticeView.isSessionComplete cards (PracticeView.checkGuess cards 0 low) = true /\
  PracticeView.isSessionComplete cards (PracticeView.onClickReveal low) = false.
Proof.
  cbv zeta.
  repeat split; try (vm_compute; reflexivity);
    intros H; vm_compute in H; discriminate H.
Qed.

(** ** The two copies of the guess check *)

Section Copies.

Lemma leb_iff x y : Num.leb x y = true <-> (x <= y)%Q.
Proof. apply Qle_bool_iff. Qed.

Lemma fire_same practiceCards t x :
  PracticeView.fire practiceCards t x = SharedDeckPage.fire practiceCards t x.
Proof. destruct t; reflexivity. Qed.

Lemma fire_mnemonic practiceCards t x :
  PracticeView.fire practiceCards t
    (setMnemonicText "" (setEditingMnemonic false x))
  = setMnemonicText ""
      (setEditingMnemonic false (SharedDeckPage.fire practiceCards t x)).
Proof. destruct x, t; reflexivity. Qed.

Lemma guest_fire_cells practiceCards (hit s : Session) :
  currentIndex hit = currentIndex s ->
  showAnswer hit = true ->
  (let flameOff := SharedDeckPage.fire practiceCards BoostingOff hit in
   rocketBoosting flameOff = false /\
   rocketHeight flameOff = rocketHeight hit /\
   currentIndex flameOff = currentIndex s /\
   feedback flameOff = feedback hit /\
   showAnswer flameOff = true) /\
  (let advanced := SharedDeckPage.fire practiceCards AutoAdvance hit in
   currentIndex advanced = (currentIndex s + 1) mod length practiceCards /\
   guess advanced = "" /\
   feedback advanced = None /\
   showAnswer advanced = false /\
   lastGuess advanced = "" /\
   correctionInput advanced = "" /\
   correctionComplete advanced = false /\
   stats advanced = stats hit /\
   rocketHeight advanced = rocketHeight hit).
Proof.
  intros I A. destruct hit. cbn in I, A. subst.
  split; cbv zeta; repeat split; reflexivity.
Qed.

Lemma max0_le0 x : (Num.max 0 x <= 0)%Q <-> (x <= 0)%Q.
Proof.
  unfold Num.max. destruct (Num.leb 0 x) eqn:E.
  - reflexivity.
  - split; intros _; [|apply Qle_refl].
    apply Qlt_le_weak, Qnot_le_lt. intros L.
    apply leb_iff in L. congruence.
Qed.

End Copies.

(** C10.  For every list of cards, session and instant, the guess check of
    the owner view and the one of the guest view run the same two tests and
    store the same feedback, statistics, altitude, crashed and boosting
    flags, timers, answer flag and every other cell but the two of the
    mnemonic editor, which only the owner view resets.  In rocket mode a
    hit adds 20 to the altitude, capped at 100, raises the boosting flag
    and schedules the flame-off and the auto-advance timers; a miss takes
    15 off, floored at 0, and sets the crashed flag when that reaches 0.
    The callbacks of the two timers are the same in both views: after a
    rocket hit the first one lowers the boosting flag and leaves the card,
    the altitude and the feedback alone, and the second one clears the
    guess, the feedback, the answer flag and the correction box and moves
    the cursor on by one modulo the number of cards, the statistics and
    the altitude being kept. *)
Theorem checkGuess_copies_agree practiceCards now s :
  let owner := PracticeView.checkGuess practiceCards now s in
  let guest := SharedDeckPage.checkGuess practiceCards now s in
  (forall c d g,
     PracticeView.matchGuess c d g = SharedDeckPage.matchGuess c d g) /\
  (feedback owner = feedback guest /\
   stats owner = stats guest /\
   rocketHeight owner = rocketHeight guest /\
   rocketCrashed owner = rocketCrashed guest /\
   rocketBoosting owner = rocketBoosting guest /\
   timers owner = timers guest /\
   showAnswer owner = showAnswer guest /\
   startTime owner = startTime guest) /\
  owner = match PracticeView.currentCoworker practiceCards s with
          | Some _ => setMnemonicText "" (setEditingMnemonic false guest)
          | None => guest
          end /\
  (forall c,
     gameMode s = Rocket ->
     PracticeView.currentCoworker practiceCards s = Some c ->
     (PracticeView.classify c (difficulty s) (guess s) <> Incorrect ->
      stats guest = {| correct := correct (stats s) + 1;
                       total := total (stats s) + 1 |} /\
      rocketHeight guest = Num.min 100 (rocketHeight s + 20)%Q /\
      rocketCrashed guest = rocketCrashed s /\
      rocketBoosting guest = true /\
      timers guest = timers s ++ [BoostingOff; AutoAdvance] /\
      (let flameOff := SharedDeckPage.fire practiceCards BoostingOff guest in
       rocketBoosting flameOff = false /\
       rocketHeight flameOff = rocketHeight guest /\
       currentIndex flameOff = currentIndex s /\
       feedback flameOff = feedback guest /\
       showAnswer flameOff = true) /\
      (let advanced := SharedDeckPage.fire practiceCards AutoAdvance guest in
       currentIndex advanced = (currentIndex s + 1) mod length practiceCards /\
       guess advanced = "" /\
       feedback advanced = None /\
       showAnswer advanced = false /\
       lastGuess advanced = "" /\
       correctionInput advanced = "" /\
       correctionComplete advanced = false /\
       stats advanced = stats guest /\
       rocketHeight advanced = rocketHeight guest)) /\
     (PracticeView.classify c (difficulty s) (guess s) = Incorrect ->
      stats guest = {| correct := correct (stats s);
                       total := total (stats s) + 1 |} /\
      rocketHeight guest = Num.max 0 (rocketHeight s - 15)%Q /\
      (rocketCrashed guest = true <->
       rocketCrashed s = true \/ (rocketHeight s - 15 <= 0)%Q) /\
      timers guest = timers s)) /\
  (forall t x,
     PracticeView.fire practiceCards t x = SharedDeckPage.fire practiceCards t x) /\
  (forall t,
     PracticeView.fire practiceCards t owner
     = match PracticeView.currentCoworker practiceCards s with
       | Some _ =>
           setMnemonicText ""
             (setEditingMnemonic false (SharedDeckPage.fire practiceCards t guest))
       | None => SharedDeckPage.fire practiceCards t guest
       end).
Proof.
  intros owner guest.
  assert (E : owner = match PracticeView.currentCoworker practiceCards s with
                      | Some _ => setMnemonicText "" (setEditingMnemonic false guest)
                      | None => guest
                      end).
  { unfold owner, guest, PracticeView.checkGuess, SharedDeckPage.checkGuess.
    change (SharedDeckPage.currentCoworker practiceCards s)
      with (PracticeView.currentCoworker practiceCards s).
    destruct (PracticeView.currentCoworker practiceCards s) as [c|];
      [|reflexivity].
    change (SharedDeckPage.matchGuess c (difficulty s) (guess s))
      with (PracticeView.matchGuess c (difficulty s) (guess s)).
    destruct (PracticeView.matchGuess c (difficulty s) (guess s))
      as [isCorrect isNick].
    destruct (isCorrect || isNick), (GameMode_eqb (gameMode s) Rocket),
      (GameMode_eqb (gameMode s) Timed && unset (startTime s));
      try reflexivity;
      unfold PracticeView.penalise, SharedDeckPage.penalise;
      destruct (Num.leb _ _); reflexivity. }
  split; [reflexivity|]. split; [|split; [exact E|split; [|split]]].
  - rewrite E. destruct (PracticeView.currentCoworker practiceCards s);
      repeat split; reflexivity.
  - intros c G Hc. unfold guest, SharedDeckPage.checkGuess.
    change (SharedDeckPage.currentCoworker practiceCards s)
      with (PracticeView.currentCoworker practiceCards s).
    rewrite Hc, G. unfold PracticeView.classify.
    change (SharedDeckPage.matchGuess c (difficulty s) (guess s))
      with (PracticeView.matchGuess c (difficulty s) (guess s)).
    destruct (PracticeView.matchGuess c (difficulty s) (guess s))
      as [isCorrect isNick].
    cbn [GameMode_eqb andb].
    destruct (isCorrect || isNick) eqn:Hit.
    + split; [|destruct isNick; intros; discriminate].
      intros _. change (timers s ++ [BoostingOff; AutoAdvance])
        with (timers s ++ [BoostingOff] ++ [AutoAdvance]).
      rewrite app_assoc.
      do 5 (split; [reflexivity|]).
      apply guest_fire_cells; reflexivity.
    + split; [intros N; now elim N|]. intros _.
      unfold SharedDeckPage.penalise.
      split; [destruct (Num.leb _ _); reflexivity|].
      split; [destruct (Num.leb _ _); reflexivity|].
      split; [|destruct (Num.leb _ _); reflexivity].
      rewrite <- max0_le0, <- leb_iff.
      change (rocketHeight _ - 15)%Q with (rocketHeight s - 15)%Q.
      destruct (Num.leb (Num.max 0 (rocketHeight s - 15)) 0) eqn:L.
      * cbn. tauto.
      * cbn. split; [tauto|]. intros [H|H]; [exact H|discriminate].
  - intros t x. apply fire_same.
  - intros t. rewrite E.
    destruct (PracticeView.currentCoworker practiceCards s);
      [apply fire_mnemonic|apply fire_same].
Qed.

(** A rocket session: a hit on "Omar Sy" at altitude 50. *)
Lemma checkGuess_copies_agree_witness :
  let jane := {| name := "Jane Doe"; nicknames := Some ["janie"];
                 photo_url := Some "jane.png" |} in
  let omar := {| name := "Omar Sy"; nicknames := None;
                 photo_url := Some "omar.png" |} in
  let s := Practice.session
             (fst (Practice.run [jane; omar]
                     [Practice.SelectGameMode Rocket (fun _ => 0%Q);
                      Practice.ChangeGuess "omar"]
                     Practice.initial)) in
  rocketHeight (SharedDeckPage.checkGuess [jane; omar] 0 s)
  = Num.min 100 (rocketHeight s + 20)%Q /\
  rocketHeight (PracticeView.checkGuess [jane; omar] 0 s)
  = rocketHeight (SharedDeckPage.checkGuess [jane; omar] 0 s) /\
  currentIndex
    (SharedDeckPage.fire [jane; omar] AutoAdvance
       (SharedDeckPage.checkGuess [jane; omar] 0 s))
  = (currentIndex s + 1) mod 2 /\
  PracticeView.fire [jane; omar] AutoAdvance
    (PracticeView.checkGuess [jane; omar] 0 s)
  = setMnemonicText ""
      (setEditingMnemonic false
         (SharedDeckPage.fire [jane; omar] AutoAdvance
            (SharedDeckPage.checkGuess [jane; omar] 0 s))).
Proof.
  intros jane omar s.
  assert (G : gameMode s = Rocket) by (vm_compute; reflexivity).
  assert (Hc : PracticeView.currentCoworker [jane; omar] s = Some omar)
    by (vm_compute; reflexivity).
  assert (Cl : PracticeView.classify omar (difficulty s) (guess s) <> Incorrect)
    by (vm_compute; discriminate).
  pose proof (checkGuess_copies_agree [jane; omar] 0%Z s)
    as (_ & (_ & _ & A & _) & _ & B & _ & F).
  pose proof (proj1 (B omar G Hc) Cl) as (_ & H & _ & _ & _ & _ & (I & _)).
  specialize (F AutoAdvance). rewrite Hc in F.
  split; [exact H|]. split; [exact A|]. split; [exact I|exact F].
Defined.

(** ** The animation frame *)

Section Frame.

Import RocketGame.

Local Open Scope Q_scope.

Lemma ltb_iff x y : Num.ltb x y = true <-> x < y.
Proof.
  unfold Num.ltb. rewrite negb_true_iff, <- not_true_iff_false, Qle_bool_iff.
  split; [apply Qnot_le_lt|apply Qlt_not_le].
Qed.

Lemma ltb_false_iff x y : Num.ltb x y = false <-> y <= x.
Proof.
  unfold Num.ltb. rewrite negb_false_iff. apply Qle_bool_iff.
Qed.

Lemma leb_false_iff x y : Num.leb x y = false <-> y < x.
Proof.
  unfold Num.leb. rewrite <- not_true_iff_false, Qle_bool_iff.
  split; [apply Qnot_le_lt|apply Qlt_not_le].
Qed.

Lemma min_le_l x y : Num.min x y <= x.
Proof.
  unfold Num.min. destruct (Num.leb x y) eqn:E; [apply Qle_refl|].
  apply leb_false_iff in E. now apply Qlt_le_weak.
Qed.

Lemma clampDelta_pos elapsed : 0 < elapsed -> 0 < clampDelta elapsed.
Proof.
  intros H. unfold clampDelta. destruct (Num.ltb 0.1 elapsed); [reflexivity|exact H].
Qed.

Lemma applyGravity_no_boost p dt h :
  List.filter isBoost (snd (applyGravity p dt h)) = [].
Proof.
  unfold applyGravity. destruct (gravityActive p && negb (crashed p)); [|reflexivity].
  destruct (Num.leb _ _); reflexivity.
Qed.

(** A frame that does not see a rising edge moves the altitude by gravity
    alone. *)
Lemma render_no_edge p elapsed r :
  boosting p && negb (lastBoosting r) = false ->
  currentHeight (fst (render p elapsed r)) = afterGravity p elapsed r /\
  snd (render p elapsed r)
  = snd (applyGravity p (clampDelta elapsed) (currentHeight r)) /\
  lastBoosting (fst (render p elapsed r)) = boosting p.
Proof.
  intros E. unfold render, afterGravity, applyBoost. rewrite E.
  destruct (applyGravity p (clampDelta elapsed) (currentHeight r)) as [h1 crash].
  cbn [fst snd currentHeight lastBoosting]. now rewrite app_nil_r.
Qed.

Lemma render_edge p elapsed r :
  boosting p = true -> lastBoosting r = false ->
  let h := afterGravity p elapsed r in
  let boostAmount := BASE_BOOST * boostMultiplier h in
  currentHeight (fst (render p elapsed r)) = Num.min 100 (h + boostAmount) /\
  List.filter isBoost (snd (render p elapsed r)) = [Boost boostAmount] /\
  lastBoosting (fst (render p elapsed r)) = true.
Proof.
  intros B L. unfold render, afterGravity, applyBoost. rewrite B, L.
  pose proof (applyGravity_no_boost p (clampDelta elapsed) (currentHeight r)) as G.
  destruct (applyGravity p (clampDelta elapsed) (currentHeight r)) as [h1 crash].
  cbn [fst snd currentHeight lastBoosting andb negb] in *.
  now rewrite List.filter_app, G.
Qed.

Lemma frames_held held : forall r,
  lastBoosting r = true ->
  Forall (fun f => boosting (fst f) = true) held ->
  List.filter isBoost (snd (frames held r)) = [] /\
  lastBoosting (fst (frames held r)) = true.
Proof.
  induction held as [|[p elapsed] held IH]; intros r L A; [now split|].
  apply Forall_cons_iff in A. destruct A as [B A]. cbn [fst] in B.
  assert (E : boosting p && negb (lastBoosting r) = false)
    by (rewrite L; apply andb_false_r).
  destruct (render_no_edge p elapsed r E) as (_ & E2 & E3).
  cbn [frames].
  destruct (render p elapsed r) as [r1 e1]. cbn [fst snd] in E2, E3.
  specialize (IH r1). rewrite E3 in IH. specialize (IH B A).
  destruct (frames held r1) as [r2 e2]. cbn [fst snd] in *.
  rewrite List.filter_app, E2, applyGravity_no_boost. exact IH.
Qed.

Lemma boostMultiplier_line x :
  boostMultiplier x
  == BOOST_MULTIPLIER_MAX
     + (x / 100) * (BOOST_MULTIPLIER_MIN - BOOST_MULTIPLIER_MAX).
Proof. unfold boostMultiplier. ring. Qed.

End Frame.

(** C3.  While [boosting] is held true over consecutive frames, starting
    from a frame before which it was false: the first frame, and only it,
    applies a boost.  The amount is [BASE_BOOST] times a multiplier that is
    [BOOST_MULTIPLIER_MAX] at altitude 0, [BOOST_MULTIPLIER_MIN] at 100 and
    on the line between them elsewhere, computed at the altitude the frame
    has after gravity; the new altitude is the sum capped at 100.  Every
    later frame, as every frame that follows one with [boosting] true,
    changes the altitude by gravity alone. *)
Theorem boost_applied_once_per_edge p elapsed r held :
  RocketGame.lastBoosting r = false ->
  RocketGame.boosting p = true ->
  Forall (fun f => RocketGame.boosting (fst f) = true) held ->
  let h := afterGravity p elapsed r in
  let boostAmount := (RocketGame.BASE_BOOST * RocketGame.boostMultiplier h)%Q in
  let edge := RocketGame.render p elapsed r in
  let rest := RocketGame.frames held (fst edge) in
  List.filter RocketGame.isBoost (snd edge) = [RocketGame.Boost boostAmount] /\
  RocketGame.currentHeight (fst edge) = Num.min 100 (h + boostAmount)%Q /\
  (RocketGame.currentHeight (fst edge) <= 100)%Q /\
  List.filter RocketGame.isBoost (snd rest) = [] /\
  List.filter RocketGame.isBoost
    (snd (RocketGame.frames ((p, elapsed) :: held) r))
  = [RocketGame.Boost boostAmount] /\
  (forall p' elapsed' r',
     RocketGame.lastBoosting r' = true ->
     RocketGame.currentHeight (fst (RocketGame.render p' elapsed' r'))
     = afterGravity p' elapsed' r' /\
     List.filter RocketGame.isBoost (snd (RocketGame.render p' elapsed' r')) = []) /\
  (RocketGame.boostMultiplier 0 == RocketGame.BOOST_MULTIPLIER_MAX)%Q /\
  (RocketGame.boostMultiplier 100 == RocketGame.BOOST_MULTIPLIER_MIN)%Q /\
  (forall x,
     RocketGame.boostMultiplier x
     == RocketGame.BOOST_MULTIPLIER_MAX
        + (x / 100) * (RocketGame.BOOST_MULTIPLIER_MIN
                       - RocketGame.BOOST_MULTIPLIER_MAX))%Q.
Proof.
  intros L B A h boostAmount edge rest.
  destruct (render_edge p elapsed r B L) as (E1 & E2 & E3).
  fold h boostAmount edge in E1, E2, E3.
  destruct (frames_held held (fst edge) E3 A) as (F1 & _). fold rest in F1.
  split; [exact E2|]. split; [exact E1|].
  split; [rewrite E1; apply min_le_l|]. split; [exact F1|].
  split.
  { cbn [RocketGame.frames]. fold edge.
    destruct edge as [r1 e1]. cbn [fst snd] in *. fold rest.
    destruct rest as [r2 e2]. cbn [fst snd] in *.
    now rewrite List.filter_app, E2, F1. }
  split.
  { intros p' elapsed' r' L'.
    assert (E : RocketGame.boosting p' && negb (RocketGame.lastBoosting r') = false)
      by (rewrite L'; apply andb_false_r).
    destruct (render_no_edge p' elapsed' r' E) as (G1 & G2 & _).
    split; [exact G1|]. rewrite G2. apply applyGravity_no_boost. }
  split; [reflexivity|]. split; [reflexivity|].
  apply boostMultiplier_line.
Qed.

(** Three frames with [boosting] held, from altitude 50 without gravity:
    one boost of 35, to altitude 85. *)
Lemma boost_applied_once_per_edge_witness :
  let p := {| RocketGame.rocketHeight := 70; RocketGame.boosting := true;
              RocketGame.crashed := false; RocketGame.gravityActive := false |} in
  let r := {| RocketGame.frameCount := 0; RocketGame.currentHeight := 50;
              RocketGame.visualHeight := 50; RocketGame.lastBoosting := false |} in
  List.filter RocketGame.isBoost
    (snd (RocketGame.frames [(p, 0.016); (p, 0.016); (p, 0.016)]%Q r))
  = [RocketGame.Boost
       (RocketGame.BASE_BOOST
        * RocketGame.boostMultiplier (afterGravity p 0.016 r))%Q].
Proof.
  intros p r.
  apply (boost_applied_once_per_edge p 0.016%Q r [(p, 0.016); (p, 0.016)]%Q
           eq_refl eq_refl).
  repeat constructor.
Defined.

(** ** Visual smoothing *)

Section Visual.

Import RocketGame.

Local Open Scope Q_scope.

(** The step of the visual altitude, and the snap within 0.1. *)
Lemma smoothVisual_step dt h v :
  (0.1 < Num.abs (h - v) ->
   smoothVisual dt h v = v + (h - v) * lerpSpeed (h - v) * dt) /\
  (Num.abs (h - v) <= 0.1 -> smoothVisual dt h v = h).
Proof.
  unfold smoothVisual. split; intros H.
  - apply ltb_iff in H. now rewrite H.
  - apply ltb_false_iff in H. now rewrite H.
Qed.

Lemma lerpSpeed_cases d :
  (0 < d -> lerpSpeed d = LERP_SPEED_UP) /\
  (d <= 0 -> lerpSpeed d = LERP_SPEED_DOWN).
Proof.
  unfold lerpSpeed. split; intros H.
  - apply ltb_iff in H. now rewrite H.
  - apply ltb_false_iff in H. now rewrite H.
Qed.

(** The visual altitude feeds nothing but itself: two frames that differ
    only in it agree on the altitude, the edge detector and the effects. *)
Lemma visual_is_presentation_only p elapsed r v :
  let r' := {| frameCount := frameCount r; currentHeight := currentHeight r;
               visualHeight := v; lastBoosting := lastBoosting r |} in
  currentHeight (fst (render p elapsed r')) = currentHeight (fst (render p elapsed r)) /\
  lastBoosting (fst (render p elapsed r')) = lastBoosting (fst (render p elapsed r)) /\
  snd (render p elapsed r') = snd (render p elapsed r).
Proof.
  intros r'. unfold render, r'. cbn [currentHeight lastBoosting visualHeight].
  destruct (applyGravity p (clampDelta elapsed) (currentHeight r)) as [h1 crash].
  destruct (applyBoost p (lastBoosting r) h1) as [h2 boost].
  repeat split; reflexivity.
Qed.

End Visual.

(** C6 fails on the code where it says that rising is the faster
    direction: the speed taken when the altitude is above the visual one is
    [LERP_SPEED_UP] = 8, the one taken when it is below is
    [LERP_SPEED_DOWN] = 12, so over the same gap of 10 and the same 16 ms
    the visual altitude rises by 1.28 and falls by 1.92. *)
Theorem rising_visual_is_slower :
  RocketGame.lerpSpeed (60 - 50) = RocketGame.LERP_SPEED_UP /\
  RocketGame.lerpSpeed (50 - 60) = RocketGame.LERP_SPEED_DOWN /\
  (RocketGame.LERP_SPEED_UP < RocketGame.LERP_SPEED_DOWN)%Q /\
  (RocketGame.smoothVisual 0.016 60 50 - 50 == 1.28)%Q /\
  (60 - RocketGame.smoothVisual 0.016 50 60 == 1.92)%Q /\
  (RocketGame.smoothVisual 0.016 60 50 - 50
   < 60 - RocketGame.smoothVisual 0.016 50 60)%Q.
Proof. repeat split; reflexivity. Qed.

(** ** Gravity and the crash *)

Section Crash.

Import Practice PracticeView.

Variable practiceCards : list Card.

Local Open Scope Q_scope.

Lemma gravityActive_iff s :
  gravityActive practiceCards s = true <->
  gameMode s = Rocket /\ showAnswer s = false /\ rocketCrashed s = false
  /\ isSessionComplete practiceCards s = false.
Proof.
  unfold gravityActive.
  rewrite !andb_true_iff, !negb_true_iff, GameMode_eqb_iff. tauto.
Qed.

Lemma crashed_complete s :
  rocketCrashed s = true -> isSessionComplete practiceCards s = true.
Proof. intros C. unfold isSessionComplete. rewrite C. apply orb_true_r. Qed.

Lemma complete_unmounted s :
  isSessionComplete practiceCards s = true -> canvasMounted practiceCards s = false.
Proof.
  intros C. unfold canvasMounted, screen. rewrite C.
  destruct (length practiceCards =? 0)%nat; reflexivity.
Qed.

Lemma ticks_unmounted es : forall v,
  canvas v = None -> run practiceCards (ticks es) v = (v, []).
Proof.
  induction es as [|e es IH]; intros v N; [reflexivity|].
  cbn [ticks map run step]. rewrite N.
  change (map AnimationFrame es) with (ticks es). now rewrite (IH v N).
Qed.

Lemma notify_keeps_crashed effects : forall s,
  rocketCrashed s = true -> rocketCrashed (fold_left notify effects s) = true.
Proof.
  induction effects as [|e effects IH]; intros s C; [exact C|].
  cbn [fold_left]. apply IH. destruct e; [reflexivity|exact C].
Qed.

Lemma notify_crashes effects : forall s,
  List.filter RocketGame.isCrash effects <> [] ->
  rocketCrashed (fold_left notify effects s) = true.
Proof.
  induction effects as [|e effects IH]; intros s N; [now elim N|].
  cbn [fold_left]. destruct e.
  - now apply notify_keeps_crashed.
  - apply IH. exact N.
Qed.

Lemma applyGravity_crash p dt h :
  snd (RocketGame.applyGravity p dt h) = []
  \/ snd (RocketGame.applyGravity p dt h) = [RocketGame.OnCrash].
Proof.
  unfold RocketGame.applyGravity.
  destruct (RocketGame.gravityActive p && negb (RocketGame.crashed p));
    [|now left].
  destruct (Num.leb _ _); [now right|now left].
Qed.

Lemma render_crash p elapsed r :
  List.filter RocketGame.isCrash (snd (RocketGame.render p elapsed r))
  = snd (RocketGame.applyGravity p (RocketGame.clampDelta elapsed)
           (RocketGame.currentHeight r)).
Proof.
  unfold RocketGame.render.
  destruct (applyGravity_crash p (RocketGame.clampDelta elapsed)
              (RocketGame.currentHeight r)) as [E|E];
    destruct (RocketGame.applyGravity p (RocketGame.clampDelta elapsed)
                (RocketGame.currentHeight r)) as [h1 crash];
    cbn [snd] in E; subst crash;
    unfold RocketGame.applyBoost;
    destruct (RocketGame.boosting p && negb (RocketGame.lastBoosting r));
    reflexivity.
Qed.

(** The guard [!crashed]: a frame that sees [crashed] calls [onCrash] no
    more. *)
Lemma render_crashed_quiet p elapsed r :
  RocketGame.crashed p = true ->
  List.filter RocketGame.isCrash (snd (RocketGame.render p elapsed r)) = [].
Proof.
  intros C. rewrite render_crash. unfold RocketGame.applyGravity.
  rewrite C. now rewrite andb_false_r.
Qed.

(** Over any run of frames the view hears [onCrash] at most once: the
    handler sets [rocketCrashed], which completes the session and takes the
    canvas off the screen. *)
Lemma ticks_crash_at_most_once es : forall v,
  (length (List.filter RocketGame.isCrash (snd (run practiceCards (ticks es) v)))
   <= 1)%nat.
Proof.
  induction es as [|e es IH]; intros v; [cbn; lia|].
  cbn [ticks map run]. change (map AnimationFrame es) with (ticks es).
  unfold step. destruct (canvas v) as [r|] eqn:E.
  - pose proof (render_crash (canvasProps practiceCards (session v)) e r) as RC.
    destruct (RocketGame.render (canvasProps practiceCards (session v)) e r)
      as [r' effects]. cbn [snd] in RC.
    destruct (applyGravity_crash (canvasProps practiceCards (session v))
                (RocketGame.clampDelta e) (RocketGame.currentHeight r)) as [Q|Q];
      rewrite Q in RC.
    + specialize (IH {| session := fold_left notify effects (session v);
                        canvas := reconcile practiceCards (session v)
                                    (fold_left notify effects (session v))
                                    (Some r') |}).
      destruct (run practiceCards (ticks es) _) as [v2 f2]. cbn [snd] in *.
      now rewrite List.filter_app, RC.
    + assert (C : rocketCrashed (fold_left notify effects (session v)) = true)
        by (apply notify_crashes; rewrite RC; discriminate).
      assert (U : reconcile practiceCards (session v)
                    (fold_left notify effects (session v)) (Some r') = None).
      { unfold reconcile.
        now rewrite (complete_unmounted _ (crashed_complete _ C)). }
      rewrite U, ticks_unmounted by reflexivity.
      cbn [snd]. rewrite app_nil_r, RC. cbn. lia.
  - specialize (IH v). destruct (run practiceCards (ticks es) v) as [v2 f2].
    exact IH.
Qed.

End Crash.

(** C4.  On a frame of a mounted canvas with gravity active, no boost in
    flight and a positive elapsed time, the altitude [h] becomes
    [h - GRAVITY_RATE * deltaTime], which is strictly smaller, as long as
    that is positive: nothing is emitted and the session is as before, not
    crashed.  Once it would be zero or less the frame stores 0 and calls
    [onCrash] once; the handler sets [rocketCrashed] and the altitude of
    the session to 0, the session is complete, gravity is off and the
    canvas leaves the screen, so that however many frames follow none of
    them calls [onCrash] again and the view stays as it is.  No run of
    frames makes more than one call, and a frame that sees [crashed] makes
    none. *)
Theorem gravity_crashes_once practiceCards v r elapsed later :
  Practice.canvas v = Some r ->
  Practice.canvasMounted practiceCards (Practice.session v) = true ->
  PracticeView.gravityActive practiceCards (Practice.session v) = true ->
  rocketBoosting (Practice.session v) = false ->
  (0 < elapsed)%Q ->
  let s := Practice.session v in
  let deltaTime := RocketGame.clampDelta elapsed in
  let h := RocketGame.currentHeight r in
  let fallen := (h - RocketGame.GRAVITY_RATE * deltaTime)%Q in
  let after := Practice.step practiceCards (Practice.AnimationFrame elapsed) v in
  (0 < deltaTime)%Q /\
  (fallen < h)%Q /\
  rocketCrashed s = false /\
  ((0 < fallen)%Q ->
   snd after = [] /\
   Practice.session (fst after) = s /\
   exists r', Practice.canvas (fst after) = Some r'
              /\ RocketGame.currentHeight r' = fallen) /\
  ((fallen <= 0)%Q ->
   RocketGame.currentHeight
     (fst (RocketGame.render (Practice.canvasProps practiceCards s) elapsed r))
   = 0%Q /\
   snd after = [RocketGame.OnCrash] /\
   rocketCrashed (Practice.session (fst after)) = true /\
   rocketHeight (Practice.session (fst after)) = 0%Q /\
   PracticeView.isSessionComplete practiceCards (Practice.session (fst after)) = true /\
   PracticeView.gravityActive practiceCards (Practice.session (fst after)) = false /\
   Practice.canvas (fst after) = None /\
   Practice.run practiceCards (ticks later) (fst after) = (fst after, [])) /\
  (length (List.filter RocketGame.isCrash
             (snd (Practice.run practiceCards (ticks (elapsed :: later)) v)))
   <= 1)%nat /\
  (forall p' elapsed' r',
     RocketGame.crashed p' = true ->
     List.filter RocketGame.isCrash (snd (RocketGame.render p' elapsed' r')) = []).
Proof.
  intros Hc Hm Hg Hb He s deltaTime h fallen after.
  fold s in Hm, Hg, Hb.
  pose proof (clampDelta_pos elapsed He) as Hd. fold deltaTime in Hd.
  destruct (proj1 (gravityActive_iff practiceCards s) Hg) as (G1 & G2 & G3 & G4).
  assert (Hf : (fallen < h)%Q).
  { unfold fallen, RocketGame.GRAVITY_RATE. lra. }
  assert (R : RocketGame.render (Practice.canvasProps practiceCards s) elapsed r
              = (let '(h1, crash) :=
                   if Num.leb fallen 0 then (0%Q, [RocketGame.OnCrash])
                   else (fallen, []) in
                 ({| RocketGame.frameCount := S (RocketGame.frameCount r);
                     RocketGame.currentHeight := h1;
                     RocketGame.visualHeight :=
                       RocketGame.smoothVisual deltaTime h1
                         (RocketGame.visualHeight r);
                     RocketGame.lastBoosting := false |}, crash))).
  { unfold RocketGame.render, RocketGame.applyGravity, RocketGame.applyBoost.
    cbn [Practice.canvasProps RocketGame.gravityActive RocketGame.crashed
         RocketGame.boosting].
    fold s. rewrite Hg, G3, Hb. cbn [andb negb]. fold deltaTime h fallen.
    destruct (Num.leb fallen 0); cbn [app]; reflexivity. }
  split; [exact Hd|]. split; [exact Hf|]. split; [exact G3|].
  split; [|split; [|split]].
  - intros Hp. apply leb_false_iff in Hp.
    unfold after, Practice.step. rewrite Hc. fold s. rewrite R, Hp.
    cbn [fold_left snd fst Practice.session Practice.canvas].
    split; [reflexivity|]. split; [reflexivity|].
    eexists. split; [apply (reconcile_same practiceCards s); exact Hm|].
    reflexivity.
  - intros Hn. apply leb_iff in Hn.
    assert (C : rocketCrashed (PracticeView.handleRocketCrash s) = true)
      by reflexivity.
    assert (U : Practice.canvas (fst after) = None).
    { unfold after, Practice.step. rewrite Hc. fold s. rewrite R, Hn.
      cbn [fold_left Practice.notify fst Practice.canvas].
      unfold Practice.reconcile.
      now rewrite (complete_unmounted _ _ (crashed_complete _ _ C)). }
    assert (S' : Practice.session (fst after) = PracticeView.handleRocketCrash s).
    { unfold after, Practice.step. rewrite Hc. fold s. rewrite R, Hn.
      reflexivity. }
    rewrite R, Hn, S'.
    split; [reflexivity|]. split.
    { unfold after, Practice.step. rewrite Hc. fold s. rewrite R, Hn.
      reflexivity. }
    split; [reflexivity|]. split; [reflexivity|].
    split; [now apply crashed_complete|].
    split; [unfold PracticeView.gravityActive; rewrite C; cbn [negb];
            now rewrite andb_false_r|].
    split; [exact U|]. now apply ticks_unmounted.
  - apply ticks_crash_at_most_once.
  - apply render_crashed_quiet.
Qed.

(** A frame at altitude 50, and one at altitude 0.4 that crashes. *)
Lemma gravity_crashes_once_witness :
  let jane := {| name := "Jane Doe"; nicknames := Some ["janie"];
                 photo_url := Some "jane.png" |} in
  let omar := {| name := "Omar Sy"; nicknames := None;
                 photo_url := Some "omar.png" |} in
  let cards := [jane; omar] in
  let v := fst (Practice.run cards
                  [Practice.SelectGameMode Rocket (fun _ => 0%Q)]
                  Practice.initial) in
  let low := {| RocketGame.frameCount := 400; RocketGame.currentHeight := 0.4;
                RocketGame.visualHeight := 0.6; RocketGame.lastBoosting := false |} in
  let w := {| Practice.session := Practice.session v;
              Practice.canvas := Some low |} in
  snd (Practice.step cards (Practice.AnimationFrame 0.05) v) = [] /\
  snd (Practice.step cards (Practice.AnimationFrame 0.05) w)
  = [RocketGame.OnCrash] /\
  rocketCrashed
    (Practice.session (fst (Practice.step cards (Practice.AnimationFrame 0.05) w)))
  = true.
Proof.
  intros jane omar cards v low w.
  assert (He : (0 < 0.05)%Q) by reflexivity.
  assert (Hm : Practice.canvasMounted cards (Practice.session v) = true)
    by (vm_compute; reflexivity).
  assert (Hg : PracticeView.gravityActive cards (Practice.session v) = true)
    by (vm_compute; reflexivity).
  assert (Hb : rocketBoosting (Practice.session v) = false)
    by (vm_compute; reflexivity).
  assert (Hv : Practice.canvas v
               = Some {| RocketGame.frameCount := 0;
                         RocketGame.currentHeight := 50;
                         RocketGame.visualHeight := 50;
                         RocketGame.lastBoosting := false |})
    by (vm_compute; reflexivity).
  pose proof (gravity_crashes_once cards v _ 0.05%Q [] Hv Hm Hg Hb He)
    as (_ & _ & _ & A & _).
  pose proof (gravity_crashes_once cards w low 0.05%Q [] eq_refl Hm Hg Hb He)
    as (_ & _ & _ & _ & B & _).
  split; [apply A; reflexivity|].
  assert (Hn : (0.4 - RocketGame.GRAVITY_RATE * RocketGame.clampDelta 0.05 <= 0)%Q)
    by (vm_compute; discriminate).
  destruct (B Hn) as (_ & B1 & B2 & _). split; [exact B1|exact B2].
Defined.

(** ** The counters of a session *)

Section Tally.

Import Practice PracticeView.

Variable practiceCards : list Card.

Hypothesis some_card : 0 < length practiceCards.

Lemma tally_ext s s' :
  stats s' = stats s -> rocketCrashed s' = rocketCrashed s ->
  gameMode s' = gameMode s -> tally practiceCards s -> tally practiceCards s'.
Proof. unfold tally. intros -> -> ->. tauto. Qed.

Lemma not_complete_lt s :
  isSessionComplete practiceCards s = false ->
  total (stats s) < length practiceCards /\ rocketCrashed s = false.
Proof.
  unfold isSessionComplete. intros H. apply orb_false_iff in H.
  destruct H as [H C]. split; [|exact C].
  apply andb_false_iff in H. destruct H as [H|H].
  - apply Nat.ltb_ge in H. lia.
  - apply Nat.leb_gt in H. exact H.
Qed.

Lemma tally_attempt s s' :
  isSessionComplete practiceCards s = false ->
  (stats s' = {| correct := correct (stats s); total := total (stats s) + 1 |}
   \/ stats s' = {| correct := correct (stats s) + 1;
                    total := total (stats s) + 1 |}) ->
  gameMode s' = gameMode s ->
  (rocketCrashed s' = true -> gameMode s = Rocket) ->
  tally practiceCards s -> tally practiceCards s'.
Proof.
  intros N St G C [[T1 T2] _]. apply not_complete_lt in N as [N _].
  unfold tally. rewrite G. split; [|exact C].
  destruct St as [-> | ->]; cbn [correct total]; lia.
Qed.

Lemma checkGuess_tally now s :
  isSessionComplete practiceCards s = false ->
  tally practiceCards s -> tally practiceCards (checkGuess practiceCards now s).
Proof.
  intros N T. unfold checkGuess.
  destruct (currentCoworker practiceCards s) as [c|]; [|exact T].
  destruct (matchGuess c (difficulty s) (guess s)) as [isCorrect isNick].
  destruct (isCorrect || isNick).
  - apply (tally_attempt s); try assumption.
    + right. destruct (GameMode_eqb (gameMode s) Rocket),
        (GameMode_eqb (gameMode s) Timed && unset (startTime s)); reflexivity.
    + destruct (GameMode_eqb (gameMode s) Rocket),
        (GameMode_eqb (gameMode s) Timed && unset (startTime s)); reflexivity.
    + destruct (not_complete_lt s N) as [_ C].
      destruct (GameMode_eqb (gameMode s) Rocket),
        (GameMode_eqb (gameMode s) Timed && unset (startTime s));
        cbn; rewrite C; discriminate.
  - apply (tally_attempt s); try assumption.
    + left. unfold penalise. destruct (GameMode_eqb (gameMode s) Rocket),
        (GameMode_eqb (gameMode s) Timed && unset (startTime s));
        try destruct (Num.leb _ _); reflexivity.
    + unfold penalise. destruct (GameMode_eqb (gameMode s) Rocket),
        (GameMode_eqb (gameMode s) Timed && unset (startTime s));
        try destruct (Num.leb _ _); reflexivity.
    + destruct (not_complete_lt s N) as [_ C].
      destruct (GameMode_eqb (gameMode s) Rocket) eqn:G.
      * intros _. now apply GameMode_eqb_iff.
      * destruct (GameMode_eqb (gameMode s) Timed && unset (startTime s));
          cbn; rewrite C; discriminate.
Qed.

Lemma reveal_tally s :
  isSessionComplete practiceCards s = false ->
  tally practiceCards s -> tally practiceCards (onClickReveal s).
Proof.
  intros N T. apply (tally_attempt s); try assumption.
  - left. reflexivity.
  - reflexivity.
  - destruct (not_complete_lt s N) as [_ C]. cbn. rewrite C. discriminate.
Qed.

Lemma restartPractice_tally random s :
  tally practiceCards (restartPractice practiceCards random s).
Proof. unfold tally. cbn. split; [lia|discriminate]. Qed.

Lemma handle_tally e s :
  tally practiceCards s -> tally practiceCards (handle practiceCards e s).
Proof.
  intros T. destruct e; cbn [handle].
  - destruct (guessing practiceCards s); [|exact T].
    now apply (tally_ext s).
  - destruct (guessing practiceCards s) eqn:G; cbn [andb]; [|exact T].
    destruct (String.eqb key "Enter" && JS.truthy (guess s)); [|exact T].
    apply checkGuess_tally; [|exact T].
    unfold guessing in G. apply andb_true_iff in G as [G _].
    apply Screen_eqb_iff in G. now apply active_not_complete in G.
  - destruct (guessing practiceCards s) eqn:G; cbn [andb]; [|exact T].
    destruct (negb (checkDisabled s)); [|exact T].
    apply checkGuess_tally; [|exact T].
    unfold guessing in G. apply andb_true_iff in G as [G _].
    apply Screen_eqb_iff in G. now apply active_not_complete in G.
  - destruct (guessing practiceCards s) eqn:G; [|exact T].
    apply reveal_tally; [|exact T].
    unfold guessing in G. apply andb_true_iff in G as [G _].
    apply Screen_eqb_iff in G. now apply active_not_complete in G.
  - destruct (currentCoworker practiceCards s); [|exact T].
    destruct (isSessionComplete practiceCards s) eqn:N; [exact T|].
    unfold handleKeyDown. destruct (showAnswer s).
    + destruct (String.eqb key "Enter"); [|exact T].
      destruct (_ || _); [|exact T]. now apply (tally_ext s).
    + destruct (_ || _); [|exact T]. now apply reveal_tally.
  - destruct (correcting practiceCards s); [|exact T]. now apply (tally_ext s).
  - destruct (_ && _); [|exact T]. now apply (tally_ext s).
  - destruct (correcting practiceCards s); [|exact T]. now apply (tally_ext s).
  - destruct (_ && _); [|exact T]. now apply (tally_ext s).
  - destruct (Screen_eqb _ _); [|exact T]. now apply (tally_ext s).
  - destruct (Screen_eqb _ _); [|exact T]. unfold handleGameModeChange.
    destruct (negb _); [|exact T]. apply restartPractice_tally.
  - destruct (Screen_eqb _ _); [|exact T]. now apply (tally_ext s).
  - destruct (Screen_eqb _ _); [|exact T]. apply restartPractice_tally.
  - destruct (timers s !! k) as [t|]; [|exact T].
    destruct t; now apply (tally_ext s).
  - destruct (startTime s); [|exact T]. destruct (_ && _); [|exact T].
    now apply (tally_ext s).
  - exact T.
Qed.

Lemma notify_cells effects : forall s,
  stats (fold_left notify effects s) = stats s /\
  gameMode (fold_left notify effects s) = gameMode s.
Proof.
  induction effects as [|e effects IH]; intros s; [now split|].
  cbn [fold_left]. destruct (IH (notify s e)) as [A B]. rewrite A, B.
  destruct e; split; reflexivity.
Qed.

Lemma step_tally e v :
  consistent practiceCards v ->
  tally practiceCards (session v) ->
  tally practiceCards (session (fst (step practiceCards e v))).
Proof.
  intros C T. destruct e; try (now apply handle_tally).
  unfold step. destruct (canvas v) as [r|] eqn:E; [|exact T].
  destruct (RocketGame.render _ _ _) as [r' effects]. cbn [fst session].
  destruct (notify_cells effects (session v)) as [A B].
  unfold tally. rewrite A, B. split; [apply T|]. intros _.
  unfold consistent in C. rewrite E in C. unfold canvasMounted in C.
  apply andb_true_iff in C as [_ C]. now apply GameMode_eqb_iff.
Qed.

Lemma reachable_tally v :
  reachable practiceCards v -> tally practiceCards (session v).
Proof.
  induction 1 as [|e v R IH].
  - unfold tally. cbn. split; [lia|discriminate].
  - apply step_tally; [now apply reachable_consistent|exact IH].
Qed.

Lemma checkGuess_shuffledIndices now s :
  shuffledIndices (checkGuess practiceCards now s) = shuffledIndices s.
Proof.
  unfold checkGuess.
  destruct (currentCoworker practiceCards s) as [c|]; [|reflexivity].
  destruct (matchGuess c (difficulty s) (guess s)) as [isCorrect isNick].
  unfold penalise.
  destruct (isCorrect || isNick), (GameMode_eqb (gameMode s) Rocket),
    (GameMode_eqb (gameMode s) Timed && unset (startTime s));
    try destruct (Num.leb _ _); reflexivity.
Qed.

Lemma handle_shuffledIndices e s :
  shuffledIndices (handle practiceCards e s) = shuffledIndices s
  \/ exists random,
       shuffledIndices (handle practiceCards e s)
       = shuffled random (length practiceCards).
Proof.
  destruct e; cbn [handle];
    try (left; reflexivity);
    try (destruct (_ && _); left; (reflexivity || apply checkGuess_shuffledIndices));
    try (destruct (guessing practiceCards s); left; reflexivity);
    try (destruct (correcting practiceCards s); left; reflexivity).
  - destruct (currentCoworker practiceCards s); [|now left].
    destruct (isSessionComplete practiceCards s); [now left|].
    unfold handleKeyDown. destruct (showAnswer s).
    + destruct (String.eqb key "Enter"); [|now left].
      destruct (_ || _); now left.
    + destruct (_ || _); now left.
  - destruct (Screen_eqb _ _); [|now left]. right. now exists random.
  - destruct (Screen_eqb _ _); [|now left]. unfold handleGameModeChange.
    destruct (negb _); [|now left]. right. now exists random.
  - destruct (Screen_eqb _ _); now left.
  - destruct (Screen_eqb _ _); [|now left]. right. now exists random.
  - destruct (timers s !! k) as [t|]; [|now left]. destruct t; now left.
  - destruct (startTime s); [|now left]. destruct (_ && _); now left.
Qed.

Lemma notify_shuffledIndices effects : forall s,
  shuffledIndices (fold_left notify effects s) = shuffledIndices s.
Proof.
  induction effects as [|e effects IH]; intros s; [reflexivity|].
  cbn [fold_left]. rewrite IH. destruct e; reflexivity.
Qed.

Lemma order_shuffled random s :
  shuffledIndices s = shuffled random (length practiceCards) ->
  order practiceCards s ≡ₚ seq 0 (length practiceCards).
Proof.
  intros E. unfold order. rewrite E.
  destruct (0 <? length (shuffled random (length practiceCards))); [|done].
  apply shuffled_Permutation.
Qed.

Lemma reachable_order v :
  reachable practiceCards v ->
  order practiceCards (session v) ≡ₚ seq 0 (length practiceCards).
Proof.
  induction 1 as [|e v R IH]; [reflexivity|].
  assert (H : shuffledIndices (session (fst (step practiceCards e v)))
              = shuffledIndices (session v)
              \/ exists random,
                   shuffledIndices (session (fst (step practiceCards e v)))
                   = shuffled random (length practiceCards)).
  { destruct e; try apply handle_shuffledIndices.
    left. unfold step. destruct (canvas v); [|reflexivity].
    destruct (RocketGame.render _ _ _) as [r' effects].
    apply notify_shuffledIndices. }
  destruct H as [H|[random H]].
  - unfold order in *. now rewrite H.
  - now apply (order_shuffled random).
Qed.

End Tally.

(** C2.  In every view a session over at least one card can reach, the
    order is a permutation of the card indices, so that its length is the
    number of eligible cards; the hits are at most the attempts and the
    attempts at most that length; the completion test of the view holds
    exactly when the attempts have reached the length or the mode is rocket
    and the rocket has crashed; and a session that is complete without a
    crash has made exactly as many attempts as the order is long. *)
Theorem session_stats_invariant practiceCards v :
  0 < length practiceCards ->
  Practice.reachable practiceCards v ->
  let s := Practice.session v in
  let n := length (order practiceCards s) in
  order practiceCards s ≡ₚ seq 0 (length practiceCards) /\
  n = length practiceCards /\
  correct (stats s) <= total (stats s) /\
  total (stats s) <= n /\
  (PracticeView.isSessionComplete practiceCards s = true <->
   n <= total (stats s) \/ (gameMode s = Rocket /\ rocketCrashed s = true)) /\
  (PracticeView.isSessionComplete practiceCards s = true ->
   rocketCrashed s = false -> total (stats s) = n).
Proof.
  intros Hn R s n.
  pose proof (reachable_order practiceCards v R) as O. fold s in O.
  assert (En : n = length practiceCards).
  { unfold n. rewrite O. apply length_seq. }
  destruct (reachable_tally practiceCards Hn v R) as [[T1 T2] T3].
  fold s in T1, T2, T3. rewrite <- En in T2.
  assert (I : PracticeView.isSessionComplete practiceCards s = true <->
              n <= total (stats s) \/ rocketCrashed s = true).
  { unfold PracticeView.isSessionComplete. rewrite <- En.
    rewrite orb_true_iff, andb_true_iff, Nat.ltb_lt, Nat.leb_le.
    split; intros [H|H]; auto; left; lia. }
  split; [exact O|]. split; [exact En|].
  split; [exact T1|]. split; [exact T2|]. split.
  - rewrite I. split; intros [H|H].
    + now left.
    + right. split; [now apply T3|exact H].
    + now left.
    + right. exact (proj2 H).
  - intros C N. apply I in C. destruct C as [C|C]; [lia|congruence].
Qed.

(** Three cards in classic mode at first-name difficulty: a hit, a miss
    corrected at the gate, a hit. *)
Lemma session_stats_invariant_witness :
  let jane := {| name := "Jane Doe"; nicknames := Some ["janie"];
                 photo_url := Some "jane.png" |} in
  let omar := {| name := "Omar Sy"; nicknames := None;
                 photo_url := Some "omar.png" |} in
  let lena := {| name := "Lena"; nicknames := Some [];
                 photo_url := Some "lena.png" |} in
  let cards := [jane; omar; lena] in
  let v := fst (Practice.run cards
                  [Practice.ChangeGuess "janie"; Practice.ClickCheck 1000;
                   Practice.ClickNextCard;
                   Practice.ChangeGuess "Oscar"; Practice.ClickCheck 2000;
                   Practice.ClickNextCard;
                   Practice.ChangeCorrection "omar "; Practice.ClickNextCard;
                   Practice.ChangeGuess "LENA"; Practice.ClickCheck 3000]
                  Practice.initial) in
  stats (Practice.session v) = {| correct := 2; total := 3 |} /\
  PracticeView.isSessionComplete cards (Practice.session v) = true /\
  total (stats (Practice.session v)) = length cards.
Proof.
  intros jane omar lena cards v.
  assert (Hn : 0 < length cards) by (cbn; lia).
  assert (R : Practice.reachable cards v)
    by (apply reachable_run; constructor).
  assert (C : PracticeView.isSessionComplete cards (Practice.session v) = true)
    by (vm_compute; reflexivity).
  assert (N : rocketCrashed (Practice.session v) = false)
    by (vm_compute; reflexivity).
  split; [vm_compute; reflexivity|]. split; [exact C|].
  pose proof (session_stats_invariant cards v Hn R) as (_ & E & _ & _ & _ & T).
  rewrite <- E. exact (T C N).
Defined.

(** ** A rocket session that ends in a crash *)

(** Five cards in rocket mode from altitude 50: three misses leave the
    altitudes 35, 20 and 5 and the session running; the fourth takes the
    altitude to 0, crashes and completes the session after four attempts
    out of five. *)
Example four_misses_crash :
  let card n := {| name := n; nicknames := None; photo_url := Some "p.png" |} in
  let cards := map card ["Ada"; "Bo"; "Cy"; "Di"; "Ed"] in
  let miss := [Practice.ChangeGuess "zed"; Practice.ClickCheck 0] in
  let next := [Practice.ClickNextCard] in
  let start := [Practice.SelectGameMode Rocket (fun _ => 0%Q)] in
  let after es := Practice.session (fst (Practice.run cards es Practice.initial)) in
  let three := start ++ miss ++ next ++ miss ++ next ++ miss ++ next in
  rocketHeight (after (start ++ miss)) = 35%Q /\
  rocketHeight (after (start ++ miss ++ next ++ miss)) = 20%Q /\
  rocketHeight (after three) = 5%Q /\
  PracticeView.isSessionComplete cards (after three) = false /\
  rocketHeight (after (three ++ miss)) = 0%Q /\
  rocketCrashed (after (three ++ miss)) = true /\
  stats (after (three ++ miss)) = {| correct := 0; total := 4 |} /\
  PracticeView.isSessionComplete cards (after (three ++ miss)) = true.
Proof. cbv zeta. repeat split; vm_compute; reflexivity. Qed.

(** * Further properties of the code *)

(** ** The clock *)

Section Clock.

Import PracticeView.

Local Open Scope Z_scope.

Lemma timeParts_tenths ms :
  0 <= ms ->
  timeParts ms = (ms / 100 / 600, ms / 100 / 10 mod 60, ms / 100 mod 10).
Proof.
  intros H. unfold timeParts.
  assert (S : ms / 1000 = ms / 100 / 10) by (rewrite Z.div_div by lia; reflexivity).
  assert (M : ms / 1000 / 60 = ms / 100 / 600).
  { rewrite S, !Z.div_div by lia. reflexivity. }
  assert (P : 0 <= ms / 100 / 10) by (apply Z.div_pos; [apply Z.div_pos|]; lia).
  assert (T : Z.rem ms 1000 / 100 = ms / 100 mod 10).
  { rewrite Z.rem_mod_nonneg by lia.
    pose proof (Z.div_mod ms 1000 ltac:(lia)) as E.
    pose proof (Z.mod_pos_bound ms 1000 ltac:(lia)) as B.
    pose proof (Z.div_mod (ms mod 1000) 100 ltac:(lia)) as E'.
    pose proof (Z.mod_pos_bound (ms mod 1000) 100 ltac:(lia)) as B'.
    assert (Q : 0 <= ms mod 1000 / 100 < 10).
    { split; [apply Z.div_pos; lia|apply Z.div_lt_upper_bound; lia]. }
    assert (D : ms / 100 = 10 * (ms / 1000) + ms mod 1000 / 100).
    { symmetry. apply Z.div_unique with (r := (ms mod 1000) mod 100); lia. }
    rewrite D. apply Z.mod_unique with (q := ms / 1000); lia. }
  rewrite M, T, S, Z.rem_mod_nonneg by lia. reflexivity.
Qed.

Lemma string_length_app (a b : string) :
  String.length (a ++ b)%string = (String.length a + String.length b)%nat.
Proof. induction a as [|c a IH]; simpl; [reflexivity|now rewrite IH]. Qed.

Lemma string_app_inj_tail (a b c d : string) :
  String.length c = String.length d ->
  (a ++ c)%string = (b ++ d)%string -> a = b /\ c = d.
Proof.
  intros L E.
  assert (La : String.length a = String.length b).
  { apply (f_equal String.length) in E. rewrite !string_length_app in E. lia. }
  clear L. revert b E La.
  induction a as [|x a IH]; intros [|y b] E La; try discriminate La.
  - change (c = d) in E. now split.
  - change (String x (a ++ c) = String y (b ++ d))%string in E.
    injection E as -> E. injection La as La.
    destruct (IH b E La) as [-> ->]. now split.
Qed.

Lemma seconds_shown n :
  (n < 60)%nat ->
  String.length (twoDigits n) = 2%nat /\
  forall m, (m < 60)%nat -> twoDigits n = twoDigits m -> n = m.
Proof.
  intros Hn.
  assert (A : forallb (fun i =>
                (String.length (twoDigits i) =? 2)%nat
                && forallb (fun j => implb (String.eqb (twoDigits i) (twoDigits j))
                                       (i =? j)%nat) (seq 0 60))
              (seq 0 60) = true) by (vm_compute; reflexivity).
  rewrite forallb_forall in A. specialize (A n).
  rewrite in_seq in A. specialize (A ltac:(lia)).
  apply andb_true_iff in A as [A1 A2]. split; [now apply Nat.eqb_eq|].
  intros m Hm E. rewrite forallb_forall in A2. specialize (A2 m).
  rewrite in_seq in A2. specialize (A2 ltac:(lia)).
  rewrite E, String.eqb_refl in A2. now apply Nat.eqb_eq.
Qed.

Lemma tenths_shown n :
  (n < 10)%nat -> String.length (pretty (Z.of_nat n)) = 1%nat.
Proof.
  intros Hn. do 10 (destruct n as [|n]; [reflexivity|]). lia.
Qed.

End Clock.

(** X1.  For a time of [ms] >= 0 milliseconds the clock shows minutes,
    seconds below 60 and tenths below 10 that add up to [ms] cut to a
    multiple of 100; the seconds are written with exactly two characters
    and the tenths with one. *)
Theorem formatTime_parts ms :
  (0 <= ms)%Z ->
  let '(minutes, seconds, tenths) := PracticeView.timeParts ms in
  (0 <= minutes /\ 0 <= seconds < 60 /\ 0 <= tenths < 10 /\
   60000 * minutes + 1000 * seconds + 100 * tenths = ms - ms mod 100)%Z /\
  String.length (PracticeView.padStart2 (pretty seconds)) = 2 /\
  String.length (pretty tenths) = 1 /\
  PracticeView.formatTime ms
  = (pretty minutes ++ ":" ++ PracticeView.padStart2 (pretty seconds)
     ++ "." ++ pretty tenths)%string.
Proof.
  intros H. unfold PracticeView.formatTime.
  rewrite (timeParts_tenths ms H).
  set (A := (ms / 100)%Z).
  assert (HA : (0 <= A)%Z) by (apply Z.div_pos; lia).
  pose proof (Z.div_mod ms 100 ltac:(lia)) as E0. fold A in E0.
  pose proof (Z.div_mod A 10 ltac:(lia)) as E1.
  pose proof (Z.mod_pos_bound A 10 ltac:(lia)) as B1.
  pose proof (Z.div_mod (A / 10) 60 ltac:(lia)) as E2.
  pose proof (Z.mod_pos_bound (A / 10) 60 ltac:(lia)) as B2.
  assert (E3 : (A / 600 = A / 10 / 60)%Z) by (rewrite Z.div_div by lia; reflexivity).
  assert (P : (0 <= A / 600)%Z) by (apply Z.div_pos; lia).
  split; [repeat split; lia|].
  split; [|split; [|reflexivity]].
  - rewrite <- (Z2Nat.id (A / 10 mod 60)) by lia.
    apply (seconds_shown (Z.to_nat (A / 10 mod 60))). lia.
  - rewrite <- (Z2Nat.id (A mod 10)) by lia. apply tenths_shown. lia.
Qed.

Lemma formatTime_parts_witness :
  PracticeView.formatTime 83456 = "1:23.4".
Proof.
  pose proof (formatTime_parts 83456 ltac:(discriminate)) as H.
  exact (proj2 (proj2 (proj2 H))).
Defined.

(** X2.  Two times of at least 0 ms are shown as the same text exactly
    when they agree to the tenth of a second. *)
Theorem formatTime_distinguishes_tenths a b :
  (0 <= a)%Z -> (0 <= b)%Z ->
  PracticeView.formatTime a = PracticeView.formatTime b <-> (a / 100 = b / 100)%Z.
Proof.
  intros Ha Hb. unfold PracticeView.formatTime.
  rewrite (timeParts_tenths a Ha), (timeParts_tenths b Hb).
  set (A := (a / 100)%Z). set (B := (b / 100)%Z).
  assert (HA : (0 <= A)%Z) by (apply Z.div_pos; lia).
  assert (HB : (0 <= B)%Z) by (apply Z.div_pos; lia).
  split; [|now intros ->].
  intros E.
  pose proof (Z.mod_pos_bound (A / 10) 60 ltac:(lia)) as SA.
  pose proof (Z.mod_pos_bound (B / 10) 60 ltac:(lia)) as SB.
  pose proof (Z.mod_pos_bound A 10 ltac:(lia)) as TA.
  pose proof (Z.mod_pos_bound B 10 ltac:(lia)) as TB.
  assert (LsA : String.length (PracticeView.padStart2 (pretty (A / 10 mod 60)%Z)) = 2).
  { rewrite <- (Z2Nat.id (A / 10 mod 60)) by lia.
    apply (seconds_shown (Z.to_nat (A / 10 mod 60))). lia. }
  assert (LsB : String.length (PracticeView.padStart2 (pretty (B / 10 mod 60)%Z)) = 2).
  { rewrite <- (Z2Nat.id (B / 10 mod 60)) by lia.
    apply (seconds_shown (Z.to_nat (B / 10 mod 60))). lia. }
  assert (LtA : String.length (pretty (A mod 10)%Z) = 1).
  { rewrite <- (Z2Nat.id (A mod 10)) by lia. apply tenths_shown. lia. }
  assert (LtB : String.length (pretty (B mod 10)%Z) = 1).
  { rewrite <- (Z2Nat.id (B mod 10)) by lia. apply tenths_shown. lia. }
  apply string_app_inj_tail in E as [Em E];
    [|rewrite !string_length_app, LsA, LsB, LtA, LtB; reflexivity].
  change (String ":" (PracticeView.padStart2 (pretty (A / 10 mod 60)%Z)
                      ++ "." ++ pretty (A mod 10)%Z)
          = String ":" (PracticeView.padStart2 (pretty (B / 10 mod 60)%Z)
                        ++ "." ++ pretty (B mod 10)%Z))%string in E.
  injection E as E.
  apply string_app_inj_tail in E as [Es E];
    [|rewrite !string_length_app, LtA, LtB; reflexivity].
  change (String "." (pretty (A mod 10)%Z) = String "." (pretty (B mod 10)%Z)) in E.
  injection E as Et.
  apply (inj pretty) in Em. apply (inj pretty) in Et.
  assert (Esec : (A / 10 mod 60 = B / 10 mod 60)%Z).
  { rewrite <- (Z2Nat.id (A / 10 mod 60)), <- (Z2Nat.id (B / 10 mod 60)) in Es by lia.
    apply (proj2 (seconds_shown (Z.to_nat (A / 10 mod 60)) ltac:(lia))) in Es; lia. }
  pose proof (Z.div_mod A 10 ltac:(lia)).
  pose proof (Z.div_mod B 10 ltac:(lia)).
  pose proof (Z.div_mod (A / 10) 60 ltac:(lia)).
  pose proof (Z.div_mod (B / 10) 60 ltac:(lia)).
  assert ((A / 600 = A / 10 / 60)%Z) by (rewrite Z.div_div by lia; reflexivity).
  assert ((B / 600 = B / 10 / 60)%Z) by (rewrite Z.div_div by lia; reflexivity).
  lia.
Qed.

Lemma formatTime_distinguishes_tenths_witness :
  PracticeView.formatTime 83456 = PracticeView.formatTime 83499 /\
  PracticeView.formatTime 83456 <> PracticeView.formatTime 83500.
Proof.
  split.
  - apply (formatTime_distinguishes_tenths 83456 83499); [discriminate..|reflexivity].
  - intros E.
    apply (formatTime_distinguishes_tenths 83456 83500) in E; discriminate.
Defined.

(** ** The completion screen *)

Section Percentage.

Import PracticeView.

Lemma percentage_quotient st :
  0 < total st ->
  percentage st
  = ((200 * Z.of_nat (correct st) + Z.of_nat (total st))
     / (2 * Z.of_nat (total st)))%Z.
Proof.
  intros H. unfold percentage, Num.round.
  apply Nat.ltb_lt in H as H'. rewrite H'.
  rewrite Zdiv_Qdiv. apply Qfloor_comp.
  set (c := Z.of_nat (correct st)). set (t := Z.of_nat (total st)).
  assert (Ht : ~ (inject_Z t == 0)%Q).
  { unfold t, Qeq. simpl. lia. }
  rewrite !inject_Z_plus, !inject_Z_mult. field. exact Ht.
Qed.

(** The percentage reaches [k] exactly when the hits reach [k - 1/2]
    percent of the attempts. *)
Lemma percentage_reaches st k :
  0 < total st ->
  (k <= percentage st <->
   (2 * k - 1) * Z.of_nat (total st) <= 200 * Z.of_nat (correct st))%Z.
Proof.
  intros H. rewrite (percentage_quotient st H).
  set (c := Z.of_nat (correct st)). set (t := Z.of_nat (total st)).
  assert (Ht : (0 < t)%Z) by (unfold t; lia).
  split; intros L.
  - assert (k * (2 * t) <= 200 * c + t)%Z; [|lia].
    etransitivity; [apply Z.mul_le_mono_nonneg_r; [lia|exact L]|].
    rewrite Z.mul_comm. apply Z.mul_div_le. lia.
  - apply Z.div_le_lower_bound; lia.
Qed.

End Percentage.

(** X3.  With as many hits as attempts at most, the percentage of the
    completion screen lies between 0 and 100 and is 0 before any attempt.
    After at least one attempt the session is "perfect" exactly when the
    hits are at least 99.5% of the attempts (so with fewer than 200
    attempts exactly when every attempt was a hit), "great" from 79.5% and
    "good" from 59.5%. *)
Theorem percentage_tiers st :
  correct st <= total st ->
  let c := Z.of_nat (correct st) in
  let t := Z.of_nat (total st) in
  (0 <= PracticeView.percentage st <= 100)%Z /\
  (total st = 0 -> PracticeView.percentage st = 0%Z) /\
  (0 < total st ->
   (PracticeView.isPerfect st = true <-> (199 * t <= 200 * c)%Z) /\
   (total st < 200 -> (PracticeView.isPerfect st = true <-> correct st = total st)) /\
   (PracticeView.isGreat st = true <-> (159 * t <= 200 * c)%Z) /\
   (PracticeView.isGood st = true <-> (119 * t <= 200 * c)%Z)).
Proof.
  intros Hc c t.
  assert (Z0 : total st = 0 -> PracticeView.percentage st = 0%Z).
  { intros E. unfold PracticeView.percentage. now rewrite E. }
  assert (B : (0 <= PracticeView.percentage st <= 100)%Z).
  { destruct (Nat.eq_dec (total st) 0) as [E|E]; [rewrite (Z0 E); lia|].
    assert (H : 0 < total st) by lia. split.
    - apply (percentage_reaches st 0 H). lia.
    - assert (~ (101 <= PracticeView.percentage st)%Z); [|lia].
      rewrite (percentage_reaches st 101 H). lia. }
  split; [exact B|]. split; [exact Z0|]. intros H.
  assert (P : PracticeView.isPerfect st = true <-> (199 * t <= 200 * c)%Z).
  { unfold PracticeView.isPerfect. rewrite Z.eqb_eq.
    pose proof (percentage_reaches st 100 H) as R. unfold c, t. lia. }
  split; [exact P|]. split; [|split].
  - intros L. rewrite P. unfold c, t. lia.
  - unfold PracticeView.isGreat. rewrite Z.leb_le.
    pose proof (percentage_reaches st 80 H) as R. unfold c, t. lia.
  - unfold PracticeView.isGood. rewrite Z.leb_le.
    pose proof (percentage_reaches st 60 H) as R. unfold c, t. lia.
Qed.

(** Two hits in three attempts show 67%; 199 in 200 show 100%. *)
Lemma percentage_tiers_witness :
  PracticeView.percentage {| correct := 2; total := 3 |} = 67%Z /\
  PracticeView.isPerfect {| correct := 199; total := 200 |} = true /\
  PracticeView.isPerfect {| correct := 198; total := 199 |} = false.
Proof.
  split; [reflexivity|]. split.
  - apply (percentage_tiers {| correct := 199; total := 200 |});
      cbn [correct total]; lia.
  - apply not_true_is_false. intros E.
    apply (percentage_tiers {| correct := 198; total := 199 |}) in E;
      cbn [correct total] in *; lia.
Defined.

(** ** The cursor and the current card *)

Section Cursor.

Import Practice PracticeView.

Variable practiceCards : list Card.

Hypothesis some_card : 0 < length practiceCards.

Lemma checkGuess_currentIndex now s :
  currentIndex (checkGuess practiceCards now s) = currentIndex s.
Proof.
  unfold checkGuess.
  destruct (currentCoworker practiceCards s) as [c|]; [|reflexivity].
  destruct (matchGuess c (difficulty s) (guess s)) as [isCorrect isNick].
  unfold penalise.
  destruct (isCorrect || isNick), (GameMode_eqb (gameMode s) Rocket),
    (GameMode_eqb (gameMode s) Timed && unset (startTime s));
    try destruct (Num.leb _ _); reflexivity.
Qed.

Lemma handle_currentIndex e s :
  currentIndex (handle practiceCards e s) = currentIndex s
  \/ currentIndex (handle practiceCards e s) = 0
  \/ currentIndex (handle practiceCards e s)
     = (currentIndex s + 1) mod length practiceCards.
Proof.
  destruct e; cbn [handle];
    try (left; reflexivity);
    try (destruct (_ && _); [|now left];
         first [left; apply checkGuess_currentIndex | right; right; reflexivity]);
    try (destruct (guessing practiceCards s); left; reflexivity).
  - destruct (currentCoworker practiceCards s); [|now left].
    destruct (isSessionComplete practiceCards s); [now left|].
    unfold handleKeyDown. destruct (showAnswer s).
    + destruct (String.eqb key "Enter"); [|now left].
      destruct (_ || _); [right; right; reflexivity|now left].
    + destruct (_ || _); now left.
  - destruct (correcting practiceCards s); now left.
  - destruct (correcting practiceCards s); [right; right; reflexivity|now left].
  - destruct (Screen_eqb _ _); [right; left; reflexivity|now left].
  - destruct (Screen_eqb _ _); [|now left]. unfold handleGameModeChange.
    destruct (negb _); [right; left; reflexivity|now left].
  - destruct (Screen_eqb _ _); now left.
  - destruct (Screen_eqb _ _); [right; left; reflexivity|now left].
  - destruct (timers s !! k) as [t|]; [|now left].
    destruct t; [now left|right; right; reflexivity].
  - destruct (startTime s); [|now left]. destruct (_ && _); now left.
Qed.

Lemma notify_currentIndex effects : forall s,
  currentIndex (fold_left notify effects s) = currentIndex s.
Proof.
  induction effects as [|e effects IH]; intros s; [reflexivity|].
  cbn [fold_left]. rewrite IH. destruct e; reflexivity.
Qed.

Lemma reachable_cursor v :
  reachable practiceCards v -> currentIndex (session v) < length practiceCards.
Proof.
  induction 1 as [|e v R IH]; [exact some_card|].
  assert (H : currentIndex (session (fst (step practiceCards e v)))
              = currentIndex (session v)
              \/ currentIndex (session (fst (step practiceCards e v))) = 0
              \/ currentIndex (session (fst (step practiceCards e v)))
                 = (currentIndex (session v) + 1) mod length practiceCards).
  { destruct e; try apply handle_currentIndex.
    left. unfold step. destruct (canvas v); [|reflexivity].
    destruct (RocketGame.render _ _ _) as [r' effects].
    apply notify_currentIndex. }
  destruct H as [-> | [-> | ->]]; [exact IH|exact some_card|].
  apply Nat.mod_upper_bound. lia.
Qed.

Lemma reachable_currentCoworker v :
  reachable practiceCards v ->
  exists c, currentCoworker practiceCards (session v) = Some c.
Proof.
  intros R. pose proof (reachable_cursor v R) as C.
  pose proof (reachable_order practiceCards v R) as O.
  unfold currentCoworker. unfold order in O.
  destruct (0 <? length (shuffledIndices (session v))).
  - assert (L : length (shuffledIndices (session v)) = length practiceCards).
    { rewrite O. apply length_seq. }
    destruct (lookup_lt_is_Some_2 (shuffledIndices (session v))
                (currentIndex (session v)) ltac:(lia)) as [i Hi].
    rewrite Hi.
    assert (I : i ∈ seq 0 (length practiceCards)).
    { rewrite <- O. eapply list_elem_of_lookup_2. exact Hi. }
    apply elem_of_seq in I.
    destruct (lookup_lt_is_Some_2 practiceCards i ltac:(lia)) as [c Hc].
    now exists c.
  - destruct (lookup_lt_is_Some_2 practiceCards (currentIndex (session v)) C)
      as [c Hc].
    now exists c.
Qed.

Lemma checkGuess_counts now s c :
  currentCoworker practiceCards s = Some c ->
  total (stats (checkGuess practiceCards now s)) = total (stats s) + 1 /\
  showAnswer (checkGuess practiceCards now s) = true.
Proof.
  intros Hc. unfold checkGuess. rewrite Hc.
  destruct (matchGuess c (difficulty s) (guess s)) as [isCorrect isNick].
  unfold penalise.
  destruct (isCorrect || isNick), (GameMode_eqb (gameMode s) Rocket),
    (GameMode_eqb (gameMode s) Timed && unset (startTime s));
    try destruct (Num.leb _ _); split; reflexivity.
Qed.

End Cursor.

(** X4.  In every view a session over at least one card can reach, the
    cursor is inside the cards and the current card exists, so the guess
    check never runs into a missing card: on the guessing screen a click on
    Check with a non-empty guess records exactly one attempt, stores a
    feedback and shows the answer. *)
Theorem every_guess_is_counted practiceCards v now :
  0 < length practiceCards ->
  Practice.reachable practiceCards v ->
  let s := Practice.session v in
  let s' := Practice.handle practiceCards (Practice.ClickCheck now) s in
  currentIndex s < length practiceCards /\
  (exists c, PracticeView.currentCoworker practiceCards s = Some c) /\
  (Practice.guessing practiceCards s = true -> guess s <> "" ->
   total (stats s') = total (stats s) + 1 /\
   showAnswer s' = true /\
   feedback s' <> None /\
   Practice.guessing practiceCards s' = false).
Proof.
  intros Hn R s s'.
  pose proof (reachable_cursor practiceCards Hn v R) as C.
  destruct (reachable_currentCoworker practiceCards Hn v R) as [c Hc].
  fold s in C, Hc.
  split; [exact C|]. split; [now exists c|]. intros G N.
  assert (E : s' = PracticeView.checkGuess practiceCards now s).
  { unfold s', Practice.handle, Practice.checkDisabled. rewrite G.
    destruct (guess s); [now elim N|reflexivity]. }
  destruct (checkGuess_counts practiceCards now s c Hc) as [T A].
  rewrite E. split; [exact T|]. split; [exact A|]. split.
  - rewrite (checkGuess_feedback practiceCards now s c Hc). discriminate.
  - unfold Practice.guessing. rewrite A. apply andb_false_r.
Qed.

(** The first guess of a session over two cards. *)
Lemma every_guess_is_counted_witness :
  let jane := {| name := "Jane Doe"; nicknames := Some ["janie"];
                 photo_url := Some "jane.png" |} in
  let omar := {| name := "Omar Sy"; nicknames := None;
                 photo_url := Some "omar.png" |} in
  let v := fst (Practice.run [jane; omar] [Practice.ChangeGuess "jane"]
                  Practice.initial) in
  total (stats (Practice.handle [jane; omar] (Practice.ClickCheck 0)
                  (Practice.session v))) = 1.
Proof.
  intros jane omar v.
  assert (R : Practice.reachable [jane; omar] v)
    by (apply reachable_run; constructor).
  assert (Hn : 0 < length [jane; omar]) by (cbn; lia).
  pose proof (every_guess_is_counted [jane; omar] v 0%Z Hn R) as (_ & _ & H).
  assert (G : Practice.guessing [jane; omar] (Practice.session v) = true)
    by (vm_compute; reflexivity).
  assert (N : guess (Practice.session v) <> "") by (vm_compute; discriminate).
  exact (proj1 (H G N)).
Defined.

(** ** The altitude kept by the session *)

Section Altitude.

Import Practice PracticeView.

Variable practiceCards : list Card.

Local Open Scope Q_scope.

Lemma altitudeOk_ext s s' :
  rocketHeight s' = rocketHeight s -> rocketCrashed s' = rocketCrashed s ->
  altitudeOk s -> altitudeOk s'.
Proof. unfold altitudeOk. now intros -> ->. Qed.

Lemma altitudeOk_start s :
  rocketHeight s = 50 -> rocketCrashed s = false -> altitudeOk s.
Proof.
  unfold altitudeOk. intros -> ->. repeat split; try discriminate.
Qed.

Lemma altitudeOk_crash s : altitudeOk (handleRocketCrash s).
Proof. unfold altitudeOk. cbn. repeat split; discriminate. Qed.

(** The altitude and the crashed flag a guess check leaves. *)
Lemma checkGuess_rocket now s c :
  currentCoworker practiceCards s = Some c ->
  let hit := fst (matchGuess c (difficulty s) (guess s))
             || snd (matchGuess c (difficulty s) (guess s)) in
  let h := rocketHeight s in
  rocketHeight (checkGuess practiceCards now s)
  = (if GameMode_eqb (gameMode s) Rocket
     then if hit then Num.min 100 (h + 20) else Num.max 0 (h - 15)
     else h) /\
  rocketCrashed (checkGuess practiceCards now s)
  = (if GameMode_eqb (gameMode s) Rocket && negb hit
        && Num.leb (Num.max 0 (h - 15)) 0
     then true else rocketCrashed s).
Proof.
  intros Hc. unfold checkGuess. rewrite Hc.
  destruct (matchGuess c (difficulty s) (guess s)) as [isCorrect isNick].
  cbn [fst snd]. unfold penalise.
  destruct (isCorrect || isNick), (GameMode_eqb (gameMode s) Rocket),
    (GameMode_eqb (gameMode s) Timed && unset (startTime s));
    cbn [negb andb];
    repeat match goal with
           | |- context [Num.leb (Num.max 0 (rocketHeight ?x - 15)) 0] =>
               lazymatch x with
               | s => fail
               | _ => change (rocketHeight x) with (rocketHeight s)
               end
           end;
    try destruct (Num.leb (Num.max 0 (rocketHeight s - 15)) 0);
    split; reflexivity.
Qed.

Lemma checkGuess_altitude now s :
  rocketCrashed s = false ->
  altitudeOk s -> altitudeOk (checkGuess practiceCards now s).
Proof.
  intros C (L & U & I).
  destruct (currentCoworker practiceCards s) as [c|] eqn:Hc.
  2:{ unfold checkGuess. rewrite Hc. exact (conj L (conj U I)). }
  destruct (checkGuess_rocket now s c Hc) as [EH EC].
  cbv zeta in EH, EC. unfold altitudeOk. rewrite EH, EC. clear EH EC.
  assert (P : 0 < rocketHeight s).
  { apply Qnot_le_lt. intros N. assert (E : rocketHeight s == 0) by lra.
    apply I in E. congruence. }
  set (h := rocketHeight s) in *. rewrite C in *.
  destruct (GameMode_eqb (gameMode s) Rocket); cbn [andb].
  2:{ repeat split; try assumption; apply I. }
  destruct (_ || _); cbn [negb andb].
  - unfold Num.min. destruct (Num.leb 100 (h + 20)) eqn:E.
    + repeat split; try discriminate.
    + apply leb_false_iff in E.
      repeat split; try lra; try discriminate; intros; exfalso; lra.
  - unfold Num.max. destruct (Num.leb 0 (h - 15)) eqn:E.
    + apply leb_iff in E. destruct (Num.leb (h - 15) 0) eqn:F.
      * apply leb_iff in F. repeat split; try lra; intros; lra.
      * apply leb_false_iff in F.
        repeat split; try lra; try discriminate; intros; exfalso; lra.
    + apply leb_false_iff in E. change (Num.leb 0 0) with true.
      repeat split; try lra; try discriminate; reflexivity.
Qed.

Lemma handle_altitude e s :
  altitudeOk s -> altitudeOk (handle practiceCards e s).
Proof.
  intros A.
  assert (G : guessing practiceCards s = true -> rocketCrashed s = false).
  { unfold guessing. intros H. apply andb_true_iff in H as [H _].
    apply Screen_eqb_iff, active_not_complete in H as [H _].
    unfold isSessionComplete in H. now apply orb_false_iff in H. }
  destruct e; cbn [handle].
  - destruct (guessing practiceCards s); [|exact A]. now apply (altitudeOk_ext s).
  - destruct (guessing practiceCards s) eqn:Gs; cbn [andb]; [|exact A].
    destruct (String.eqb key "Enter" && JS.truthy (guess s)); [|exact A].
    apply checkGuess_altitude; auto.
  - destruct (guessing practiceCards s) eqn:Gs; cbn [andb]; [|exact A].
    destruct (negb (checkDisabled s)); [|exact A].
    apply checkGuess_altitude; auto.
  - destruct (guessing practiceCards s); [|exact A]. now apply (altitudeOk_ext s).
  - destruct (currentCoworker practiceCards s); [|exact A].
    destruct (isSessionComplete practiceCards s); [exact A|].
    unfold handleKeyDown. destruct (showAnswer s).
    + destruct (String.eqb key "Enter"); [|exact A].
      destruct (_ || _); [|exact A]. now apply (altitudeOk_ext s).
    + destruct (_ || _); [|exact A]. now apply (altitudeOk_ext s).
  - destruct (correcting practiceCards s); [|exact A]. now apply (altitudeOk_ext s).
  - destruct (_ && _); [|exact A]. now apply (altitudeOk_ext s).
  - destruct (correcting practiceCards s); [|exact A]. now apply (altitudeOk_ext s).
  - destruct (_ && _); [|exact A]. now apply (altitudeOk_ext s).
  - destruct (Screen_eqb _ _); [|exact A]. now apply (altitudeOk_ext s).
  - destruct (Screen_eqb _ _); [|exact A]. unfold handleGameModeChange.
    destruct (negb _); [|exact A]. now apply altitudeOk_start.
  - destruct (Screen_eqb _ _); [|exact A]. now apply (altitudeOk_ext s).
  - destruct (Screen_eqb _ _); [|exact A]. now apply altitudeOk_start.
  - destruct (timers s !! k) as [t|]; [|exact A].
    destruct t; now apply (altitudeOk_ext s).
  - destruct (startTime s); [|exact A]. destruct (_ && _); [|exact A].
    now apply (altitudeOk_ext s).
  - exact A.
Qed.

Lemma notify_altitude effects : forall s,
  altitudeOk s -> altitudeOk (fold_left notify effects s).
Proof.
  induction effects as [|e effects IH]; intros s A; [exact A|].
  cbn [fold_left]. apply IH. destruct e; [apply altitudeOk_crash|exact A].
Qed.

Lemma reachable_altitude v :
  reachable practiceCards v -> altitudeOk (session v).
Proof.
  induction 1 as [|e v R IH]; [now apply altitudeOk_start|].
  destruct e; try (now apply handle_altitude).
  unfold step. destruct (canvas v); [|exact IH].
  destruct (RocketGame.render _ _ _) as [r' effects].
  now apply notify_altitude.
Qed.

End Altitude.

(** X5.  In every view a session can reach, the altitude kept by the view
    lies between 0 and 100, and it is 0 exactly when the rocket has
    crashed. *)
Theorem session_altitude_invariant practiceCards v :
  Practice.reachable practiceCards v ->
  let s := Practice.session v in
  (0 <= rocketHeight s)%Q /\ (rocketHeight s <= 100)%Q /\
  (rocketCrashed s = true <-> (rocketHeight s == 0)%Q).
Proof. intros R. exact (reachable_altitude practiceCards v R). Qed.

(** A hit from altitude 50 in rocket mode. *)
Lemma session_altitude_invariant_witness :
  let omar := {| name := "Omar Sy"; nicknames := None;
                 photo_url := Some "omar.png" |} in
  let lena := {| name := "Lena"; nicknames := None;
                 photo_url := Some "lena.png" |} in
  let v := fst (Practice.run [omar; lena]
                  [Practice.SelectGameMode Rocket (fun _ => (1 # 2)%Q);
                   Practice.ChangeGuess "omar"; Practice.ClickCheck 0]
                  Practice.initial) in
  rocketHeight (Practice.session v) = 70%Q /\
  (rocketHeight (Practice.session v) <= 100)%Q.
Proof.
  intros omar lena v. split; [vm_compute; reflexivity|].
  apply (session_altitude_invariant [omar; lena] v).
  apply reachable_run. constructor.
Defined.

(** ** The clock of timed mode *)

Section ClockIdle.

Import Practice PracticeView.

Variable practiceCards : list Card.

Lemma clockIdle_ext s s' :
  gameMode s' = gameMode s -> startTime s' = startTime s ->
  elapsedTime s' = elapsedTime s -> clockIdle s -> clockIdle s'.
Proof. unfold clockIdle. now intros -> -> ->. Qed.

Lemma clockIdle_reset s :
  startTime s = None -> elapsedTime s = 0%Z -> clockIdle s.
Proof. unfold clockIdle. now intros -> ->. Qed.

(** The start time a guess check leaves. *)
Lemma checkGuess_clock now s :
  gameMode (checkGuess practiceCards now s) = gameMode s /\
  elapsedTime (checkGuess practiceCards now s) = elapsedTime s /\
  (startTime (checkGuess practiceCards now s) = startTime s
   \/ (gameMode s = Timed /\ unset (startTime s) = true
       /\ startTime (checkGuess practiceCards now s) = Some now)).
Proof.
  unfold checkGuess.
  destruct (currentCoworker practiceCards s) as [c|];
    [|split; [reflexivity|split; [reflexivity|left; reflexivity]]].
  destruct (matchGuess c (difficulty s) (guess s)) as [isCorrect isNick].
  unfold penalise.
  destruct (GameMode_eqb (gameMode s) Timed) eqn:T;
    destruct (unset (startTime s)) eqn:U; cbn [andb];
    destruct (isCorrect || isNick);
    destruct (GameMode_eqb (gameMode s) Rocket);
    try destruct (Num.leb _ _);
    (split; [reflexivity|split; [reflexivity|]]);
    first [ left; reflexivity
          | right; split; [now apply GameMode_eqb_iff|split; reflexivity] ].
Qed.

Lemma checkGuess_clockIdle now s :
  clockIdle s -> clockIdle (checkGuess practiceCards now s).
Proof.
  intros I. destruct (checkGuess_clock now s) as (G & E & [S|(T & _ & _)]).
  - now apply (clockIdle_ext s).
  - unfold clockIdle. rewrite G. intros N. now elim N.
Qed.

Lemma handle_clockIdle e s :
  clockIdle s -> clockIdle (handle practiceCards e s).
Proof.
  intros A. destruct e; cbn [handle].
  - destruct (guessing practiceCards s); [|exact A]. now apply (clockIdle_ext s).
  - destruct (_ && _); [|exact A]. now apply checkGuess_clockIdle.
  - destruct (_ && _); [|exact A]. now apply checkGuess_clockIdle.
  - destruct (guessing practiceCards s); [|exact A]. now apply (clockIdle_ext s).
  - destruct (currentCoworker practiceCards s); [|exact A].
    destruct (isSessionComplete practiceCards s); [exact A|].
    unfold handleKeyDown. destruct (showAnswer s).
    + destruct (String.eqb key "Enter"); [|exact A].
      destruct (_ || _); [|exact A]. now apply (clockIdle_ext s).
    + destruct (_ || _); [|exact A]. now apply (clockIdle_ext s).
  - destruct (correcting practiceCards s); [|exact A]. now apply (clockIdle_ext s).
  - destruct (_ && _); [|exact A]. now apply (clockIdle_ext s).
  - destruct (correcting practiceCards s); [|exact A]. now apply (clockIdle_ext s).
  - destruct (_ && _); [|exact A]. now apply (clockIdle_ext s).
  - destruct (Screen_eqb _ _); [|exact A]. now apply (clockIdle_ext s).
  - destruct (Screen_eqb _ _); [|exact A]. unfold handleGameModeChange.
    destruct (negb _); [|exact A]. now apply clockIdle_reset.
  - destruct (Screen_eqb _ _); [|exact A]. now apply (clockIdle_ext s).
  - destruct (Screen_eqb _ _); [|exact A]. now apply clockIdle_reset.
  - destruct (timers s !! k) as [t|]; [|exact A].
    destruct t; now apply (clockIdle_ext s).
  - destruct (startTime s) as [t|] eqn:S; [|exact A].
    destruct (GameMode_eqb (gameMode s) Timed) eqn:G; cbn [andb]; [|exact A].
    destruct (_ && _); [|exact A].
    apply GameMode_eqb_iff in G. unfold clockIdle.
    change (gameMode (setElapsedTime (now - t) s)) with (gameMode s).
    intros N. now elim N.
  - exact A.
Qed.

Lemma notify_clock effects : forall s,
  gameMode (fold_left notify effects s) = gameMode s /\
  startTime (fold_left notify effects s) = startTime s /\
  elapsedTime (fold_left notify effects s) = elapsedTime s.
Proof.
  induction effects as [|e effects IH]; intros s; [now repeat split|].
  cbn [fold_left]. destruct (IH (notify s e)) as (A & B & C).
  rewrite A, B, C. destruct e; repeat split; reflexivity.
Qed.

Lemma reachable_clockIdle v :
  reachable practiceCards v -> clockIdle (session v).
Proof.
  induction 1 as [|e v R IH]; [now apply clockIdle_reset|].
  destruct e; try (now apply handle_clockIdle).
  unfold step. destruct (canvas v); [|exact IH].
  destruct (RocketGame.render _ _ _) as [r' effects]. cbn [fst session].
  destruct (notify_clock effects (session v)) as (A & B & C).
  now apply (clockIdle_ext (session v)).
Qed.

End ClockIdle.

(** X6.  The clock of a session over at least one card.  In every
    reachable view outside timed mode the start time is unset and the
    elapsed time is 0.  Once the session is complete the interval callback
    leaves the elapsed time as it is; a guess check in timed mode starts an
    unstarted clock at the instant of the check and never moves a started
    one; and Reveal never starts it. *)
Theorem timed_clock practiceCards v now :
  0 < length practiceCards ->
  Practice.reachable practiceCards v ->
  let s := Practice.session v in
  (gameMode s <> Timed -> startTime s = None /\ elapsedTime s = 0%Z) /\
  (PracticeView.isSessionComplete practiceCards s = true ->
   Practice.handle practiceCards (Practice.Interval now) s = s) /\
  (forall t, startTime s = Some t -> t <> 0%Z ->
             startTime (PracticeView.checkGuess practiceCards now s) = Some t) /\
  (gameMode s = Timed -> startTime s = None ->
   startTime (PracticeView.checkGuess practiceCards now s) = Some now) /\
  startTime (PracticeView.onClickReveal s) = startTime s.
Proof.
  intros Hn R s. split; [exact (reachable_clockIdle practiceCards v R)|].
  split; [|split; [|split; [|reflexivity]]].
  - intros C. unfold Practice.handle. rewrite C.
    destruct (startTime s); [|reflexivity]. cbn [negb]. now rewrite andb_false_r.
  - intros t S N.
    destruct (checkGuess_clock practiceCards now s) as (_ & _ & [E|(_ & U & _)]).
    + now rewrite E.
    + rewrite S in U. cbn in U. apply Z.eqb_eq in U. contradiction.
  - intros T S.
    destruct (reachable_currentCoworker practiceCards Hn v R) as [c Hc].
    fold s in Hc. unfold PracticeView.checkGuess. rewrite Hc.
    destruct (PracticeView.matchGuess c (difficulty s) (guess s))
      as [isCorrect isNick].
    rewrite T, S. cbn [GameMode_eqb unset andb].
    destruct (isCorrect || isNick); reflexivity.
Qed.

(** A timed session over two cards: the first check, at instant 5000,
    starts the clock. *)
Lemma timed_clock_witness :
  let omar := {| name := "Omar Sy"; nicknames := None;
                 photo_url := Some "omar.png" |} in
  let lena := {| name := "Lena"; nicknames := None;
                 photo_url := Some "lena.png" |} in
  let v := fst (Practice.run [omar; lena]
                  [Practice.SelectGameMode Timed (fun _ => (1 # 2)%Q);
                   Practice.ChangeGuess "omar"]
                  Practice.initial) in
  startTime (PracticeView.checkGuess [omar; lena] 5000 (Practice.session v))
  = Some 5000%Z.
Proof.
  intros omar lena v.
  assert (R : Practice.reachable [omar; lena] v)
    by (apply reachable_run; constructor).
  assert (Hn : 0 < length [omar; lena]) by (cbn; lia).
  pose proof (timed_clock [omar; lena] v 5000%Z Hn R) as (_ & _ & _ & H & _).
  apply H; vm_compute; reflexivity.
Defined.

(** ** Switching the game mode *)

(** X7.  Choosing another game mode restarts the session: the new mode is
    stored, the statistics, the clock, the altitude, the crashed and
    boosting flags and the card state are reset, the cursor is at 0 and the
    order is a fresh permutation of the cards.  The pending timers are not
    cancelled: an auto-advance still waiting from before the switch later
    moves the new session on from its first card.  Choosing the mode
    already in force changes nothing. *)
Theorem mode_change_restarts practiceCards random newMode s :
  let n := length practiceCards in
  let s' := PracticeView.handleGameModeChange practiceCards random newMode s in
  (newMode <> gameMode s ->
   gameMode s' = newMode /\
   stats s' = {| correct := 0; total := 0 |} /\
   startTime s' = None /\ elapsedTime s' = 0%Z /\
   rocketHeight s' = 50%Q /\ rocketCrashed s' = false /\
   rocketBoosting s' = false /\
   currentIndex s' = 0 /\ guess s' = "" /\ feedback s' = None /\
   showAnswer s' = false /\ correctionComplete s' = false /\
   shuffledIndices s' ≡ₚ seq 0 n /\
   timers s' = timers s /\
   (forall k, timers s !! k = Some AutoAdvance ->
              currentIndex (Practice.handle practiceCards (Practice.Timeout k) s')
              = 1 mod n)) /\
  (newMode = gameMode s -> s' = s).
Proof.
  intros n s'. unfold s', PracticeView.handleGameModeChange. split.
  - intros N.
    assert (E : GameMode_eqb newMode (gameMode s) = false).
    { apply not_true_is_false. rewrite GameMode_eqb_iff. exact N. }
    rewrite E. cbn [negb].
    repeat split; try reflexivity.
    + apply shuffled_Permutation.
    + intros k Hk. unfold Practice.handle.
      match goal with
      | |- context [timers ?x !! k] => change (timers x) with (timers s)
      end.
      rewrite Hk. reflexivity.
  - intros ->.
    assert (E : GameMode_eqb (gameMode s) (gameMode s) = true)
      by now apply GameMode_eqb_iff.
    now rewrite E.
Qed.

(** A hit in rocket mode, then a switch to classic before the auto-advance
    fires: the timer is still pending and skips the first card. *)
Lemma mode_change_restarts_witness :
  let card n := {| name := n; nicknames := None; photo_url := Some "p.png" |} in
  let cards := map card ["Ada"; "Bo"; "Cy"] in
  let s := Practice.session
             (fst (Practice.run cards
                     [Practice.SelectGameMode Rocket (fun _ => (1 # 2)%Q);
                      Practice.ChangeGuess "ada"; Practice.ClickCheck 0]
                     Practice.initial)) in
  let s' := PracticeView.handleGameModeChange cards (fun _ => (1 # 2)%Q) Classic s in
  timers s' = [BoostingOff; AutoAdvance] /\
  currentIndex (Practice.handle cards (Practice.Timeout 1) s') = 1.
Proof.
  intros card cards s s'.
  assert (N : Classic <> gameMode s) by (vm_compute; discriminate).
  pose proof (mode_change_restarts cards (fun _ => (1 # 2)%Q) Classic s)
    as [H _].
  destruct (H N) as (_ & _ & _ & _ & _ & _ & _ & _ & _ & _ & _ & _ & _ & T & A).
  split; [vm_compute; reflexivity|].
  assert (P : timers s !! 1 = Some AutoAdvance) by (vm_compute; reflexivity).
  exact (A 1 P).
Defined.

(** ** Stepping through the cards *)

(** X8.  With at least one card and the cursor inside the cards, pressing
    Next Card [k] times moves the cursor [k] places on, wrapping round at
    the last card, so after as many presses as there are cards it is back
    where it was; the statistics are never touched. *)
Theorem nextCard_cycles practiceCards s k :
  0 < length practiceCards ->
  currentIndex s < length practiceCards ->
  let n := length practiceCards in
  let after j := Nat.iter j (PracticeView.nextCard practiceCards) s in
  currentIndex (after k) = (currentIndex s + k) mod n /\
  currentIndex (after n) = currentIndex s /\
  stats (after k) = stats s.
Proof.
  intros Hn Hc n after.
  assert (A : forall j,
             currentIndex (Nat.iter j (PracticeView.nextCard practiceCards) s)
             = (currentIndex s + j) mod n
             /\ stats (Nat.iter j (PracticeView.nextCard practiceCards) s)
                = stats s).
  { induction j as [|j [IH1 IH2]].
    - cbn. split; [|reflexivity]. rewrite Nat.add_0_r.
      symmetry. apply Nat.mod_small. exact Hc.
    - rewrite Nat.iter_succ.
      set (x := Nat.iter j (PracticeView.nextCard practiceCards) s) in *.
      change (currentIndex (PracticeView.nextCard practiceCards x))
        with ((currentIndex x + 1) mod n).
      change (stats (PracticeView.nextCard practiceCards x)) with (stats x).
      split; [|exact IH2].
      rewrite IH1, Nat.Div0.add_mod_idemp_l. f_equal. lia. }
  unfold after. split; [apply A|]. split; [|apply A].
  rewrite (proj1 (A n)).
  replace (currentIndex s + n) with (currentIndex s + 1 * n) by lia.
  rewrite Nat.Div0.mod_add. apply Nat.mod_small. exact Hc.
Qed.

Lemma nextCard_cycles_witness :
  let card n := {| name := n; nicknames := None; photo_url := Some "p.png" |} in
  let cards := map card ["Ada"; "Bo"; "Cy"] in
  currentIndex (Nat.iter 5 (PracticeView.nextCard cards) Practice.initialSession)
  = 2.
Proof.
  intros card cards.
  apply (nextCard_cycles cards Practice.initialSession 5); cbn; lia.
Defined.

(** ** The altitude of the canvas *)

Section CanvasAltitude.

Import RocketGame.

Local Open Scope Q_scope.

Lemma clampDelta_range elapsed :
  0 <= elapsed -> 0 <= clampDelta elapsed /\ clampDelta elapsed <= 0.1.
Proof.
  intros H. unfold clampDelta. destruct (Num.ltb 0.1 elapsed) eqn:E.
  - split; discriminate.
  - apply ltb_false_iff in E. split; assumption.
Qed.

Lemma applyGravity_range p dt h :
  0 <= dt -> dt <= 0.1 -> 0 <= h ->
  let g := fst (applyGravity p dt h) in
  0 <= g /\ g <= h /\ h - 0.8 <= g.
Proof.
  intros D0 D1 H. unfold applyGravity, GRAVITY_RATE.
  destruct (gravityActive p && negb (crashed p)); cbn [fst]; [|lra].
  destruct (Num.leb (h - 8 * dt) 0) eqn:E; cbn [fst].
  - apply leb_iff in E. lra.
  - apply leb_false_iff in E. lra.
Qed.

Lemma applyBoost_range p last g :
  0 <= g -> g <= 100 ->
  let b := fst (applyBoost p last g) in
  g <= b /\ b <= 100.
Proof.
  intros G0 G1. unfold applyBoost.
  destruct (boosting p && negb last); cbn [fst]; [|lra].
  unfold boostMultiplier, BASE_BOOST, BOOST_MULTIPLIER_MAX, BOOST_MULTIPLIER_MIN.
  unfold Num.min.
  destruct (Num.leb 100 (g + 20 * (2.5 - g / 100 * (2.5 - 1.0)))) eqn:E.
  - lra.
  - apply leb_false_iff in E. unfold Qdiv in *.
    change (/ 100) with (1 # 100) in *. lra.
Qed.

Lemma render_range p elapsed r :
  0 <= elapsed -> 0 <= currentHeight r -> currentHeight r <= 100 ->
  let h' := currentHeight (fst (render p elapsed r)) in
  0 <= h' /\ h' <= 100 /\ currentHeight r - 0.8 <= h'.
Proof.
  intros E H0 H1.
  destruct (clampDelta_range elapsed E) as [D0 D1].
  pose proof (applyGravity_range p (clampDelta elapsed) (currentHeight r) D0 D1 H0)
    as (G0 & G1 & G2).
  unfold render.
  destruct (applyGravity p (clampDelta elapsed) (currentHeight r)) as [g crash].
  cbn [fst] in G0, G1, G2.
  pose proof (applyBoost_range p (lastBoosting r) g G0 ltac:(lra)) as (B0 & B1).
  destruct (applyBoost p (lastBoosting r) g) as [b boost].
  cbn [fst currentHeight] in *. lra.
Qed.

End CanvasAltitude.

(** X9.  A frame that starts with the altitude between 0 and 100, after a
    non-negative elapsed time, ends with it between 0 and 100 and at most
    0.8 lower; so does any run of such frames, whatever props they see. *)
Theorem frames_keep_altitude fs r :
  (0 <= RocketGame.currentHeight r)%Q ->
  (RocketGame.currentHeight r <= 100)%Q ->
  Forall (fun f => (0 <= snd f)%Q) fs ->
  let r' := fst (RocketGame.frames fs r) in
  (0 <= RocketGame.currentHeight r')%Q /\
  (RocketGame.currentHeight r' <= 100)%Q /\
  (forall p elapsed,
     (0 <= elapsed)%Q ->
     (RocketGame.currentHeight r - 0.8
      <= RocketGame.currentHeight (fst (RocketGame.render p elapsed r)))%Q).
Proof.
  intros H0 H1 F.
  assert (A : forall fs r,
             (0 <= RocketGame.currentHeight r)%Q ->
             (RocketGame.currentHeight r <= 100)%Q ->
             Forall (fun f => (0 <= snd f)%Q) fs ->
             (0 <= RocketGame.currentHeight (fst (RocketGame.frames fs r)))%Q /\
             (RocketGame.currentHeight (fst (RocketGame.frames fs r)) <= 100)%Q).
  { clear. induction fs as [|[p elapsed] fs IH]; intros r H0 H1 F; [now split|].
    apply Forall_cons_iff in F as [E F]. cbn [snd] in E.
    destruct (render_range p elapsed r E H0 H1) as (R0 & R1 & _).
    cbn [RocketGame.frames].
    destruct (RocketGame.render p elapsed r) as [r1 e1]. cbn [fst] in R0, R1.
    specialize (IH r1 R0 R1 F).
    destruct (RocketGame.frames fs r1) as [r2 e2]. exact IH. }
  destruct (A fs r H0 H1 F) as [A0 A1].
  split; [exact A0|]. split; [exact A1|].
  intros p elapsed E. apply (render_range p elapsed r E H0 H1).
Qed.

Lemma frames_keep_altitude_witness :
  let p := {| RocketGame.rocketHeight := 50; RocketGame.boosting := true;
              RocketGame.crashed := false; RocketGame.gravityActive := true |} in
  let r := {| RocketGame.frameCount := 0; RocketGame.currentHeight := 90;
              RocketGame.visualHeight := 90; RocketGame.lastBoosting := false |} in
  (RocketGame.currentHeight
     (fst (RocketGame.frames [(p, 0.016); (p, 0.5)]%Q r)) <= 100)%Q.
Proof.
  intros p r.
  assert (H0 : (0 <= RocketGame.currentHeight r)%Q) by discriminate.
  assert (H1 : (RocketGame.currentHeight r <= 100)%Q) by discriminate.
  assert (F : Forall (fun f : RocketGame.Props * Q => (0 <= snd f)%Q)
                [(p, 0.016); (p, 0.5)]%Q)
    by (repeat constructor; discriminate).
  exact (proj1 (proj2 (frames_keep_altitude _ r H0 H1 F))).
Defined.

(** ** The visual altitude *)

(** X10.  After a non-negative elapsed time the visual altitude is never
    further from the altitude than before the frame: within 0.1 it is set
    to the altitude, beyond that the gap is multiplied by
    [1 - lerpSpeed * deltaTime], which lies between -0.2 and 1, and the
    gap strictly shrinks when the elapsed time is positive. *)
Theorem visual_gap_shrinks elapsed h v :
  (0 <= elapsed)%Q ->
  let deltaTime := RocketGame.clampDelta elapsed in
  let v' := RocketGame.smoothVisual deltaTime h v in
  (Num.abs (h - v') <= Num.abs (h - v))%Q /\
  (Num.abs (h - v) <= 0.1 -> v' = h)%Q /\
  (0.1 < Num.abs (h - v) ->
   h - v' == (h - v) * (1 - RocketGame.lerpSpeed (h - v) * deltaTime) /\
   -0.2 <= 1 - RocketGame.lerpSpeed (h - v) * deltaTime <= 1)%Q /\
  (0 < elapsed -> 0.1 < Num.abs (h - v) ->
   Num.abs (h - v') < Num.abs (h - v))%Q.
Proof.
  intros E deltaTime v'.
  destruct (clampDelta_range elapsed E) as [D0 D1]. fold deltaTime in D0, D1.
  assert (DP : (0 < elapsed -> 0 < deltaTime)%Q) by apply clampDelta_pos.
  unfold v', RocketGame.smoothVisual.
  destruct (Num.ltb 0.1 (Num.abs (h - v))) eqn:G.
  - apply ltb_iff in G.
    unfold RocketGame.lerpSpeed, RocketGame.LERP_SPEED_UP,
      RocketGame.LERP_SPEED_DOWN.
    unfold Num.abs in G |- *.
    destruct (Num.ltb 0 (h - v)) eqn:S.
    + apply ltb_iff in S.
      assert (N : Num.ltb (h - v) 0 = false) by (apply ltb_false_iff; lra).
      rewrite N in *.
      assert (Q0 : (0 <= (h - v) * deltaTime)%Q) by nra.
      assert (Q1 : ((h - v) * deltaTime <= 0.1 * (h - v))%Q) by nra.
      assert (QP : (0 < elapsed -> 0 < (h - v) * deltaTime)%Q)
        by (intros P; specialize (DP P); nra).
      destruct (Num.ltb (h - (v + (h - v) * 8 * deltaTime)) 0) eqn:M;
        [apply ltb_iff in M|apply ltb_false_iff in M];
        (split; [lra|]); (split; [intros; exfalso; lra|]);
        (split; [intros _; split; [ring|lra]|]);
        intros P _; specialize (QP P); lra.
    + apply ltb_false_iff in S.
      destruct (Num.ltb (h - v) 0) eqn:N;
        [apply ltb_iff in N|apply ltb_false_iff in N; exfalso; lra].
      assert (Q0 : ((h - v) * deltaTime <= 0)%Q) by nra.
      assert (Q1 : (0.1 * (h - v) <= (h - v) * deltaTime)%Q) by nra.
      assert (QP : (0 < elapsed -> (h - v) * deltaTime < 0)%Q)
        by (intros P; specialize (DP P); nra).
      destruct (Num.ltb (h - (v + (h - v) * 12 * deltaTime)) 0) eqn:M;
        [apply ltb_iff in M|apply ltb_false_iff in M];
        (split; [lra|]); (split; [intros; exfalso; lra|]);
        (split; [intros _; split; [ring|lra]|]);
        intros P _; specialize (QP P); lra.
  - apply ltb_false_iff in G.
    assert (Z0 : (h - h == 0)%Q) by ring.
    assert (A0 : (Num.abs (h - h) == 0)%Q).
    { unfold Num.abs. destruct (Num.ltb (h - h) 0); lra. }
    assert (A1 : (0 <= Num.abs (h - v))%Q).
    { unfold Num.abs. destruct (Num.ltb (h - v) 0) eqn:K;
        [apply ltb_iff in K|apply ltb_false_iff in K]; lra. }
    split; [lra|]. split; [reflexivity|].
    split; intros; exfalso; lra.
Qed.

Lemma visual_gap_shrinks_witness :
  (Num.abs (60 - RocketGame.smoothVisual (RocketGame.clampDelta 0.1) 60 50)
   < Num.abs (60 - 50))%Q.
Proof.
  apply (visual_gap_shrinks 0.1%Q 60%Q 50%Q); reflexivity || discriminate.
Defined.

(** ** What the canvas draws *)

Section Display.

Import RocketGame.

Local Open Scope Q_scope.

Lemma displayHeight_range v :
  0 <= displayHeight v /\ displayHeight v <= 100.
Proof.
  unfold displayHeight, Num.max, Num.min.
  destruct (Num.leb 100 v) eqn:A;
    [|apply leb_false_iff in A];
    match goal with |- context [Num.leb 0 ?x] =>
      destruct (Num.leb 0 x) eqn:B end;
    [apply leb_iff in B|apply leb_false_iff in B
    |apply leb_iff in B|apply leb_false_iff in B]; lra.
Qed.


Lemma rem_100 x :
  (0 <= x -> 0 <= Num.rem x 100 /\ Num.rem x 100 < 100) /\
  (x < 0 -> -100 < Num.rem x 100 /\ Num.rem x 100 <= 0).
Proof.
  unfold Num.rem, Num.trunc, Qdiv. change (/ 100) with (1 # 100).
  split; intros H.
  - assert (N : Num.ltb (x * (1 # 100)) 0 = false) by (apply ltb_false_iff; lra).
    rewrite N.
    pose proof (Qfloor_le (x * (1 # 100))) as L.
    pose proof (Qlt_floor (x * (1 # 100))) as U.
    rewrite inject_Z_plus in U. change (inject_Z 1) with 1 in U. lra.
  - assert (N : Num.ltb (x * (1 # 100)) 0 = true) by (apply ltb_iff; lra).
    rewrite N.
    pose proof (Qle_ceiling (x * (1 # 100))) as L.
    pose proof (Qceiling_lt (x * (1 # 100))) as U.
    unfold Z.sub in U. rewrite inject_Z_plus, inject_Z_opp in U.
    change (inject_Z 1) with 1 in U. lra.
Qed.

End Display.

(** X11.  Whatever the visual altitude, the displayed altitude lies
    between 0 and 100 and what is drawn from it stays in its range: the
    rocket between 15% and 80% of the canvas height, the fill of the meter
    inside the bar, the star and cloud opacities between 0 and 1 and
    between 0 and 0.6.  The ground is drawn exactly below an altitude of
    80/3, and whenever it is drawn the clouds are drawn too. *)
Theorem display_stays_in_range visual :
  let d := RocketGame.displayHeight visual in
  (0 <= d <= 100 /\
   0.15 * RocketGame.CANVAS_HEIGHT <= RocketGame.rocketY d
     <= 0.80 * RocketGame.CANVAS_HEIGHT /\
   0 <= RocketGame.fillHeight d <= RocketGame.meterHeight - 2 /\
   0 <= RocketGame.starAlphaMultiplier d <= 1 /\
   0 <= RocketGame.cloudAlpha d <= 0.6)%Q /\
  (RocketGame.groundDrawn d = true <-> (d < 80 / 3)%Q) /\
  (RocketGame.groundDrawn d = true -> RocketGame.cloudsDrawn d = true).
Proof.
  intros d. destruct (displayHeight_range visual) as [D0 D1]. fold d in D0, D1.
  assert (C : (0 <= RocketGame.cloudAlpha d <= 0.6)%Q /\
              ((d < 80 / 3)%Q -> RocketGame.cloudsDrawn d = true)).
  { unfold RocketGame.cloudsDrawn, RocketGame.cloudAlpha, Num.max, Num.min, Qdiv.
    change (/ 50)%Q with (1 # 50)%Q. change (/ 3)%Q with (1 # 3)%Q.
    destruct (Num.leb 0.6 ((50 - d) * (1 # 50) * 0.7)) eqn:A;
      [apply leb_iff in A|apply leb_false_iff in A];
      match goal with |- context [Num.leb 0 ?x] =>
        destruct (Num.leb 0 x) eqn:B end;
      [apply leb_iff in B|apply leb_false_iff in B
      |apply leb_iff in B|apply leb_false_iff in B];
      (split; [lra|]); intros G; apply ltb_iff; lra. }
  destruct C as [C0 C1].
  assert (G : RocketGame.groundDrawn d = true <-> (d < 80 / 3)%Q).
  { unfold RocketGame.groundDrawn, RocketGame.groundScreenY,
      RocketGame.worldOffset, RocketGame.CANVAS_HEIGHT, Qdiv.
    change (/ 3)%Q with (1 # 3)%Q. rewrite ltb_iff. split; intros; lra. }
  split; [|split; [exact G|intros H; apply C1, G, H]].
  split; [split; assumption|].
  split.
  { unfold RocketGame.rocketY, RocketGame.CANVAS_HEIGHT, Qdiv.
    change (/ 100)%Q with (1 # 100)%Q. lra. }
  split.
  { unfold RocketGame.fillHeight, RocketGame.meterHeight, Qdiv.
    change (/ 100)%Q with (1 # 100)%Q. lra. }
  split; [|exact C0].
  unfold RocketGame.starAlphaMultiplier, Num.min, Qdiv.
  change (/ 40)%Q with (1 # 40)%Q.
  destruct (Num.leb 1 (d * (1 # 40))) eqn:A;
    [apply leb_iff in A|apply leb_false_iff in A]; lra.
Qed.



(** X13.  A wrapped star lies in the viewport, whatever its position
    before: the wrapped coordinate is at least 0, below 100, and differs
    from the unwrapped one by a multiple of 100. *)
Theorem wrapStar_in_viewport starY :
  (0 <= RocketGame.wrapStar starY < 100)%Q /\
  exists k : Z, (RocketGame.wrapStar starY == starY + 100 * inject_Z k)%Q.
Proof.
  unfold RocketGame.wrapStar. split.
  - assert (R : (-100 < Num.rem starY 100 < 100)%Q).
    { destruct (rem_100 starY) as [P N].
      destruct (Qlt_le_dec starY 0) as [H|H]; [apply N in H|apply P in H]; lra. }
    apply (rem_100 (Num.rem starY 100 + 100)). lra.
  - unfold Num.rem.
    exists (- Num.trunc (starY / 100)
            - Num.trunc ((starY - 100 * inject_Z (Num.trunc (starY / 100))
                          + 100) / 100) + 1)%Z.
    unfold Z.sub. rewrite !inject_Z_plus, !inject_Z_opp.
    change (inject_Z 1) with 1%Q. ring.
Qed.

(** ** The leaderboard *)

Section LeaderboardFacts.

Import Leaderboard.

Lemma fasterThan_irrefl a : fasterThan a a = false.
Proof.
  destruct a as [x|]; [|reflexivity]. unfold fasterThan.
  rewrite Z.ltb_irrefl. apply andb_false_r.
Qed.

Lemma fasterThan_trans a b c :
  fasterThan a b = true -> fasterThan b c = true -> fasterThan a c = true.
Proof.
  destruct a as [x|], b as [y|], c as [z|]; try discriminate.
  unfold fasterThan. rewrite !andb_true_iff, !Z.ltb_lt.
  intros [[A B] L] [[_ C] M]. repeat split; [assumption..|lia].
Qed.

Lemma beats_code e c :
  Num.ltb (accuracy c) (accuracy e)
  || (Qeq_bool (accuracy e) (accuracy c) && fasterThan (time_ms e) (time_ms c))
  = true <-> beats e c.
Proof.
  unfold beats. rewrite orb_true_iff, andb_true_iff, ltb_iff, Qeq_bool_iff.
  reflexivity.
Qed.

Lemma beats_irrefl e : ~ beats e e.
Proof.
  intros [H|[_ H]]; [exact (Qlt_irrefl _ H)|].
  rewrite fasterThan_irrefl in H. discriminate.
Qed.

Lemma beats_trans p e c : beats p e -> beats e c -> beats p c.
Proof.
  intros [A|[A F]] [B|[B G]].
  - left. eapply Qlt_trans; eassumption.
  - left. rewrite <- B. exact A.
  - left. rewrite A. exact B.
  - right. split; [rewrite A; exact B|eapply fasterThan_trans; eassumption].
Qed.

Lemma GameMode_eqb_refl m : GameMode_eqb m m = true.
Proof. destruct m; reflexivity. Qed.

Lemma bestOf_nil : bestOf [] noBest.
Proof. intros m. constructor. Qed.

Lemma bestOf_set l best e :
  bestOf l best ->
  (forall c, best (game_mode e) = Some c -> beats e c) ->
  bestOf (l ++ [e]) (setBest (game_mode e) e best).
Proof.
  intros I B m. unfold setBest. specialize (I m).
  destruct (GameMode_eqb m (game_mode e)) eqn:N;
    [apply GameMode_eqb_iff in N; subst m
    |assert (N' : m <> game_mode e)
       by (intros K; apply GameMode_eqb_iff in K; congruence)].
  - split; [apply in_or_app; right; left; reflexivity|].
    split; [reflexivity|]. apply Forall_app. split.
    + destruct (best (game_mode e)) as [c|] eqn:C.
      * destruct I as (_ & _ & F). specialize (B c eq_refl).
        eapply Forall_impl; [exact F|]. intros p P M Q. cbn beta in P.
        apply (P M). eapply beats_trans; eassumption.
      * eapply Forall_impl; [exact I|]. intros p P M. contradiction.
    + constructor; [|constructor]. intros _. apply beats_irrefl.
  - destruct (best m) as [c|].
    + destruct I as (A & M & F). split; [apply in_or_app; left; exact A|].
      split; [exact M|]. apply Forall_app. split; [exact F|].
      constructor; [|constructor]. intros E. congruence.
    + apply Forall_app. split; [exact I|].
      constructor; [|constructor]. congruence.
Qed.

Lemma bestOf_keep l best e c :
  bestOf l best -> best (game_mode e) = Some c -> ~ beats e c ->
  bestOf (l ++ [e]) best.
Proof.
  intros I C B m. specialize (I m). destruct (best m) as [b|] eqn:E.
  - destruct I as (A & M & F). split; [apply in_or_app; left; exact A|].
    split; [exact M|]. apply Forall_app. split; [exact F|].
    constructor; [|constructor]. intros G. rewrite <- G in E.
    assert (b = c) as -> by congruence. exact B.
  - apply Forall_app. split; [exact I|]. constructor; [|constructor].
    intros G. rewrite <- G in E. congruence.
Qed.

Lemma bestOf_keepBest l best e :
  bestOf l best -> bestOf (l ++ [e]) (keepBest best e).
Proof.
  intros I. unfold keepBest. destruct (best (game_mode e)) as [c|] eqn:C.
  - destruct (Num.ltb (accuracy c) (accuracy e)
              || (Qeq_bool (accuracy e) (accuracy c)
                  && fasterThan (time_ms e) (time_ms c))) eqn:B.
    + apply beats_code in B. apply bestOf_set; [exact I|].
      intros c' E. rewrite C in E. injection E as <-. exact B.
    + apply (bestOf_keep l best e c I C). rewrite <- beats_code, B. discriminate.
  - apply bestOf_set; [exact I|]. intros c E. congruence.
Qed.

Lemma bestOf_fold l : forall pre best,
  bestOf pre best -> bestOf (pre ++ l) (fold_left keepBest l best).
Proof.
  induction l as [|e l IH]; intros pre best I.
  - rewrite app_nil_r. exact I.
  - cbn [fold_left]. replace (pre ++ e :: l) with ((pre ++ [e]) ++ l)
      by (rewrite <- app_assoc; reflexivity).
    apply IH, bestOf_keepBest, I.
Qed.

Lemma isPersonalBest_code best m a t :
  isPersonalBest (Some best) m a t =
  match best m with
  | None => true
  | Some current =>
      Num.ltb (accuracy current) a
      || (Qeq_bool a (accuracy current) && fasterThan t (time_ms current))
  end.
Proof.
  unfold isPersonalBest. destruct (best m) as [c|]; [|reflexivity].
  destruct (Num.ltb (accuracy c) a); [reflexivity|].
  destruct (Qeq_bool a (accuracy c) && fasterThan t (time_ms c)); reflexivity.
Qed.

End LeaderboardFacts.

(** X14.  The personal bests computed from the rows of a user hold, for a
    mode without rows, nothing, and for any other mode one of the rows of
    that mode, which no row of that mode beats; this whatever the order of
    the rows. *)
Theorem personal_best_is_unbeaten userBest :
  bestOf userBest (fold_left Leaderboard.keepBest userBest Leaderboard.noBest).
Proof. apply (bestOf_fold userBest [] Leaderboard.noBest), bestOf_nil. Qed.

(** X15.  A score that is already among the rows the personal bests were
    computed from is not reported as a new personal best. *)
Theorem stored_score_is_no_personal_best userBest e :
  In e userBest ->
  Leaderboard.isPersonalBest (Leaderboard.fetchPersonalBest userBest)
    (Leaderboard.game_mode e) (Leaderboard.accuracy e) (Leaderboard.time_ms e)
  = false.
Proof.
  intros H.
  pose proof (bestOf_fold userBest [] Leaderboard.noBest bestOf_nil
                (Leaderboard.game_mode e)) as I.
  cbn [app] in I. unfold Leaderboard.fetchPersonalBest.
  destruct userBest as [|x l] eqn:U; [destruct H|]. rewrite <- U in *.
  rewrite isPersonalBest_code.
  destruct (fold_left Leaderboard.keepBest userBest Leaderboard.noBest
              (Leaderboard.game_mode e)) as [b|].
  - destruct I as (_ & _ & F). rewrite Forall_forall in F.
    specialize (F e (proj2 (list_elem_of_In _ _) H) eq_refl).
    rewrite <- beats_code in F.
    destruct (_ || _); [exfalso; apply F; reflexivity|reflexivity].
  - rewrite Forall_forall in I. exfalso.
    exact (I e (proj2 (list_elem_of_In _ _) H) eq_refl).
Qed.

Lemma stored_score_is_no_personal_best_witness :
  let a := {| Leaderboard.game_mode := Timed; Leaderboard.accuracy := 90;
              Leaderboard.time_ms := Some 41000%Z |} in
  let b := {| Leaderboard.game_mode := Timed; Leaderboard.accuracy := 90;
              Leaderboard.time_ms := Some 38000%Z |} in
  Leaderboard.isPersonalBest (Leaderboard.fetchPersonalBest [a; b])
    Timed 90 (Some 41000%Z) = false.
Proof.
  intros a b. apply (stored_score_is_no_personal_best [a; b] a).
  left. reflexivity.
Defined.

(** X16.  [isPersonalBest] announces what the grouping of the rows does
    with the score: for a row it reports as a personal best, the grouping
    replaces the best of the mode by that row, and for any other row the
    grouping leaves the table as it is. *)
Theorem isPersonalBest_agrees_with_keepBest best e :
  if Leaderboard.isPersonalBest (Some best) (Leaderboard.game_mode e)
       (Leaderboard.accuracy e) (Leaderboard.time_ms e)
  then Leaderboard.keepBest best e (Leaderboard.game_mode e) = Some e
  else Leaderboard.keepBest best e = best.
Proof.
  rewrite isPersonalBest_code. unfold Leaderboard.keepBest.
  destruct (best (Leaderboard.game_mode e)) as [c|].
  - destruct (_ || _).
    + unfold Leaderboard.setBest. rewrite GameMode_eqb_refl. reflexivity.
    + reflexivity.
  - unfold Leaderboard.setBest. rewrite GameMode_eqb_refl. reflexivity.
Qed.

Section Rank.

Lemma findIndex_Some {A} (p : A -> bool) l i :
  PracticeView.findIndex p l = Some i ->
  i < length l /\ exists x, l !! i = Some x /\ p x = true.
Proof.
  revert i. induction l as [|x l IH]; intros i; [discriminate|].
  cbn [PracticeView.findIndex]. destruct (p x) eqn:P.
  - intros [= <-]. split; [cbn; lia|]. exists x. split; [reflexivity|exact P].
  - destruct (PracticeView.findIndex p l) as [j|]; [|discriminate].
    intros [= <-]. destruct (IH j eq_refl) as (L & y & Y & Q).
    split; [cbn; lia|]. exists y. split; [exact Y|exact Q].
Qed.

Lemma filter_sublist {A} (p : A -> bool) l : sublist (List.filter p l) l.
Proof.
  induction l as [|x l IH]; [constructor|].
  cbn [List.filter]. destruct (p x); constructor; exact IH.
Qed.

Lemma filter_length_le {A} (p : A -> bool) l :
  length (List.filter p l) <= length l.
Proof. apply sublist_length, filter_sublist. Qed.

End Rank.

(** X17.  The entries shown for a mode are at most ten, all of that mode,
    in the order of the leaderboard; the rank computed from them is at
    least 1 and at most one more than their number, so at most 11. *)
Theorem rank_is_within_the_shown_entries entries mode s :
  let shown := Leaderboard.getEntriesByMode entries mode in
  length shown <= 10 /\
  Forall (fun e => Leaderboard.game_mode e = mode) shown /\
  sublist shown entries /\
  1 <= PracticeView.leaderboardRank shown s <= length shown + 1.
Proof.
  intros shown.
  assert (S1 : sublist shown
                 (List.filter (fun e => GameMode_eqb (Leaderboard.game_mode e) mode)
                    entries)) by apply sublist_take.
  split; [apply List.firstn_le_length|]. split; [|split].
  - apply Forall_forall. intros e H.
    apply (elem_of_sublist _ _ _ H), list_elem_of_In in S1.
    apply List.filter_In in S1 as [_ M]. apply GameMode_eqb_iff, M.
  - etransitivity; [exact S1|apply filter_sublist].
  - unfold PracticeView.leaderboardRank.
    destruct (PracticeView.findIndex _ shown) as [i|] eqn:F.
    + apply findIndex_Some in F as [L _]. lia.
    + pose proof (filter_length_le
                    (PracticeView.betterScore s (PracticeView.percentage (stats s)))
                    shown). lia.
Qed.

(** ** The guess check of the first application *)

(** X18.  The guess check of [App] knows no nicknames: on a card and a
    guess that the practice view classifies as correct or incorrect, both
    store that feedback and the same statistics, and a guess that the
    practice view accepts as a nickname is stored as incorrect by [App],
    with one correct answer less; both count the attempt and show the
    answer. *)
Theorem App_checkGuess_ignores_nicknames practiceCards now s c :
  PracticeView.currentCoworker practiceCards s = Some c ->
  let a := App.checkGuess practiceCards s in
  let p := PracticeView.checkGuess practiceCards now s in
  total (stats a) = total (stats p) /\
  showAnswer a = showAnswer p /\
  match PracticeView.classify c (difficulty s) (guess s) with
  | Nickname =>
      feedback a = Some Incorrect /\ feedback p = Some Nickname /\
      correct (stats p) = correct (stats a) + 1
  | f =>
      feedback a = Some f /\ feedback p = Some f /\
      correct (stats a) = correct (stats p)
  end.
Proof.
  intros Hc a p. unfold a, p, App.checkGuess, PracticeView.checkGuess.
  change (App.currentCoworker practiceCards s)
    with (PracticeView.currentCoworker practiceCards s).
  rewrite Hc. unfold PracticeView.classify, App.isCorrect, PracticeView.matchGuess.
  destruct (String.eqb _ _); cbn [negb andb orb];
    [|destruct (Difficulty_eqb (difficulty s) First && JS.includes _ _)];
    unfold PracticeView.penalise;
    destruct (GameMode_eqb (gameMode s) Rocket),
      (GameMode_eqb (gameMode s) Timed && unset (startTime s));
    try destruct (Num.leb _ _);
    repeat split; first [reflexivity | cbn -[Nat.add]; lia].
Qed.

Lemma App_checkGuess_ignores_nicknames_witness :
  let cards := [{| name := "Robert Stone"; nicknames := Some ["Bob"];
                   photo_url := Some "a.png" |}] in
  let s := setGuess "bob" Practice.initialSession in
  feedback (App.checkGuess cards s) = Some Incorrect /\
  feedback (PracticeView.checkGuess cards 0%Z s) = Some Nickname.
Proof.
  intros cards s.
  assert (Hc : PracticeView.currentCoworker cards s
               = Some {| name := "Robert Stone"; nicknames := Some ["Bob"];
                         photo_url := Some "a.png" |})
    by (vm_compute; reflexivity).
  pose proof (App_checkGuess_ignores_nicknames cards 0%Z s _ Hc) as (_ & _ & H).
  assert (K : PracticeView.classify
                {| name := "Robert Stone"; nicknames := Some ["Bob"];
                   photo_url := Some "a.png" |} (difficulty s) (guess s)
              = Nickname) by (vm_compute; reflexivity).
  rewrite K in H. destruct H as (A & B & _). split; assumption.
Defined.

(** ** Parsing names *)

Section Trim.

Import JS.

Lemma trimEnd_idem s : trimEnd (trimEnd s) = trimEnd s.
Proof.
  induction s as [|c r IH]; [reflexivity|].
  cbn [trimEnd]. destruct (trimEnd r) as [|c' r'] eqn:E.
  - destruct (isSpace c) eqn:S; [reflexivity|]. cbn [trimEnd]. rewrite S.
    reflexivity.
  - cbn [trimEnd] in IH |- *. rewrite IH. reflexivity.
Qed.

Lemma trimStart_head s :
  match trimStart s with
  | EmptyString => True
  | String c _ => isSpace c = false
  end.
Proof.
  induction s as [|c r IH]; [exact I|].
  cbn [trimStart]. destruct (isSpace c) eqn:S; [exact IH|exact S].
Qed.

Lemma trimStart_trimEnd s :
  match s with EmptyString => True | String c _ => isSpace c = false end ->
  trimStart (trimEnd s) = trimEnd s.
Proof.
  destruct s as [|c r]; [reflexivity|]. intros S.
  cbn [trimEnd]. destruct (trimEnd r); [rewrite S|]; cbn [trimStart];
    rewrite S; reflexivity.
Qed.

Lemma trim_idem s : trim (trim s) = trim s.
Proof.
  unfold trim. rewrite (trimStart_trimEnd _ (trimStart_head s)).
  apply trimEnd_idem.
Qed.

Lemma allChars_trimStart p s :
  allChars p s = true -> allChars p (trimStart s) = true.
Proof.
  induction s as [|c r IH]; [reflexivity|].
  cbn [trimStart allChars]. intros H. apply andb_true_iff in H as [A B].
  destruct (isSpace c); [apply IH, B|]. cbn [allChars]. rewrite A, B. reflexivity.
Qed.

Lemma allChars_trimEnd p s :
  allChars p s = true -> allChars p (trimEnd s) = true.
Proof.
  induction s as [|c r IH]; [reflexivity|].
  cbn [trimEnd allChars]. intros H. apply andb_true_iff in H as [A B].
  specialize (IH B). destruct (trimEnd r) as [|c' r'].
  - destruct (isSpace c); [reflexivity|]. cbn [allChars]. rewrite A. reflexivity.
  - cbn [allChars] in IH |- *. rewrite A, IH. reflexivity.
Qed.

Lemma allChars_trim p s : allChars p s = true -> allChars p (trim s) = true.
Proof. intros H. apply allChars_trimEnd, allChars_trimStart, H. Qed.

End Trim.

Section Unique.

Import ParseNames.

Lemma uniqueFrom_In seen l x :
  In x (uniqueFrom seen l) <-> In x l /\ ~ In x seen.
Proof.
  revert seen. induction l as [|y l IH]; intros seen; [cbn; tauto|].
  cbn [uniqueFrom]. destruct (JS.includes seen y) eqn:E.
  - apply includes_iff in E. rewrite IH. cbn [In]. split.
    + intros [A B]. tauto.
    + intros [[->|A] B]; [contradiction|tauto].
  - assert (N : ~ In y seen) by (rewrite <- includes_iff, E; discriminate).
    cbn [In]. rewrite IH. cbn [In]. split.
    + intros [->|[A B]]; [tauto|]. split; [tauto|]. intros K. apply B. tauto.
    + intros [[->|A] B]; [left; reflexivity|].
      destruct (string_dec y x) as [->|D]; [left; reflexivity|].
      right. split; [exact A|]. intros [K|K]; [exact (D K)|exact (B K)].
Qed.

Lemma uniqueFrom_NoDup seen l : List.NoDup (uniqueFrom seen l).
Proof.
  revert seen. induction l as [|y l IH]; intros seen; [constructor|].
  cbn [uniqueFrom]. destruct (JS.includes seen y); [apply IH|].
  constructor; [|apply IH]. rewrite uniqueFrom_In. cbn [In]. tauto.
Qed.

Lemma uniqueFrom_id seen l :
  List.NoDup l -> (forall x, In x l -> ~ In x seen) -> uniqueFrom seen l = l.
Proof.
  revert seen. induction l as [|y l IH]; intros seen N D; [reflexivity|].
  cbn [uniqueFrom]. apply List.NoDup_cons_iff in N as [Y N].
  assert (E : JS.includes seen y = false).
  { destruct (JS.includes seen y) eqn:E; [|reflexivity].
    apply includes_iff in E. exfalso. apply (D y); [left; reflexivity|exact E]. }
  rewrite E. f_equal. apply IH; [exact N|].
  intros x A [<-|B]; [exact (Y A)|]. apply (D x); [right; exact A|exact B].
Qed.

Lemma unique_In l x : In x (unique l) <-> In x l.
Proof. unfold unique. rewrite uniqueFrom_In. cbn [In]. tauto. Qed.

End Unique.

Section PlainText.

Import ParseNames.

Lemma splitLines_cons text : exists piece pieces, splitLines text = piece :: pieces.
Proof.
  induction text as [|c r (piece & pieces & E)]; [eexists _, _; reflexivity|].
  cbn [splitLines]. rewrite E. destruct (isSeparator c).
  - destruct (startsWithSeparator r); eexists _, _; reflexivity.
  - eexists _, _; reflexivity.
Qed.

Lemma splitLines_noSeparator text :
  Forall (fun piece => noSeparator piece = true) (splitLines text).
Proof.
  induction text as [|c r IH]; [repeat constructor|].
  cbn [splitLines]. destruct (isSeparator c) eqn:S.
  - destruct (startsWithSeparator r); [exact IH|]. constructor; [reflexivity|exact IH].
  - destruct (splitLines r) as [|piece pieces].
    + constructor; [|constructor]. unfold noSeparator. cbn [allChars].
      rewrite S. reflexivity.
    + apply Forall_cons_iff in IH as [A B]. constructor; [|exact B].
      unfold noSeparator in A |- *. cbn [allChars]. rewrite S, A. reflexivity.
Qed.

Lemma append_cons c (s t : string) :
  (String c s ++ t)%string = String c (s ++ t)%string.
Proof. reflexivity. Qed.

Lemma append_nil (t : string) : (EmptyString ++ t)%string = t.
Proof. reflexivity. Qed.

Lemma append_empty_r (s : string) : (s ++ EmptyString)%string = s.
Proof.
  induction s as [|c s IH]; [reflexivity|]. rewrite append_cons, IH. reflexivity.
Qed.

Lemma splitLines_app piece text first rest :
  noSeparator piece = true ->
  splitLines text = first :: rest ->
  splitLines (piece ++ text)%string = (piece ++ first)%string :: rest.
Proof.
  intros N E. induction piece as [|c r IH]; [rewrite !append_nil; exact E|].
  unfold noSeparator in N. cbn [allChars] in N.
  apply andb_true_iff in N as [S N]. apply negb_true_iff in S.
  rewrite !append_cons. cbn [splitLines]. rewrite S, (IH N). reflexivity.
Qed.

Lemma splitLines_piece piece :
  noSeparator piece = true -> splitLines piece = [piece].
Proof.
  intros N. rewrite <- (append_empty_r piece) at 1.
  rewrite (splitLines_app piece EmptyString EmptyString [] N eq_refl).
  rewrite append_empty_r. reflexivity.
Qed.

Lemma joinWith_head sep x y l :
  joinWith sep (x :: y :: l) = (x ++ String sep (joinWith sep (y :: l)))%string.
Proof. reflexivity. Qed.

Lemma joinWith_start sep x l :
  x <> EmptyString -> noSeparator x = true ->
  startsWithSeparator (joinWith sep (x :: l)) = false.
Proof.
  intros E N. destruct x as [|c r]; [congruence|].
  unfold noSeparator in N. cbn [allChars] in N.
  apply andb_true_iff in N as [S _]. apply negb_true_iff in S.
  destruct l; [exact S|]. rewrite joinWith_head, append_cons. exact S.
Qed.

Lemma splitLines_joinWith sep l :
  isSeparator sep = true -> l <> [] ->
  Forall (fun x => x <> EmptyString /\ noSeparator x = true) l ->
  splitLines (joinWith sep l) = l.
Proof.
  intros S. induction l as [|x l IH]; [congruence|]. intros _ F.
  apply Forall_cons_iff in F as [[E N] F].
  destruct l as [|y l]; [apply splitLines_piece, N|].
  rewrite joinWith_head.
  assert (T : splitLines (String sep (joinWith sep (y :: l)))
              = EmptyString :: y :: l).
  { cbn [splitLines]. rewrite S.
    pose proof F as F'. apply Forall_cons_iff in F' as [[Ey Ny] _].
    rewrite (joinWith_start sep y l Ey Ny). rewrite IH; [reflexivity|congruence|exact F]. }
  rewrite (splitLines_app x _ _ _ N T), append_empty_r. reflexivity.
Qed.

Lemma keepLine_iff line :
  keepLine line = true <-> 0 < String.length line < 100.
Proof.
  unfold keepLine. rewrite andb_true_iff, !Nat.ltb_lt. reflexivity.
Qed.

End PlainText.

(** X19.  Whatever the text, the names the plain-text parser returns are
    pairwise distinct, and each is not empty, shorter than 100 characters,
    trimmed and free of newlines and commas; it returns no photo. *)
Theorem parsePlainText_names_are_clean text :
  let result := ParseNames.parsePlainText text in
  List.NoDup (ParseNames.names result) /\
  Forall cleanName (ParseNames.names result) /\
  ParseNames.imageUrls result = ∅.
Proof.
  cbn zeta. unfold ParseNames.parsePlainText. cbn [ParseNames.names ParseNames.imageUrls].
  split; [apply uniqueFrom_NoDup|]. split; [|reflexivity].
  apply List.Forall_forall. intros n H.
  apply unique_In, List.filter_In in H as [H K].
  apply List.in_map_iff in H as (line & <- & H).
  pose proof (splitLines_noSeparator text) as F.
  rewrite List.Forall_forall in F. specialize (F line H).
  split; [apply keepLine_iff, K|]. split; [apply trim_idem|].
  apply allChars_trim, F.
Qed.

(** X20.  The plain-text parser gives back a list of names that was
    joined with newlines, or with commas: for distinct clean names, the
    names parsed from the joined text are the list itself. *)
Theorem parsePlainText_of_joined_names sep l :
  ParseNames.isSeparator sep = true ->
  List.NoDup l -> Forall cleanName l ->
  ParseNames.names (ParseNames.parsePlainText (joinWith sep l)) = l.
Proof.
  intros S N C. unfold ParseNames.parsePlainText. cbn [ParseNames.names].
  destruct l as [|x l']; [reflexivity|]. set (l := x :: l') in *.
  rewrite (splitLines_joinWith sep l S); [|discriminate|].
  - assert (M : map JS.trim l = l).
    { clear -C. induction C as [|y l (_ & T & _) _ IH]; [reflexivity|].
      cbn [map]. rewrite T, IH. reflexivity. }
    rewrite M.
    assert (K : List.filter ParseNames.keepLine l = l).
    { clear -C. induction C as [|y l (L & _) _ IH]; [reflexivity|].
      cbn [List.filter]. apply keepLine_iff in L. rewrite L, IH. reflexivity. }
    rewrite K. apply uniqueFrom_id; [exact N|]. intros ? _ [].
  - eapply Forall_impl; [exact C|]. intros y (L & _ & P). split; [|exact P].
    intros ->. cbn in L. lia.
Qed.

Lemma parsePlainText_of_joined_names_witness :
  ParseNames.names
    (ParseNames.parsePlainText (joinWith ","%char ["Ada Lovelace"; "Alan Turing"]))
  = ["Ada Lovelace"; "Alan Turing"].
Proof.
  apply (parsePlainText_of_joined_names ","%char ["Ada Lovelace"; "Alan Turing"]).
  - reflexivity.
  - repeat constructor; cbn; intuition discriminate.
  - repeat constructor; cbn; lia.
Defined.

Section CommonKeys.

Import ParseNames.

Lemma truthy_iff s : JS.truthy s = true <-> s <> EmptyString.
Proof. destruct s; cbn; split; congruence. Qed.

Lemma extractNameFrom_trimmed fields obj n :
  extractNameFrom fields obj = Some n -> JS.trim n = n.
Proof.
  induction fields as [|field rest IH]; [discriminate|].
  cbn [extractNameFrom]. destruct (get obj field) as [[| | |s| |]|]; try exact IH.
  destruct (JS.truthy s); [|exact IH]. intros [= <-]. apply trim_idem.
Qed.

Lemma extractPhotoUrlFrom_http fields obj url :
  extractPhotoUrlFrom fields obj = Some url -> startsWithHttp url = true.
Proof.
  induction fields as [|field rest IH]; [discriminate|].
  cbn [extractPhotoUrlFrom].
  destruct (get obj field) as [[| | |s| |]|]; try exact IH.
  destruct (JS.truthy s && startsWithHttp s) eqn:E; [|exact IH].
  intros [= <-]. apply andb_true_iff in E as [_ E]. exact E.
Qed.

Lemma firstNested_Some {A} (search : JSON -> option A) vs result :
  firstNested search vs = Some result ->
  exists fields, In (JObject fields) vs /\ search (JObject fields) = Some result.
Proof.
  induction vs as [|v vs IH]; [discriminate|].
  cbn [firstNested]. destruct v as [| | | | |fields];
    try (intros H; destruct (IH H) as (f & I & E); exists f;
         split; [right; exact I|exact E]).
  destruct (search (JObject fields)) as [r|] eqn:E.
  - intros [= <-]. exists fields. split; [left; reflexivity|exact E].
  - intros H. destruct (IH H) as (f & I & E'). exists f.
    split; [right; exact I|exact E'].
Qed.

Lemma extractName_trimmed obj n : extractName obj = Some n -> JS.trim n = n.
Proof. apply extractNameFrom_trimmed. Qed.

Lemma extractPhotoUrl_http obj url :
  extractPhotoUrl obj = Some url -> startsWithHttp url = true.
Proof. apply extractPhotoUrlFrom_http. Qed.

Lemma photoFromNested_S levels obj :
  photoFromNested (S levels) obj =
  if negb (isObjectLike obj) then None
  else match extractPhotoUrl obj with
       | Some photo => Some photo
       | None => firstNested (photoFromNested levels) (values obj)
       end.
Proof. reflexivity. Qed.

Lemma fromNested_S levels obj :
  fromNested (S levels) obj =
  if negb (isObjectLike obj) then None
  else match truthyName (extractName obj) with
       | Some name =>
           Some (name, match extractPhotoUrl obj with
                       | Some photo => Some photo
                       | None => extractPhotoFromNested obj 0
                       end)
       | None => firstNested (fromNested levels) (values obj)
       end.
Proof. reflexivity. Qed.

Lemma photoFromNested_http levels : forall obj url,
  photoFromNested levels obj = Some url -> startsWithHttp url = true.
Proof.
  induction levels as [|levels IH]; intros obj url; [discriminate|].
  rewrite photoFromNested_S. destruct (negb (isObjectLike obj)); [discriminate|].
  destruct (extractPhotoUrl obj) as [photo|] eqn:E.
  - intros [= <-]. exact (extractPhotoUrl_http _ _ E).
  - intros H. apply firstNested_Some in H as (fields & _ & H). exact (IH _ _ H).
Qed.

Lemma fromNested_result levels : forall obj n photoUrl,
  fromNested levels obj = Some (n, photoUrl) ->
  (n <> EmptyString /\ JS.trim n = n) /\
  (forall url, photoUrl = Some url -> startsWithHttp url = true).
Proof.
  induction levels as [|levels IH]; intros obj n photoUrl; [discriminate|].
  rewrite fromNested_S. destruct (negb (isObjectLike obj)); [discriminate|].
  destruct (extractName obj) as [name|] eqn:E; unfold truthyName.
  - destruct (JS.truthy name) eqn:T.
    + intros [= <- <-]. split.
      * split; [apply truthy_iff, T|exact (extractName_trimmed _ _ E)].
      * intros url. destruct (extractPhotoUrl obj) as [photo|] eqn:P.
        -- intros [= <-]. exact (extractPhotoUrl_http _ _ P).
        -- apply photoFromNested_http.
    + intros H. apply firstNested_Some in H as (fields & _ & H). exact (IH _ _ _ H).
  - intros H. apply firstNested_Some in H as (fields & _ & H). exact (IH _ _ _ H).
Qed.

Lemma wellFormed_noNames : wellFormed noNames.
Proof.
  split; [constructor|]. intros n url H. cbn [imageUrls noNames] in H.
  rewrite lookup_empty in H. discriminate.
Qed.

Lemma wellFormed_addResult acc n photoUrl :
  wellFormed acc ->
  n <> EmptyString /\ JS.trim n = n ->
  (forall url, photoUrl = Some url -> startsWithHttp url = true) ->
  wellFormed (addResult (Some (n, photoUrl)) acc).
Proof.
  intros [F M] G P. unfold addResult. split; cbn [names imageUrls].
  - apply Forall_app. split; [exact F|]. constructor; [exact G|constructor].
  - intros k url H.
    assert (K : imageUrls acc !! k = Some url \/
                (k = n /\ photoUrl = Some url)).
    { destruct photoUrl as [u|]; [|left; exact H].
      destruct (JS.truthy u); [|left; exact H].
      apply lookup_insert_Some in H as [[<- <-]|[_ H]];
        [right; split; reflexivity|left; exact H]. }
    destruct K as [K|[-> K]].
    + destruct (M k url K) as [A B]. split; [apply in_or_app; left; exact A|exact B].
    + split; [apply in_or_app; right; left; reflexivity|exact (P url K)].
Qed.

Lemma wellFormed_extract acc item :
  wellFormed acc -> wellFormed (addResult (extractFromNested item 0) acc).
Proof.
  intros C. destruct (extractFromNested item 0) as [[n photoUrl]|] eqn:E;
    [|exact C].
  destruct (fromNested_result _ _ _ _ E) as [G P].
  exact (wellFormed_addResult acc n photoUrl C G P).
Qed.

Lemma wellFormed_addItem acc item : wellFormed acc -> wellFormed (addItem acc item).
Proof.
  intros C. destruct item as [| | |s|items|fields]; cbn [addItem]; try exact C;
    try (apply wellFormed_extract, C).
  destruct (JS.truthy (JS.trim s)) eqn:T; [|exact C].
  destruct C as [F M]. split; cbn [names imageUrls].
  - apply Forall_app. split; [exact F|].
    constructor; [|constructor]. split; [apply truthy_iff, T|apply trim_idem].
  - intros k url H. destruct (M k url H) as [A B].
    split; [apply in_or_app; left; exact A|exact B].
Qed.

Lemma wellFormed_fold items : forall acc,
  wellFormed acc -> wellFormed (fold_left addItem items acc).
Proof.
  induction items as [|item items IH]; intros acc C; [exact C|].
  cbn [fold_left]. apply IH, wellFormed_addItem, C.
Qed.

Lemma wellFormed_unique acc :
  wellFormed acc ->
  wellFormed {| names := unique (names acc); imageUrls := imageUrls acc |} /\
  List.NoDup (unique (names acc)).
Proof.
  intros [F M]. split; [|apply uniqueFrom_NoDup].
  split; cbn [names imageUrls].
  - apply List.Forall_forall. intros n H. apply (proj1 (unique_In _ _)) in H.
    rewrite List.Forall_forall in F. exact (F n H).
  - intros n url H. destruct (M n url H) as [A B].
    split; [apply unique_In, A|exact B].
Qed.

Lemma addResult_NoDup result :
  List.NoDup (names (addResult result noNames)).
Proof.
  destruct result as [[n photoUrl]|]; cbn [addResult names noNames app];
    repeat constructor. intros [].
Qed.

End CommonKeys.

(** X21.  Whatever JSON value the common-keys parser is given, the names
    it returns are pairwise distinct, not empty and trimmed, and every
    photo it returns is stored under one of these names and is a URL that
    starts with [http]. *)
Theorem parseWithCommonKeys_is_well_formed parsed :
  let result := ParseNames.parseWithCommonKeys parsed in
  wellFormed result /\ List.NoDup (ParseNames.names result).
Proof.
  cbn zeta. unfold ParseNames.parseWithCommonKeys.
  assert (A : forall items,
            wellFormed
              {| ParseNames.names :=
                   ParseNames.unique
                     (ParseNames.names
                        (fold_left ParseNames.addItem items ParseNames.noNames));
                 ParseNames.imageUrls :=
                   ParseNames.imageUrls
                     (fold_left ParseNames.addItem items ParseNames.noNames) |} /\
            List.NoDup
              (ParseNames.unique
                 (ParseNames.names
                    (fold_left ParseNames.addItem items ParseNames.noNames)))).
  { intros items. apply wellFormed_unique, wellFormed_fold, wellFormed_noNames. }
  assert (B : forall item,
            wellFormed
              (ParseNames.addResult (ParseNames.extractFromNested item 0)
                 ParseNames.noNames) /\
            List.NoDup
              (ParseNames.names
                 (ParseNames.addResult (ParseNames.extractFromNested item 0)
                    ParseNames.noNames))).
  { intros item. split; [|apply addResult_NoDup].
    exact (wellFormed_extract _ item wellFormed_noNames). }
  destruct parsed as [| | | |items|fields]; try apply B; [apply A|].
  destruct (ParseNames.get (ParseNames.JObject fields) "data")
    as [[| | | |data|]|]; try apply B. apply A.
Qed.

Section Depth.

Import ParseNames.

Lemma nest_object key depth fields :
  exists fields', nest key depth (JObject fields) = JObject fields'.
Proof. destruct depth; eexists; reflexivity. Qed.

Lemma extractNameFrom_wrapper fields key inner :
  extractNameFrom fields (JObject [(key, JObject inner)]) = None.
Proof.
  induction fields as [|field rest IH]; [reflexivity|].
  cbn [extractNameFrom get assoc]. destruct (String.eqb key field); exact IH.
Qed.

Lemma extractPhotoUrlFrom_wrapper fields key inner :
  extractPhotoUrlFrom fields (JObject [(key, JObject inner)]) = None.
Proof.
  induction fields as [|field rest IH]; [reflexivity|].
  cbn [extractPhotoUrlFrom get assoc]. destruct (String.eqb key field); exact IH.
Qed.

Lemma firstNested_one {A} (search : JSON -> option A) fields :
  firstNested search [JObject fields] = search (JObject fields).
Proof. cbn [firstNested]. destruct (search (JObject fields)); reflexivity. Qed.

Lemma firstNested_string {A} (search : JSON -> option A) s vs :
  firstNested search (JString s :: vs) = firstNested search vs.
Proof. reflexivity. Qed.

Lemma trim_truthy n : JS.trim n <> EmptyString -> JS.truthy n = true.
Proof. destruct n; [intros H; exfalso; apply H|]; reflexivity. Qed.

Lemma http_truthy url : startsWithHttp url = true -> JS.truthy url = true.
Proof. destruct url; [discriminate|reflexivity]. Qed.

Lemma name_not_photo : ~ In "name" PHOTO_FIELDS.
Proof. unfold PHOTO_FIELDS. cbn [In]. intuition discriminate. Qed.

Lemma extractPhotoUrlFrom_name fields n :
  ~ In "name" fields ->
  extractPhotoUrlFrom fields (JObject [("name", JString n)]) = None.
Proof.
  induction fields as [|field rest IH]; [reflexivity|]. intros N.
  cbn [extractPhotoUrlFrom get assoc].
  assert (E : ("name" =? field)%string = false).
  { apply String.eqb_neq. intros <-. apply N. left. reflexivity. }
  rewrite E. apply IH. intros K. apply N. right. exact K.
Qed.

Lemma extractName_named n more :
  JS.truthy n = true ->
  extractName (JObject (("name", JString n) :: more)) = Some (JS.trim n).
Proof.
  intros T. unfold extractName, NAME_FIELDS.
  generalize ["full_name"; "fullName"; "display_name"; "displayName";
              "real_name"; "realName"].
  intros rest. cbn [extractNameFrom get assoc].
  change ("name" =? "name")%string with true. cbv iota. rewrite T. reflexivity.
Qed.

Lemma fromNested_person levels n :
  JS.trim n <> EmptyString ->
  fromNested (S levels) (JObject [("name", JString n)]) = Some (JS.trim n, None).
Proof.
  intros T. rewrite fromNested_S.
  rewrite (extractName_named n [] (trim_truthy n T)). unfold truthyName.
  assert (U : JS.truthy (JS.trim n) = true) by (apply truthy_iff, T).
  rewrite U.
  assert (P : extractPhotoUrlFrom PHOTO_FIELDS (JObject [("name", JString n)])
              = None) by apply extractPhotoUrlFrom_name, name_not_photo.
  cbn [isObjectLike negb]. unfold extractPhotoUrl. rewrite P.
  unfold extractPhotoFromNested. change (4 - 0) with 4.
  rewrite photoFromNested_S. unfold extractPhotoUrl. rewrite P. reflexivity.
Qed.

Lemma fromNested_nest key n depth : forall levels,
  JS.trim n <> EmptyString ->
  fromNested levels (nest key depth (JObject [("name", JString n)]))
  = if depth <? levels then Some (JS.trim n, None) else None.
Proof.
  induction depth as [|depth IH]; intros levels T.
  - destruct levels; [reflexivity|]. apply fromNested_person, T.
  - destruct levels as [|levels]; [reflexivity|].
    change (S depth <? S levels) with (depth <? levels). rewrite <- (IH levels T).
    cbn [nest].
    destruct (nest_object key depth [("name", JString n)]) as [inner ->].
    rewrite fromNested_S. unfold extractName.
    rewrite extractNameFrom_wrapper. apply firstNested_one.
Qed.

Lemma extractPhotoUrlFrom_photo fields url :
  In "photo" fields -> startsWithHttp url = true ->
  extractPhotoUrlFrom fields (JObject [("photo", JString url)]) = Some url.
Proof.
  intros I H. induction fields as [|field rest IH]; [destruct I|].
  cbn [extractPhotoUrlFrom get assoc].
  destruct ("photo" =? field)%string eqn:E.
  - rewrite (http_truthy url H), H. reflexivity.
  - apply IH. destruct I as [I|I]; [|exact I].
    apply String.eqb_neq in E. congruence.
Qed.

Lemma photoFromNested_photo levels url :
  startsWithHttp url = true ->
  photoFromNested (S levels) (JObject [("photo", JString url)]) = Some url.
Proof.
  intros H. rewrite photoFromNested_S. unfold extractPhotoUrl.
  rewrite (extractPhotoUrlFrom_photo PHOTO_FIELDS url); [reflexivity| |exact H].
  unfold PHOTO_FIELDS. cbn [In]. tauto.
Qed.

Lemma photoFromNested_nest key url depth : forall levels,
  startsWithHttp url = true ->
  photoFromNested levels (nest key depth (JObject [("photo", JString url)]))
  = if depth <? levels then Some url else None.
Proof.
  induction depth as [|depth IH]; intros levels H.
  - destruct levels; [reflexivity|]. apply photoFromNested_photo, H.
  - destruct levels as [|levels]; [reflexivity|].
    change (S depth <? S levels) with (depth <? levels). rewrite <- (IH levels H).
    cbn [nest].
    destruct (nest_object key depth [("photo", JString url)]) as [inner ->].
    rewrite photoFromNested_S. unfold extractPhotoUrl.
    rewrite extractPhotoUrlFrom_wrapper. apply firstNested_one.
Qed.

Lemma extractPhotoUrlFrom_named fields n key inner :
  ~ In "name" fields ->
  extractPhotoUrlFrom fields
    (JObject [("name", JString n); (key, JObject inner)]) = None.
Proof.
  induction fields as [|field rest IH]; [reflexivity|]. intros N.
  cbn [extractPhotoUrlFrom get assoc].
  assert (E : ("name" =? field)%string = false).
  { apply String.eqb_neq. intros <-. apply N. left. reflexivity. }
  rewrite E. destruct (String.eqb key field); apply IH; intros K; apply N;
    right; exact K.
Qed.

End Depth.

(** X22.  The search for a name goes five objects deep and no deeper: an
    object with a [name] that is not blank, wrapped in [depth] objects, is
    found with its trimmed name when [depth] is at most 5, and nothing is
    found when it is more. *)
Theorem name_is_found_to_depth_5 key depth n :
  JS.trim n <> EmptyString ->
  ParseNames.extractFromNested
    (nest key depth (ParseNames.JObject [("name", ParseNames.JString n)])) 0
  = if depth <=? 5 then Some (JS.trim n, None) else None.
Proof.
  intros T. unfold ParseNames.extractFromNested.
  change (6 - 0) with 6. rewrite (fromNested_nest key n depth 6 T).
  reflexivity.
Qed.

Lemma name_is_found_to_depth_5_witness :
  ParseNames.extractFromNested
    (nest "user" 5 (ParseNames.JObject [("name", ParseNames.JString " Ada ")])) 0
  = Some ("Ada", None) /\
  ParseNames.extractFromNested
    (nest "user" 6 (ParseNames.JObject [("name", ParseNames.JString " Ada ")])) 0
  = None.
Proof.
  split.
  - apply (name_is_found_to_depth_5 "user" 5 " Ada "). discriminate.
  - apply (name_is_found_to_depth_5 "user" 6 " Ada "). discriminate.
Defined.

(** X23.  The search for the photo of a named object goes three objects
    below it and no deeper: a [photo] URL wrapped in objects, [depth + 1]
    levels below the object with the name, is returned with the name when
    [depth] is at most 2, and the name comes without a photo when it is
    more. *)
Theorem photo_is_found_to_depth_3 key depth n url :
  JS.trim n <> EmptyString ->
  ParseNames.startsWithHttp url = true ->
  ParseNames.extractFromNested
    (ParseNames.JObject
       [("name", ParseNames.JString n);
        (key, nest key depth
                (ParseNames.JObject [("photo", ParseNames.JString url)]))]) 0
  = Some (JS.trim n, if depth <=? 2 then Some url else None).
Proof.
  intros T H. unfold ParseNames.extractFromNested. change (6 - 0) with 6.
  destruct (nest_object key depth [("photo", ParseNames.JString url)])
    as [inner E].
  rewrite fromNested_S. cbn [ParseNames.isObjectLike negb].
  assert (N : ParseNames.extractName
                (ParseNames.JObject
                   [("name", ParseNames.JString n);
                    (key, nest key depth
                            (ParseNames.JObject
                               [("photo", ParseNames.JString url)]))])
              = Some (JS.trim n)).
  { apply extractName_named, trim_truthy, T. }
  rewrite N. unfold ParseNames.truthyName.
  assert (U : JS.truthy (JS.trim n) = true) by (apply truthy_iff, T).
  rewrite U. f_equal. f_equal.
  assert (P : ParseNames.extractPhotoUrl
                (ParseNames.JObject
                   [("name", ParseNames.JString n);
                    (key, nest key depth
                            (ParseNames.JObject
                               [("photo", ParseNames.JString url)]))])
              = None).
  { rewrite E. apply extractPhotoUrlFrom_named, name_not_photo. }
  rewrite P. unfold ParseNames.extractPhotoFromNested. change (4 - 0) with 4.
  rewrite photoFromNested_S. cbn [ParseNames.isObjectLike negb].
  rewrite P. cbn [ParseNames.values map snd]. rewrite E.
  rewrite firstNested_string, firstNested_one, <- E.
  rewrite (photoFromNested_nest key url depth 3 H).
  destruct depth as [|[|[|depth]]]; reflexivity.
Qed.

Lemma photo_is_found_to_depth_3_witness :
  ParseNames.extractFromNested
    (ParseNames.JObject
       [("name", ParseNames.JString "Ada");
        ("profile", nest "profile" 2
           (ParseNames.JObject
              [("photo", ParseNames.JString "https://example.org/a.png")]))]) 0
  = Some ("Ada", Some "https://example.org/a.png").
Proof.
  apply (photo_is_found_to_depth_3 "profile" 2 "Ada" "https://example.org/a.png").
  - discriminate.
  - reflexivity.
Defined.

(** X24.  The preview tells what the import does: the import uses the LLM
    exactly when the preview says it is needed; when it is not, the import
    returns the names and photos of the preview, and when it is, the
    preview found no name and the import returns what the LLM extracts
    from the trimmed input. *)
Theorem preview_predicts_import JSON_parse invokeExtractNames input :
  let preview := ParseNames.parseNamesSync JSON_parse input in
  let imported := ParseNames.parseNames JSON_parse invokeExtractNames input in
  snd imported = snd preview /\
  (snd preview = false -> fst imported = fst preview) /\
  (snd preview = true ->
   ParseNames.names (fst preview) = [] /\
   fst imported = ParseNames.extractWithLLM invokeExtractNames (JS.trim input)).
Proof.
  cbn zeta. unfold ParseNames.parseNamesSync, ParseNames.parseNames.
  destruct (negb (JS.truthy (JS.trim input)));
    [repeat split; discriminate|].
  destruct (negb (ParseNames.looksLikeJson (JS.trim input)));
    [repeat split; discriminate|].
  destruct (JSON_parse (JS.trim input)) as [parsed|];
    [|repeat split; discriminate].
  destruct (ParseNames.names (ParseNames.parseWithCommonKeys parsed))
    as [|x l] eqn:E; cbn [length Nat.eqb Nat.ltb Nat.leb fst snd].
  - repeat split; try discriminate. exact E.
  - repeat split; discriminate.
Qed.
